(** * The A-Frame [animation] component (src/components/animation/index.js)

    A shallow embedding of the component registered by
    [AFRAME.registerComponent('animation', ...)]: its instance fields, the
    entity it is attached to, the host services it calls, and every method
    of the component, followed by the properties of the play state, the
    event wiring, the start-delay timer and the tween configuration.

    The host services are taken as they behave: [el.emit] delivers the
    notification at once to the listeners registered on the entity, the
    component's own included; the schema lookup, the property read and the
    tween engine can throw; the engine calls back into the component while
    it is ticked.

    Numbers that count milliseconds ([delay], [dur], [time], the frame
    delta, the clock) are integers; vector coordinates are reals, because
    rotations are handed to the tween engine in radians. *)

From Stdlib Require Import ZArith List String Ascii Bool Lia Reals Lra.
Import ListNotations.

Open Scope Z_scope.

(** ** Data model *)

(** [schema.loop]: a boolean or an integer ([parseInt] may yield NaN). *)
Inductive Loop : Type :=
| LoopBool (b : bool)
| LoopInt (n : Z)
| LoopNaN.

(** [this.data], the parsed attribute of the component. *)
Record Data : Type := mkData {
  delay : Z;
  dir : string;
  dur : Z;
  easing : string;
  elasticity : Z;
  from : string;
  loop : Loop;
  property : string;
  startEvents : list string;
  pauseEvents : list string;
  resumeEvents : list string;
  restartEvents : list string;
  to : string
}.

(** The defaults of [schema]. *)
Definition schema : Data :=
  {| delay := 0; dir := ""; dur := 1000; easing := "easeInQuad";
     elasticity := 400; from := ""; loop := LoopInt 0; property := "";
     startEvents := []; pauseEvents := []; resumeEvents := [];
     restartEvents := []; to := "" |}.

(** An [{x, y, z[, w]}] coordinate object. *)
Record Vec : Type := mkVec {
  vx : R;
  vy : R;
  vz : R;
  vw : option R
}.

(** What a property of the entity holds: a coordinate object, a
    primitive kept as the string it was written as, or nothing
    ([undefined], for an attribute the entity does not have). *)
Inductive Value : Type :=
| VString (s : string)
| VVec (v : Vec)
| VUndefined.

(** [config.targets]: unset, the array [[from]] of the vector path, or the
    object [{aframeProperty: from}] of the default path. *)
Inductive Targets : Type :=
| NoTargets
| TargetsArray (l : list Value)
| TargetsObject (aframeProperty : Value).

(** [config.update]: which of the three closures is installed, with the
    property path it captured. *)
Inductive UpdateFn : Type :=
| NoUpdate
| UpdateObject3D (prop : string)
| UpdateVector (prop : string)
| UpdateDefault (prop : string).

(** [config.complete]: unset, or the closure installed by [init], which
    emits "animationcomplete" on the entity (lines 64-68). *)
Inductive CompleteFn : Type :=
| NoComplete
| EmitComplete.

(** [this.config], the object given to [anime]. It is created once in
    [init] and mutated by every rebuild, so a key written by an earlier
    rebuild stays until it is overwritten. *)
Record Config : Type := mkConfig {
  autoplay : option bool;
  direction : option string;
  duration : option Z;
  config_easing : option string;
  config_elasticity : option Z;
  config_loop : option Loop;
  targets : Targets;
  aframeProperty : option string;
  config_x : option R;
  config_y : option R;
  config_z : option R;
  config_w : option R;
  config_update : UpdateFn;
  config_complete : CompleteFn
}.

(** The four bound methods used as listeners and as the timer callback.
    [init] binds each of them once, so a handler is identified by which
    method it is. *)
Inductive Handler : Type :=
| HBegin
| HPause
| HResume
| HRestart.

Definition Handler_eqb (a b : Handler) : bool :=
  match a, b with
  | HBegin, HBegin | HPause, HPause | HResume, HResume
  | HRestart, HRestart => true
  | _, _ => false
  end.

(** The component instance, [this]. [paused] and [pausedWasPlaying] are
    not set by [init]; they are only tested for truthiness, so the
    undefined they start as is [false]. [animation] holds what [anime]
    was called with. *)
Record Component : Type := mkComponent {
  attrName : string;
  data : Data;
  time : Z;
  animation : option Config;
  animationIsPlaying : bool;
  paused : bool;
  pausedWasPlaying : bool;
  config : Config
}.

(** A component definition as the schema introspection sees it:
    [schema.type] of a single-property schema and [schema[name].type] of a
    multi-property one. *)
Record Schema : Type := mkSchema {
  schema_type : option string;
  schema_prop : string -> option (option string)
}.

(** What [el.components[name]] or [AFRAME.components[name]] gives: nothing
    (a falsy value), a value that is truthy but has no [schema] (an
    inherited key such as "toString" gives one), or a component with its
    schema. *)
Inductive Lookup : Type :=
| Missing
| Bare
| Defined (s : Schema).

(** A registered listener. The identifier tells a listener that was
    removed and added again from the one that was there before. *)
Record Listener : Type := mkListener {
  lid : nat;
  lname : string;
  lhandler : Handler
}.

(** A notification emitted on the entity: its name and [detail.name]. *)
Definition Notification : Type := (string * string)%type.

(** The entity [this.el]: its components, the values [getAttribute]
    and [getComponentProperty] read, the transforms of its [object3D], its
    listener list and what was emitted on it. *)
Record Element : Type := mkElement {
  components : string -> Lookup;
  properties : string -> Value;
  object3D : string -> Value;
  listeners : list Listener;
  nextListener : nat;
  emitted : list Notification
}.

(** The part of the [AFRAME] global the component reads. *)
Record Globals : Type := mkGlobals {
  coordinates_parse : string -> Vec;
  registered : string -> Lookup
}.

(** What one [animation.tick(time)] does on the component's side: the
    value the engine gives to [config.update], if it calls it, and whether
    it calls [config.complete]. *)
Record Frame : Type := mkFrame {
  frame_value : option Value;
  frame_complete : bool
}.

(** The tween engine ([require('animejs')]), which is not part of the
    repository: whether [anime(config)] returns a handle or throws, and
    what a tick of a handle calls back. *)
Record Engine : Type := mkEngine {
  accepts : Config -> bool;
  advance : Config -> Z -> Frame
}.

(** A pending [setTimeout], given by the clock value at which it is due.
    The component schedules one callback only, the bound [beginAnimation]
    (line 213), so the callback is not stored. *)
Definition Timer : Type := Z.

(** Everything a method can read or write. [engine] records the times
    given to [animation.tick], [handed] the configurations [anime] was
    called with, and [stack] is how deep listeners may still call
    listeners before the host's call stack is exhausted. *)
Record World : Type := mkWorld {
  this : Component;
  el : Element;
  AFRAME : Globals;
  animejs : Engine;
  timers : list Timer;
  clock : Z;
  engine : list Z;
  handed : list Config;
  stack : nat
}.

(** ** Field updates *)

Definition with_this (f : Component -> Component) (w : World) : World :=
  {| this := f (this w); el := el w; AFRAME := AFRAME w;
     animejs := animejs w; timers := timers w; clock := clock w;
     engine := engine w; handed := handed w; stack := stack w |}.

Definition with_el (f : Element -> Element) (w : World) : World :=
  {| this := this w; el := f (el w); AFRAME := AFRAME w;
     animejs := animejs w; timers := timers w; clock := clock w;
     engine := engine w; handed := handed w; stack := stack w |}.

Definition with_timers (f : list Timer -> list Timer) (w : World) : World :=
  {| this := this w; el := el w; AFRAME := AFRAME w;
     animejs := animejs w; timers := f (timers w); clock := clock w;
     engine := engine w; handed := handed w; stack := stack w |}.

Definition with_clock (t : Z) (w : World) : World :=
  {| this := this w; el := el w; AFRAME := AFRAME w;
     animejs := animejs w; timers := timers w; clock := t;
     engine := engine w; handed := handed w; stack := stack w |}.

Definition with_engine (f : list Z -> list Z) (w : World) : World :=
  {| this := this w; el := el w; AFRAME := AFRAME w;
     animejs := animejs w; timers := timers w; clock := clock w;
     engine := f (engine w); handed := handed w; stack := stack w |}.

Definition with_handed (f : list Config -> list Config) (w : World)
  : World :=
  {| this := this w; el := el w; AFRAME := AFRAME w;
     animejs := animejs w; timers := timers w; clock := clock w;
     engine := engine w; handed := f (handed w); stack := stack w |}.

Definition set_data (d : Data) (c : Component) : Component :=
  {| attrName := attrName c; data := d; time := time c;
     animation := animation c; animationIsPlaying := animationIsPlaying c;
     paused := paused c; pausedWasPlaying := pausedWasPlaying c;
     config := config c |}.

Definition set_time (t : Z) (c : Component) : Component :=
  {| attrName := attrName c; data := data c; time := t;
     animation := animation c; animationIsPlaying := animationIsPlaying c;
     paused := paused c; pausedWasPlaying := pausedWasPlaying c;
     config := config c |}.

Definition set_animation (a : option Config) (c : Component) : Component :=
  {| attrName := attrName c; data := data c; time := time c;
     animation := a; animationIsPlaying := animationIsPlaying c;
     paused := paused c; pausedWasPlaying := pausedWasPlaying c;
     config := config c |}.

Definition set_animationIsPlaying (b : bool) (c : Component) : Component :=
  {| attrName := attrName c; data := data c; time := time c;
     animation := animation c; animationIsPlaying := b;
     paused := paused c; pausedWasPlaying := pausedWasPlaying c;
     config := config c |}.

Definition set_paused (b : bool) (c : Component) : Component :=
  {| attrName := attrName c; data := data c; time := time c;
     animation := animation c; animationIsPlaying := animationIsPlaying c;
     paused := b; pausedWasPlaying := pausedWasPlaying c;
     config := config c |}.

Definition set_pausedWasPlaying (b : bool) (c : Component) : Component :=
  {| attrName := attrName c; data := data c; time := time c;
     animation := animation c; animationIsPlaying := animationIsPlaying c;
     paused := paused c; pausedWasPlaying := b;
     config := config c |}.

Definition set_config (g : Config) (c : Component) : Component :=
  {| attrName := attrName c; data := data c; time := time c;
     animation := animation c; animationIsPlaying := animationIsPlaying c;
     paused := paused c; pausedWasPlaying := pausedWasPlaying c;
     config := g |}.

Definition set_listeners (l : list Listener) (n : nat) (e : Element)
  : Element :=
  {| components := components e; properties := properties e;
     object3D := object3D e;
     listeners := l; nextListener := n; emitted := emitted e |}.

Definition set_emitted (l : list Notification) (e : Element) : Element :=
  {| components := components e; properties := properties e;
     object3D := object3D e;
     listeners := listeners e; nextListener := nextListener e;
     emitted := l |}.

Definition set_properties (p : string -> Value) (e : Element) : Element :=
  {| components := components e; properties := p;
     object3D := object3D e;
     listeners := listeners e; nextListener := nextListener e;
     emitted := emitted e |}.

Definition set_object3D (o : string -> Value) (e : Element) : Element :=
  {| components := components e; properties := properties e;
     object3D := o;
     listeners := listeners e; nextListener := nextListener e;
     emitted := emitted e |}.

(** ** Methods as state transformers that may throw *)

Inductive Error : Type :=
| TypeError (msg : string)
| EngineError.

Inductive Outcome (A : Type) : Type :=
| Returned (a : A) (w : World)
| Thrown (e : Error) (w : World).

Arguments Returned {A} a w.
Arguments Thrown {A} e w.

Definition M (A : Type) : Type := World -> Outcome A.

Definition ret {A : Type} (a : A) : M A := fun w => Returned a w.

Definition bind {A B : Type} (m : M A) (k : A -> M B) : M B :=
  fun w =>
    match m w with
    | Returned a w' => k a w'
    | Thrown e w' => Thrown e w'
    end.

Definition throw {A : Type} (e : Error) : M A := fun w => Thrown e w.

Definition read {A : Type} (f : World -> A) : M A :=
  fun w => Returned (f w) w.

Definition modify (f : World -> World) : M unit :=
  fun w => Returned tt (f w).

Declare Scope js_scope.
Delimit Scope js_scope with js.
Notation "x <- m ;; k" := (bind m (fun x => k))
  (at level 61, m at next level, right associativity) : js_scope.
Notation "m ;; k" := (bind m (fun _ => k))
  (at level 61, right associativity) : js_scope.

(** The world a call leaves behind, whether it returned or threw. *)
Definition after {A : Type} (o : Outcome A) : World :=
  match o with
  | Returned _ w => w
  | Thrown _ w => w
  end.

Definition returned {A : Type} (o : Outcome A) : bool :=
  match o with
  | Returned _ _ => true
  | Thrown _ _ => false
  end.

(** ** Host services *)

(** A JS string is falsy exactly when it is empty. *)
Definition truthy (s : string) : bool := negb (String.eqb s "").

(** [String.prototype.split] with a one-character separator. *)
Fixpoint split (sep : ascii) (s : string) : list string :=
  match s with
  | EmptyString => [EmptyString]
  | String c r =>
      if Ascii.eqb c sep then EmptyString :: split sep r
      else match split sep r with
           | [] => [String c EmptyString]
           | h :: t => String c h :: t
           end
  end.

(** [utils.entity.getComponentProperty(el, path)], when it returns. *)
Definition getComponentProperty (e : Element) (path : string) : Value :=
  properties e path.

(** Modelled from the spec: the property-reflection read, which is not
    part of this repository. For a dotted path it reads the attribute of
    the component and then the named key of it, and so throws when the
    entity has no such attribute; a path without a dot never throws. *)
Definition getComponentProperty_throws (e : Element) (path : string)
  : bool :=
  match split "." path with
  | componentName :: _ :: _ =>
      match properties e componentName with
      | VUndefined => true
      | _ => false
      end
  | _ => false
  end.

(** [utils.entity.setComponentProperty(el, path, value)]. *)
Definition setComponentProperty (path : string) (v : Value) (e : Element)
  : Element :=
  set_properties
    (fun q => if String.eqb q path then v else properties e q) e.

Definition same_listener (name : string) (h : Handler) (l : Listener)
  : bool :=
  String.eqb (lname l) name && Handler_eqb (lhandler l) h.

(** [el.addEventListener(name, handler)]: a listener with the same type
    and callback as one already in the list is not added again. *)
Definition addEventListener (name : string) (h : Handler) (e : Element)
  : Element :=
  if existsb (same_listener name h) (listeners e) then e
  else set_listeners (listeners e ++ [mkListener (nextListener e) name h])
         (S (nextListener e)) e.

(** [el.removeEventListener(name, handler)]. *)
Definition removeEventListener (name : string) (h : Handler) (e : Element)
  : Element :=
  set_listeners
    (filter (fun l => negb (same_listener name h l)) (listeners e))
    (nextListener e) e.

(** The record of a notification emitted on the entity. *)
Definition logged (name : string) (detail : string) (e : Element)
  : Element :=
  set_emitted (emitted e ++ [(name, detail)]) e.

(** The conversion of a number to the signed 32-bit integer in which the
    platform keeps a timer's delay. *)
Definition to_int32 (z : Z) : Z := (z + 2 ^ 31) mod 2 ^ 32 - 2 ^ 31.

(** [setTimeout(this.beginAnimation, ms)]: the delay is kept as a signed
    32-bit integer, and a negative one counts as zero. *)
Definition setTimeout (ms : Z) : M unit :=
  modify (fun w =>
    with_timers (fun ts => ts ++ [clock w + Z.max 0 (to_int32 ms)]) w).

(** [anime(config)]: the engine is given the configuration and returns a
    handle, which is what it was given, or throws. *)
Definition anime (c : Config) : M Config :=
  fun w =>
    if accepts (animejs w) c
    then Returned c (with_handed (fun l => l ++ [c]) w)
    else Thrown EngineError (with_handed (fun l => l ++ [c]) w).

(** Modelled from the spec: [THREE.Math.degToRad], which is not part of
    this repository; the conversion is d |-> d * pi / 180. *)
Definition degToRad (d : R) : R := (d * (PI / 180))%R.

(** ** Module-level functions of index.js *)

(** [None] is a TypeError: the component found has no [schema] to read
    (lines 279-285). [Some None] is the [null] of lines 276 and 279 or an
    undefined type. *)
Definition getPropertyType (G : Globals) (e : Element) (prop : string)
  : option (option string) :=
  let parts := split "." prop in
  let componentName := nth 0 parts EmptyString in
  let propertyName := nth_error parts 1 in
  let component :=
    match components e componentName with
    | Missing => registered G componentName
    | c => c
    end in
  match component with
  | Missing => Some None
  | Bare => None
  | Defined c =>
      match propertyName with
      | Some p =>
          if truthy p then
            match schema_prop c p with
            | None => Some None
            | Some ty => Some ty
            end
          else Some (schema_type c)
      | None => Some (schema_type c)
      end
  end.

Definition toRadians (obj : Vec) : Vec :=
  {| vx := degToRad (vx obj); vy := degToRad (vy obj);
     vz := degToRad (vz obj); vw := vw obj |}.

Definition addEventListeners (e : Element) (eventNames : list string)
  (handler : Handler) : Element :=
  fold_left (fun e' name => addEventListener name handler e') eventNames e.

Definition removeEventListeners (e : Element) (eventNames : list string)
  (handler : Handler) : Element :=
  fold_left (fun e' name => removeEventListener name handler e')
    eventNames e.

(** ** The component *)

Definition set_base (d : Data) (g : Config) : Config :=
  {| autoplay := Some false; direction := Some (dir d);
     duration := Some (dur d); config_easing := Some (easing d);
     config_elasticity := Some (elasticity d);
     config_loop := Some (loop d);
     targets := targets g; aframeProperty := aframeProperty g;
     config_x := config_x g; config_y := config_y g;
     config_z := config_z g; config_w := config_w g;
     config_update := config_update g;
     config_complete := config_complete g |}.

Definition set_default (fromv : Value) (tov : string) (prop : string)
  (g : Config) : Config :=
  {| autoplay := autoplay g; direction := direction g;
     duration := duration g; config_easing := config_easing g;
     config_elasticity := config_elasticity g;
     config_loop := config_loop g;
     targets := TargetsObject fromv; aframeProperty := Some tov;
     config_x := config_x g; config_y := config_y g;
     config_z := config_z g; config_w := config_w g;
     config_update := UpdateDefault prop;
     config_complete := config_complete g |}.

Definition set_vector (fromv : Value) (tov : Vec) (u : UpdateFn)
  (g : Config) : Config :=
  {| autoplay := autoplay g; direction := direction g;
     duration := duration g; config_easing := config_easing g;
     config_elasticity := config_elasticity g;
     config_loop := config_loop g;
     targets := TargetsArray [fromv]; aframeProperty := aframeProperty g;
     config_x := Some (vx tov); config_y := Some (vy tov);
     config_z := Some (vz tov);
     config_w := match vw tov with Some r => Some r | None => config_w g end;
     config_update := u;
     config_complete := config_complete g |}.

(** Applying a function that assigns to [obj.x], [obj.y], [obj.z]: on a
    primitive the assignments do nothing (the file is not in strict
    mode). The function works on the value it is given; whether the host
    hands out the entity's own object, so that the assignments would show
    on the entity as well, is not modelled. On [undefined] the first
    assignment throws, which the caller handles. *)
Definition on_object (f : Vec -> Vec) (v : Value) : Value :=
  match v with
  | VVec o => VVec (f o)
  | VString s => VString s
  | VUndefined => VUndefined
  end.

Definition is_vector_type (t : option (option string)) : bool :=
  match t with
  | Some (Some s) => String.eqb s "vec2" || String.eqb s "vec3"
                     || String.eqb s "vec4"
  | _ => false
  end.

(** The methods are written over [emit], the entity's [el.emit], which is
    defined after them because emitting calls the listeners, and the
    listeners are these methods. *)
Module Methods.

Open Scope js_scope.

(** The configuration object [init] creates: [complete] only. *)
Definition created : Config :=
  mkConfig None None None None None None NoTargets None
    None None None None NoUpdate EmitComplete.

(** The instance as [init] leaves it. *)
Definition instance (name : string) (d : Data) : Component :=
  {| attrName := name; data := d; time := 0; animation := None;
     animationIsPlaying := false; paused := false;
     pausedWasPlaying := false;
     config := created |}.

Definition init : M unit :=
  modify (with_this (set_time 0)) ;;
  modify (with_this (set_animation None)) ;;
  modify (with_this (set_animationIsPlaying false)) ;;
  modify (with_this (set_config created)).

Definition pauseAnimation : M unit :=
  modify (with_this (set_animationIsPlaying false)).

Definition resumeAnimation : M unit :=
  modify (with_this (set_animationIsPlaying true)).

Definition addEventListeners : M unit :=
  modify (fun w =>
    let d := data (this w) in
    with_el (fun e =>
      let e1 := addEventListeners e (startEvents d) HBegin in
      let e2 := addEventListeners e1 (pauseEvents d) HPause in
      let e3 := addEventListeners e2 (resumeEvents d) HResume in
      addEventListeners e3 (restartEvents d) HRestart) w).

Definition removeEventListeners : M unit :=
  modify (fun w =>
    let d := data (this w) in
    with_el (fun e =>
      let e1 := removeEventListeners e (startEvents d) HBegin in
      let e2 := removeEventListeners e1 (pauseEvents d) HPause in
      let e3 := removeEventListeners e2 (resumeEvents d) HResume in
      removeEventListeners e3 (restartEvents d) HRestart) w).

(** [getComponentProperty(el, data.property)], which may throw. *)
Definition readProperty : M Value :=
  fun w =>
    if getComponentProperty_throws (el w) (property (data (this w)))
    then Thrown (TypeError "Cannot read property of undefined") w
    else Returned (getComponentProperty (el w) (property (data (this w)))) w.

(** [getPropertyType(el, data.property)], which may throw. *)
Definition typeOfProperty : M (option (option string)) :=
  fun w =>
    match getPropertyType (AFRAME w) (el w) (property (data (this w))) with
    | Some t => Returned (Some t) w
    | None => Thrown (TypeError "Cannot read property of undefined") w
    end.

Definition updateConfigForDefault : M unit :=
  d <- read (fun w => data (this w)) ;;
  fromv <- (if truthy (from d) then ret (VString (from d))
            else readProperty) ;;
  modify (with_this (fun c =>
    set_config (set_default fromv (to d) (property d) (config c)) c)).

Definition updateConfigForVector : M unit :=
  d <- read (fun w => data (this w)) ;;
  parse <- read (fun w => coordinates_parse (AFRAME w)) ;;
  fromv <- (if truthy (from d) then ret (VVec (parse (from d)))
            else readProperty) ;;
  let tov := parse (to d) in
  let rot := String.eqb (property d) "rotation" in
  fromv <- (if rot then
              match fromv with
              | VUndefined =>
                  throw (TypeError "Cannot set property 'x' of undefined")
              | v => ret (on_object toRadians v)
              end
            else ret fromv) ;;
  let tov := if rot then toRadians tov else tov in
  let u :=
    if String.eqb (property d) "position"
       || String.eqb (property d) "rotation"
       || String.eqb (property d) "scale"
    then UpdateObject3D (property d)
    else UpdateVector (property d) in
  modify (with_this (fun c =>
    set_config (set_vector fromv tov u (config c)) c)).

Definition remove : M unit :=
  pauseAnimation ;;
  removeEventListeners.

Definition pause : M unit :=
  modify (with_this (set_paused true)) ;;
  modify (with_this (set_pausedWasPlaying true)) ;;
  pauseAnimation ;;
  removeEventListeners.

Definition play : M unit :=
  p <- read (fun w => paused (this w)) ;;
  if negb p then ret tt
  else
    modify (with_this (set_paused false)) ;;
    addEventListeners ;;
    wasPlaying <- read (fun w => pausedWasPlaying (this w)) ;;
    if wasPlaying then
      resumeAnimation ;;
      modify (with_this (set_pausedWasPlaying false))
    else ret tt.

(** [config.update], called by the engine with the value it computed. *)
Definition run_update (u : UpdateFn) (v : Value) : M unit :=
  match u with
  | NoUpdate => ret tt
  | UpdateObject3D prop =>
      modify (with_el (fun e =>
        set_object3D
          (fun q => if String.eqb q prop then v else object3D e q) e))
  | UpdateVector prop => modify (with_el (setComponentProperty prop v))
  | UpdateDefault prop => modify (with_el (setComponentProperty prop v))
  end.

Section Emitting.

Variable emit : string -> string -> M unit.

Definition beginAnimation : M unit :=
  modify (with_this (set_animationIsPlaying true)) ;;
  detail <- read (fun w => attrName (this w)) ;;
  emit "animationbegin" detail.

Definition createAndStartAnimation (isRestarting : bool) : M unit :=
  propType <- typeOfProperty ;;
  (if is_vector_type propType then updateConfigForVector
   else updateConfigForDefault) ;;
  modify (with_this (set_animationIsPlaying false)) ;;
  c <- read (fun w => config (this w)) ;;
  a <- anime c ;;
  modify (with_this (set_animation (Some a))) ;;
  removeEventListeners ;;
  addEventListeners ;;
  d <- read (fun w => data (this w)) ;;
  if negb isRestarting && negb (delay d =? 0) then
    setTimeout (delay d)
  else if negb isRestarting && negb (List.length (startEvents d) =? 0)%nat then
    ret tt
  else
    beginAnimation.

Definition restartAnimation : M unit :=
  playing <- read (fun w => animationIsPlaying (this w)) ;;
  createAndStartAnimation playing.

Definition update : M unit :=
  modify (with_this (set_animationIsPlaying false)) ;;
  d <- read (fun w => data (this w)) ;;
  if negb (truthy (property d)) then ret tt
  else
    modify (with_this (fun c => set_config (set_base d (config c)) c)) ;;
    pauseAnimation ;;
    createAndStartAnimation false.

(** [config.complete], called by the engine when the animation ends. *)
Definition run_complete (k : CompleteFn) : M unit :=
  match k with
  | NoComplete => ret tt
  | EmitComplete =>
      detail <- read (fun w => attrName (this w)) ;;
      emit "animationcomplete" detail
  end.

Definition tick (t dt : Z) : M unit :=
  playing <- read (fun w => animationIsPlaying (this w)) ;;
  if negb playing then ret tt
  else
    modify (with_this (fun c => set_time (time c + dt) c)) ;;
    a <- read (fun w => animation (this w)) ;;
    match a with
    | None => throw (TypeError "Cannot read property 'tick' of null")
    | Some handle =>
        modify (fun w => with_engine (fun l => l ++ [time (this w)]) w) ;;
        frame <- read (fun w =>
          advance (animejs w) handle (time (this w))) ;;
        match frame_value frame with
        | Some v => run_update (config_update handle) v
        | None => ret tt
        end ;;
        if frame_complete frame then run_complete (config_complete handle)
        else ret tt
    end.

(** Calling a bound method. *)
Definition invoke (h : Handler) : M unit :=
  match h with
  | HBegin => beginAnimation
  | HPause => pauseAnimation
  | HResume => resumeAnimation
  | HRestart => restartAnimation
  end.

End Emitting.

End Methods.

(** ** Delivering events *)

Open Scope js_scope.

Fixpoint for_each {A : Type} (f : A -> M unit) (l : list A) : M unit :=
  match l with
  | [] => ret tt
  | a :: r => f a ;; for_each f r
  end.

(** A listener or a timer callback that throws does not stop the host:
    the exception is reported and the host goes on. *)
Definition swallow (m : M unit) : M unit :=
  fun w => Returned tt (after (m w)).

(** The listeners of [name] are taken as they are when the dispatch
    starts and called in the order they were added; one that has been
    removed in the meantime is skipped. *)
Definition dispatch_with (call : Handler -> M unit) (name : string)
  : M unit :=
  snapshot <- read (fun w =>
    filter (fun l => String.eqb (lname l) name) (listeners (el w))) ;;
  for_each (fun l =>
    present <- read (fun w =>
      existsb (fun l' => Nat.eqb (lid l') (lid l)) (listeners (el w))) ;;
    if present then swallow (call (lhandler l)) else ret tt) snapshot.

(** [el.emit(name, detail)] with [depth] nested listener calls left: the
    notification is recorded and dispatched at once on the entity. With no
    depth left, the call of a listener fails on the exhausted stack, which
    the dispatch reports like any other exception. *)
Fixpoint emit_at (depth : nat) (name detail : string) : M unit :=
  modify (with_el (logged name detail)) ;;
  dispatch_with
    (fun h =>
       match depth with
       | O => ret tt
       | S k => Methods.invoke (emit_at k) h
       end) name.

Definition emit (name detail : string) : M unit :=
  fun w => emit_at (stack w) name detail w.

(** The component with its methods bound to the entity's [emit]. *)
Module Animation.

Definition instance := Methods.instance.
Definition init : M unit := Methods.init.
Definition pauseAnimation : M unit := Methods.pauseAnimation.
Definition resumeAnimation : M unit := Methods.resumeAnimation.
Definition addEventListeners : M unit := Methods.addEventListeners.
Definition removeEventListeners : M unit := Methods.removeEventListeners.
Definition updateConfigForDefault : M unit := Methods.updateConfigForDefault.
Definition updateConfigForVector : M unit := Methods.updateConfigForVector.
Definition remove : M unit := Methods.remove.
Definition pause : M unit := Methods.pause.
Definition play : M unit := Methods.play.
Definition beginAnimation : M unit := Methods.beginAnimation emit.
Definition createAndStartAnimation (isRestarting : bool) : M unit :=
  Methods.createAndStartAnimation emit isRestarting.
Definition restartAnimation : M unit := Methods.restartAnimation emit.
Definition update : M unit := Methods.update emit.
Definition tick (t dt : Z) : M unit := Methods.tick emit t dt.
Definition invoke (h : Handler) : M unit := Methods.invoke emit h.

End Animation.

(** ** The host runtime

    The component is driven by the host: it replaces [this.data] and calls
    [update], calls [tick] once per frame, calls [pause], [play] and
    [remove], delivers events to the listeners registered on the entity,
    and runs the timers that are due. *)

(** Parameters changed: [this.data] is the new data by the time [update]
    runs. *)
Definition updateProperties (d : Data) : M unit :=
  modify (with_this (set_data d)) ;;
  Animation.update.

(** Attaching the component: [init], then the first [update]. *)
Definition attach : M unit :=
  Animation.init ;;
  Animation.update.

(** An event named [name] is dispatched on the entity. *)
Definition dispatchEvent (name : string) : M unit :=
  dispatch_with Animation.invoke name.

(** The clock moves forward by [ms]; every timer due by then fires. All
    pending callbacks are the same bound [beginAnimation], which reads
    neither the clock nor the timer list. *)
Definition elapse (ms : Z) : M unit :=
  w0 <- read (fun w => w) ;;
  let t := clock w0 + ms in
  modify (with_timers (filter (fun d => negb (d <=? t)))) ;;
  modify (with_clock t) ;;
  for_each (fun _ : Timer => swallow Animation.beginAnimation)
    (filter (fun d => d <=? t) (timers w0)).

Inductive Stimulus : Type :=
| Update (d : Data)
| Tick (t dt : Z)
| Pause
| Play
| Remove
| Event (name : string)
| Elapse (ms : Z)
| Mutate (p : string -> Value).

Definition handle (s : Stimulus) : M unit :=
  match s with
  | Update d => updateProperties d
  | Tick t dt => Animation.tick t dt
  | Pause => Animation.pause
  | Play => Animation.play
  | Remove => Animation.remove
  | Event name => dispatchEvent name
  | Elapse ms => elapse ms
  | Mutate p => modify (with_el (set_properties p))
  end.

Definition step (w : World) (s : Stimulus) : World := after (handle s w).

Definition run (ss : list Stimulus) (w : World) : World :=
  fold_left step ss w.

(** The "animationbegin" notifications among a list of notifications. *)
Definition begins (l : list Notification) : nat :=
  List.length (filter (fun n => String.eqb (fst n) "animationbegin") l).

(** ** Observations used in the statements *)

(** [m] does not change the part of the world that [proj] reads. *)
Definition keeps {X : Type} (proj : World -> X) {A : Type} (m : M A)
  : Prop :=
  forall w, proj (after (m w)) = proj w.

Definition frame_delta_ok (s : Stimulus) : Prop :=
  match s with
  | Tick _ dt => 0 <= dt
  | _ => True
  end.

Definition not_tick (s : Stimulus) : Prop :=
  match s with
  | Tick _ _ => False
  | _ => True
  end.

Definition frames (l : list (Z * Z)) : list Stimulus :=
  map (fun f => Tick (fst f) (snd f)) l.

(** Whether [createAndStartAnimation] reaches [beginAnimation]. *)
Definition starts_now (isRestarting : bool) (d : Data) : bool :=
  isRestarting
  || ((delay d =? 0) && (List.length (startEvents d) =? 0)%nat).

(** Whether [createAndStartAnimation] schedules the start-delay timer. *)
Definition starts_later (isRestarting : bool) (d : Data) : bool :=
  negb isRestarting && negb (delay d =? 0).

Definition begin_notification (w : World) : Notification :=
  ("animationbegin"%string, attrName (this w)).

(** The world in which [update] calls [createAndStartAnimation]: the new
    data is in place, the base keys of the configuration are written and
    [animationIsPlaying] is cleared. *)
Definition reconfigured (d : Data) (w : World) : World :=
  with_this (set_animationIsPlaying false)
    (with_this (fun c => set_config (set_base d (config c)) c)
       (with_this (set_animationIsPlaying false)
          (with_this (set_data d) w))).

(** Lines 198-203 of [createAndStartAnimation] on their own: the target
    property is classified and the configuration is written for it. *)
Definition configure : M unit :=
  propType <- Methods.typeOfProperty ;;
  if is_vector_type propType then Methods.updateConfigForVector
  else Methods.updateConfigForDefault.

(** Whether [configure] throws: the schema lookup finds a value without
    a schema, or [from] is not given and the property read throws, or the
    property is a vector "rotation" and the value read is [undefined]. *)
Definition unresolvable (w : World) : bool :=
  let d := data (this w) in
  match getPropertyType (AFRAME w) (el w) (property d) with
  | None => true
  | Some t =>
      negb (truthy (from d))
      && (getComponentProperty_throws (el w) (property d)
          || (is_vector_type (Some t)
              && String.eqb (property d) "rotation"
              && match getComponentProperty (el w) (property d) with
                 | VUndefined => true
                 | _ => false
                 end))
  end.

(** The configuration [configure] leaves when it returns: the keys of the
    vector path or of the default path written over the configuration
    object [g]. *)
Definition resolved (w : World) (g : Config) : Config :=
  let d := data (this w) in
  if is_vector_type (getPropertyType (AFRAME w) (el w) (property d)) then
    let parse := coordinates_parse (AFRAME w) in
    let rot := String.eqb (property d) "rotation" in
    let fromv := if truthy (from d) then VVec (parse (from d))
                 else getComponentProperty (el w) (property d) in
    set_vector
      (if rot then on_object toRadians fromv else fromv)
      (if rot then toRadians (parse (to d)) else parse (to d))
      (if String.eqb (property d) "position"
          || String.eqb (property d) "rotation"
          || String.eqb (property d) "scale"
       then UpdateObject3D (property d)
       else UpdateVector (property d))
      g
  else
    set_default
      (if truthy (from d) then VString (from d)
       else getComponentProperty (el w) (property d))
      (to d) (property d) g.

(** The world after lines 208-209: the triggers of the current data are
    removed and added again. *)
Definition wired (w : World) : World :=
  after (Methods.addEventListeners (after (Methods.removeEventListeners w))).

(** The world after a [beginAnimation] whose notification reaches no
    listener. *)
Definition begun (w : World) : World :=
  with_el (logged "animationbegin" (attrName (this w)))
    (with_this (set_animationIsPlaying true) w).

(** The world [createAndStartAnimation] leaves when it returns and its
    "animationbegin", if it emits one, reaches no listener. *)
Definition rebuilt (isRestarting : bool) (w : World) : World :=
  let g := resolved w (config (this w)) in
  let d := data (this w) in
  let w3 :=
    wired
      (with_this (set_animation (Some g))
         (with_handed (fun l => l ++ [g])
            (with_this (set_animationIsPlaying false)
               (with_this (set_config g) w)))) in
  if starts_later isRestarting d then
    with_timers
      (fun ts => ts ++ [clock w + Z.max 0 (to_int32 (delay d))]) w3
  else if starts_now isRestarting d then begun w3
  else w3.

(** What the rebuild reads of the world besides the configuration object:
    the globals, the engine, the entity's components and properties, and
    the data. *)
Definition same_setting (w u : World) : Prop :=
  AFRAME u = AFRAME w /\ animejs u = animejs w
  /\ components (el u) = components (el w)
  /\ properties (el u) = properties (el w)
  /\ data (this u) = data (this w).

(** The rebuild that started in [w0] has settled on the configuration
    [g]: what it reads is as in [w0], [g] is the configuration object and
    the animation handle, and [g] is all the engine has been given since
    [w0], once or more. *)
Definition settled (w0 : World) (g : Config) (u : World) : Prop :=
  same_setting w0 u
  /\ config (this u) = g
  /\ animation (this u) = Some g
  /\ exists n : nat, handed u = handed w0 ++ repeat g (S n).

(** Whether a listener is registered on the entity for the event
    [name]. *)
Definition hears (name : string) (w : World) : bool :=
  existsb (fun l => String.eqb (lname l) name) (listeners (el w)).

(** The event names of a configuration. *)
Definition event_names (d : Data) : list string :=
  startEvents d ++ pauseEvents d ++ resumeEvents d ++ restartEvents d.


(** ** A reference host, for concrete runs *)

Definition digit (c : ascii) : option Z :=
  let n := Z.of_nat (nat_of_ascii c) in
  if (48 <=? n) && (n <=? 57) then Some (n - 48) else None.

Fixpoint digits (s : string) (acc : Z) : option Z :=
  match s with
  | EmptyString => Some acc
  | String c r =>
      match digit c with
      | Some k => digits r (10 * acc + k)
      | None => None
      end
  end.

Definition parseInteger (s : string) : Z :=
  match s with
  | EmptyString => 0
  | String "-" r => match digits r 0 with Some n => - n | None => 0 end
  | _ => match digits s 0 with Some n => n | None => 0 end
  end.

(** Modelled from the spec: the coordinate-string parser
    ([AFRAME.utils.coordinates.parse], not part of this repository), which
    produces an [{x, y, z[, w]}] record from a string of numbers separated
    by spaces. This instance reads integer coordinates. *)
Definition parseCoordinates (s : string) : Vec :=
  let parts := split " " s in
  let coord (i : nat) := IZR (parseInteger (nth i parts EmptyString)) in
  {| vx := coord 0%nat; vy := coord 1%nat; vz := coord 2%nat;
     vw := match nth_error parts 3 with
           | Some p => Some (IZR (parseInteger p))
           | None => None
           end |}.

Definition vec3 : Schema :=
  {| schema_type := Some "vec3"%string; schema_prop := fun _ => None |}.

Definition material : Schema :=
  {| schema_type := None;
     schema_prop := fun p =>
       if String.eqb p "opacity" then Some (Some "number"%string)
       else if String.eqb p "color" then Some (Some "color"%string)
       else None |}.

Definition host : Globals :=
  {| coordinates_parse := parseCoordinates;
     registered := fun name =>
       if String.eqb name "position" || String.eqb name "rotation"
          || String.eqb name "scale"
       then Defined vec3
       else if String.eqb name "material" then Defined material
       else Missing |}.

(** An entity with the three transforms, a material and the attribute
    "visible"; like every object, its component table answers "toString"
    with a function, which has no schema. *)
Definition entity : Element :=
  {| components := fun name =>
       if String.eqb name "toString" then Bare else Missing;
     properties := fun path =>
       if String.eqb path "scale" then VVec (mkVec 1 1 1 None)
       else if String.eqb path "position" || String.eqb path "rotation"
       then VVec (mkVec 0 0 0 None)
       else if String.eqb path "material" then VString "color: red"
       else if String.eqb path "material.opacity" then VString "1"
       else if String.eqb path "visible" then VString "true"
       else VUndefined;
     object3D := fun _ => VUndefined;
     listeners := [];
     nextListener := 0;
     emitted := [] |}.

(** An engine that refuses the end value "false", calls no update and
    completes an animation when the time it is given reaches the
    duration. *)
Definition tween : Engine :=
  {| accepts := fun g =>
       match aframeProperty g with
       | Some s => negb (String.eqb s "false")
       | None => true
       end;
     advance := fun g t =>
       {| frame_value := None;
          frame_complete := match duration g with
                            | Some d => d <=? t
                            | None => false
                            end |} |}.

(** The world in which an instance named "animation" with the schema
    defaults has just been created on [entity] and initialised. *)
Definition world0 : World :=
  {| this := Animation.instance "animation" schema;
     el := entity; AFRAME := host; animejs := tween; timers := [];
     clock := 0; engine := []; handed := []; stack := 16 |}.

Definition with_property (p toValue : string) (d : Data) : Data :=
  {| delay := delay d; dir := dir d; dur := dur d; easing := easing d;
     elasticity := elasticity d; from := from d; loop := loop d;
     property := p;
     startEvents := startEvents d; pauseEvents := pauseEvents d;
     resumeEvents := resumeEvents d; restartEvents := restartEvents d;
     to := toValue |}.

Definition with_delay (ms : Z) (d : Data) : Data :=
  {| delay := ms; dir := dir d; dur := dur d; easing := easing d;
     elasticity := elasticity d; from := from d; loop := loop d;
     property := property d;
     startEvents := startEvents d; pauseEvents := pauseEvents d;
     resumeEvents := resumeEvents d; restartEvents := restartEvents d;
     to := to d |}.

Definition with_events (starts pauses resumes restarts : list string)
  (d : Data) : Data :=
  {| delay := delay d; dir := dir d; dur := dur d; easing := easing d;
     elasticity := elasticity d; from := from d; loop := loop d;
     property := property d;
     startEvents := starts; pauseEvents := pauses;
     resumeEvents := resumes; restartEvents := restarts;
     to := to d |}.

(** [position: to 1 2 3], no events, no delay. *)
Definition move : Data := with_property "position" "1 2 3" schema.

(** [rotation: to 0 90 0]. *)
Definition turn : Data := with_property "rotation" "0 90 0" schema.

(** [position: to 1 2 3] waiting for the event "go". *)
Definition move_on_go : Data := with_events ["go"%string] [] [] [] move.

(** [position: to 1 2 3] waiting for the event "later". *)
Definition move_on_later : Data :=
  with_events ["later"%string] [] [] [] move.

(** [position: to 1 2 3] after a delay of one second. *)
Definition move_delayed : Data := with_delay 1000 move.


(** [position: to 1 2 3] with the pause event "stop" and the resume event
    "cont". *)
Definition move_stop_cont : Data :=
  with_events [] ["stop"%string] ["cont"%string] [] move.

(** [visible: to false], a property whose component the reference host
    does not know. *)
Definition hide : Data := with_property "visible" "false" schema.


(** [position: to 1 2 3] paused by its own "animationbegin". *)
Definition move_self_paused : Data :=
  with_events [] ["animationbegin"%string] [] [] move.

(** [toString: to 1], a property the component table answers without a
    schema. *)
Definition stringly : Data := with_property "toString" "1" schema.

(** [position: to 1 2 3] with the pause event "stop" and the restart event
    "again". *)
Definition move_stop_again : Data :=
  with_events [] ["stop"%string] [] ["again"%string] move.




(** [material.opacity: to 0], starting from the value on the entity,
    with the restart event "again". *)
Definition fade_again : Data :=
  {| delay := 0; dir := ""; dur := 1000; easing := "easeInQuad";
     elasticity := 400; from := ""; loop := LoopInt 0;
     property := "material.opacity";
     startEvents := []; pauseEvents := []; resumeEvents := [];
     restartEvents := ["again"%string]; to := "0" |}.

(** The entity's attributes are all taken off. *)
Definition bare : string -> Value := fun _ => VUndefined.

(** [volume: from 1 to 0], a property whose component the reference host
    does not know. *)
Definition fade_volume : Data :=
  {| delay := 0; dir := ""; dur := 1000; easing := "easeInQuad";
     elasticity := 400; from := "1"; loop := LoopInt 0;
     property := "volume";
     startEvents := []; pauseEvents := []; resumeEvents := [];
     restartEvents := []; to := "0" |}.

(** The registered listeners as pairs of event name and handler. *)
Definition registrations (w : World) : list (string * Handler) :=
  map (fun l => (lname l, lhandler l)) (listeners (el w)).

(** ** The rest of the schema: [loop.parse] *)

(** The white space [parseInt] skips, among the one-byte characters. *)
Definition is_space (c : ascii) : bool :=
  let n := nat_of_ascii c in
  (n =? 32)%nat || ((9 <=? n)%nat && (n <=? 13)%nat).

Fixpoint skip_spaces (s : string) : string :=
  match s with
  | EmptyString => EmptyString
  | String c r => if is_space c then skip_spaces r else s
  end.

(** The value of the longest prefix of decimal digits, [None] when there
    is no digit; [acc] is what has been read so far. *)
Fixpoint leading_digits (s : string) (acc : option Z) : option Z :=
  match s with
  | EmptyString => acc
  | String c r =>
      match digit c with
      | Some k =>
          leading_digits r
            (Some (10 * (match acc with Some a => a | None => 0 end) + k))
      | None => acc
      end
  end.

(** [parseInt(value, 10)] on a string: leading white space and one sign
    are skipped, the digits that follow are read, whatever comes after
    them is ignored; [None] is NaN. The white space recognised is the
    one-byte kind, and integers are exact here, as JS numbers are up to
    fifteen digits. *)
Definition parseInt10 (value : string) : option Z :=
  match skip_spaces value with
  | String "-" r => option_map Z.opp (leading_digits r None)
  | String "+" r => leading_digits r None
  | t => leading_digits t None
  end.

(** [schema.loop.parse] (lines 34-39). *)
Definition loop_parse (value : string) : Loop :=
  if String.eqb value "true" then LoopBool true
  else if String.eqb value "false" then LoopBool false
  else match parseInt10 value with
       | Some n => LoopInt n
       | None => LoopNaN
       end.

(** Whether [s] consists of decimal digits only. *)
Fixpoint all_digits (s : string) : bool :=
  match s with
  | EmptyString => true
  | String c r =>
      match digit c with
      | Some _ => all_digits r
      | None => false
      end
  end.

(** [tail] is empty or starts with a character that is not a digit. *)
Definition stops_digits (tail : string) : Prop :=
  match tail with
  | EmptyString => True
  | String c _ => digit c = None
  end.

(** The integer a string of decimal digits denotes, by the place of each
    digit. *)
Fixpoint denotes (s : string) : Z :=
  match s with
  | EmptyString => 0
  | String c r =>
      (match digit c with Some k => k | None => 0 end)
      * 10 ^ Z.of_nat (String.length r) + denotes r
  end.

(** Whether the character [sep] occurs in [s]. *)
Fixpoint occurs (sep : ascii) (s : string) : bool :=
  match s with
  | EmptyString => false
  | String c r => Ascii.eqb c sep || occurs sep r
  end.

(** The component a property path names: the entity's own, else the one
    registered globally. *)
Definition component_named (G : Globals) (e : Element) (name : string)
  : Lookup :=
  match components e name with
  | Missing => registered G name
  | c => c
  end.

(** ** Further observations *)

(** [m] keeps [P] once it holds. *)
Definition preserves (P : World -> Prop) {A : Type} (m : M A) : Prop :=
  forall w, P w -> P (after (m w)).

(** [m] never throws. *)
Definition total {A : Type} (m : M A) : Prop :=
  forall w, returned (m w) = true.

(** Whether [handler] is registered on the entity for the event [name]. *)
Definition registered_for (name : string) (h : Handler) (w : World) : bool :=
  existsb (same_listener name h) (listeners (el w)).

(** The triggers of a configuration: each event name of the four lists
    with the method the component binds to it. *)
Definition triggers (d : Data) : list (string * Handler) :=
  map (fun n => (n, HBegin)) (startEvents d)
  ++ map (fun n => (n, HPause)) (pauseEvents d)
  ++ map (fun n => (n, HResume)) (resumeEvents d)
  ++ map (fun n => (n, HRestart)) (restartEvents d).

(** The accumulated times after each of the frame deltas [dts], starting
    from [t0]. *)
Fixpoint running_totals (t0 : Z) (dts : list Z) : list Z :=
  match dts with
  | [] => []
  | dt :: r => (t0 + dt) :: running_totals (t0 + dt) r
  end.

(** The host has not paused the component, and as long as no animation
    handle exists the component is not playing, has no listener and no
    timer. *)
Definition handle_ready (w : World) : Prop :=
  paused (this w) = false
  /\ (animation (this w) = None ->
      animationIsPlaying (this w) = false
      /\ listeners (el w) = []
      /\ timers w = []).

Definition not_pause (s : Stimulus) : Prop :=
  match s with
  | Pause => False
  | _ => True
  end.

(** The host calls that do not take listeners off: all but [pause] and
    [remove]. *)
Definition not_detaching (s : Stimulus) : Prop :=
  match s with
  | Pause | Remove => False
  | _ => True
  end.

(** The host calls that leave the parameters as they are. *)
Definition not_update (s : Stimulus) : Prop :=
  match s with
  | Update _ => False
  | _ => True
  end.

(** Whether every call of the run returns. *)
Fixpoint returns_throughout (ss : list Stimulus) (w : World) : bool :=
  match ss with
  | [] => true
  | s :: r => returned (handle s w)
              && returns_throughout r (after (handle s w))
  end.

(** Frames and clock advances: the stimuli that carry no parameter change,
    no host pause or play and no event. *)
Definition passes_time (s : Stimulus) : Prop :=
  match s with
  | Tick _ _ | Elapse _ => True
  | _ => False
  end.



(** Whether every call of the run other than a parameter change
    returns. *)
Fixpoint only_updates_throw (ss : list Stimulus) (w : World) : bool :=
  match ss with
  | [] => true
  | s :: r =>
      (match s with
       | Update _ => true
       | _ => returned (handle s w)
       end)
      && only_updates_throw r (after (handle s w))
  end.

(** * Properties *)

(** ** What a call keeps true *)

Section Preserve.

Context (P : World -> Prop).

Lemma preserves_ret {A : Type} (a : A) : preserves P (ret a).
Proof. intros w H. exact H. Qed.

Lemma preserves_read {A : Type} (f : World -> A) : preserves P (read f).
Proof. intros w H. exact H. Qed.

Lemma preserves_throw {A : Type} (e : Error) : preserves P (@throw A e).
Proof. intros w H. exact H. Qed.

Lemma preserves_modify (f : World -> World) :
  (forall w, P w -> P (f w)) -> preserves P (modify f).
Proof. intros H w Hw. apply H. exact Hw. Qed.

Lemma preserves_bind {A B : Type} (m : M A) (k : A -> M B) :
  preserves P m -> (forall a, preserves P (k a)) -> preserves P (bind m k).
Proof.
  intros Hm Hk w Hw. unfold bind.
  specialize (Hm w Hw).
  destruct (m w) as [a w'|e w']; simpl in *.
  - apply Hk. exact Hm.
  - exact Hm.
Qed.

Lemma preserves_if {A : Type} (b : bool) (m1 m2 : M A) :
  preserves P m1 -> preserves P m2 -> preserves P (if b then m1 else m2).
Proof. destruct b; auto. Qed.

Lemma preserves_for_each {A : Type} (f : A -> M unit) (l : list A) :
  (forall a, preserves P (f a)) -> preserves P (for_each f l).
Proof.
  intro H. induction l as [|a r IH]; simpl.
  - apply preserves_ret.
  - apply preserves_bind; auto.
Qed.

Lemma preserves_swallow (m : M unit) :
  preserves P m -> preserves P (swallow m).
Proof. intros H w Hw. apply H. exact Hw. Qed.

Lemma preserves_typeOfProperty : preserves P Methods.typeOfProperty.
Proof.
  intros w H. unfold Methods.typeOfProperty.
  destruct (getPropertyType _ _ _); exact H.
Qed.

Lemma preserves_readProperty : preserves P Methods.readProperty.
Proof.
  intros w H. unfold Methods.readProperty.
  destruct (getComponentProperty_throws _ _); exact H.
Qed.

Lemma preserves_anime (c : Config) :
  (forall w, P w -> P (with_handed (fun l => l ++ [c]) w)) ->
  preserves P (anime c).
Proof.
  intros H w Hw. unfold anime.
  destruct (accepts _ _); apply H; exact Hw.
Qed.

(** Lines 208-209 taken together. *)
Lemma preserves_rewire {A : Type} (k : M A) :
  (forall w, P w -> P (wired w)) ->
  preserves P k ->
  preserves P (Methods.removeEventListeners ;;
               Methods.addEventListeners ;; k).
Proof.
  intros H Hk w Hw. unfold bind.
  change (Methods.removeEventListeners w)
    with (Returned tt (after (Methods.removeEventListeners w))).
  cbv iota.
  change (Methods.addEventListeners (after (Methods.removeEventListeners w)))
    with (Returned tt (wired w)).
  cbv iota. apply Hk. apply H. exact Hw.
Qed.

Lemma preserves_dispatch (call : Handler -> M unit) (name : string) :
  (forall h, preserves P (call h)) -> preserves P (dispatch_with call name).
Proof.
  intro H. unfold dispatch_with.
  apply preserves_bind; [apply preserves_read|intro].
  apply preserves_for_each; intro.
  apply preserves_bind; [apply preserves_read|intro].
  apply preserves_if; [|apply preserves_ret].
  apply preserves_swallow. apply H.
Qed.

End Preserve.

Lemma keeps_of_preserves {X A : Type} (proj : World -> X) (m : M A) :
  (forall x, preserves (fun u => proj u = x) m) -> keeps proj m.
Proof. intros H w. apply (H (proj w) w). reflexivity. Qed.

(** [side] proves that a field update keeps the property; a call of
    [emit] is closed by what is known of it. *)
Ltac preserving side :=
  repeat first
    [ match goal with
      | H : forall n d, preserves _ (?E n d) |- preserves _ (?E _ _) =>
          apply H
      end
    | apply preserves_rewire; [side|]
    | apply preserves_bind; [|intro]
    | apply preserves_ret
    | apply preserves_read
    | apply preserves_throw
    | apply preserves_typeOfProperty
    | apply preserves_readProperty
    | apply preserves_anime; side
    | apply preserves_modify; side
    | match goal with
      | |- preserves _ (if _ then _ else _) => apply preserves_if
      | |- preserves _ (for_each _ _) => apply preserves_for_each; intro
      | |- preserves _ (swallow _) => apply preserves_swallow
      end
    | match goal with
      | |- preserves _ (match ?x with _ => _ end) => destruct x
      end
    | progress cbv zeta ].

Ltac open_methods :=
  unfold Animation.update, Animation.tick, Animation.pause, Animation.play,
    Animation.remove, Animation.invoke, Animation.restartAnimation,
    Animation.createAndStartAnimation, Animation.beginAnimation,
    Animation.pauseAnimation, Animation.resumeAnimation,
    Animation.addEventListeners, Animation.removeEventListeners,
    Methods.update, Methods.tick, Methods.pause, Methods.play,
    Methods.remove, Methods.invoke, Methods.restartAnimation,
    Methods.createAndStartAnimation, Methods.updateConfigForVector,
    Methods.updateConfigForDefault, Methods.removeEventListeners,
    Methods.addEventListeners, Methods.beginAnimation,
    Methods.pauseAnimation, Methods.resumeAnimation, Methods.run_update,
    Methods.run_complete, setTimeout.

(** A property that every field update of the handlers keeps is kept by
    [emit], by every method and by every host call. [side] is the proof
    for the field updates. *)
Ltac by_handlers side :=
  open_methods; preserving side.

Section Handlers.

Context (P : World -> Prop).

(** What has to be known of [P]: every method keeps it, provided [emit]
    does. *)
Hypothesis invoke_P :
  forall E : string -> string -> M unit,
    (forall n d, preserves P (E n d)) ->
    forall h, preserves P (Methods.invoke E h).

Hypothesis logged_P :
  forall w n d, P w -> P (with_el (logged n d) w).

Lemma emit_at_preserves (depth : nat) :
  forall name detail, preserves P (emit_at depth name detail).
Proof.
  induction depth as [|k IH]; intros name detail; cbn [emit_at].
  - apply preserves_bind; [apply preserves_modify; intros; apply logged_P;
                           assumption|intro].
    apply preserves_dispatch. intro h. apply preserves_ret.
  - apply preserves_bind; [apply preserves_modify; intros; apply logged_P;
                           assumption|intro].
    apply preserves_dispatch. intro h. apply invoke_P. exact IH.
Qed.

Lemma emit_preserves (name detail : string) :
  preserves P (emit name detail).
Proof. intros w Hw. unfold emit. apply emit_at_preserves. exact Hw. Qed.

Lemma invoke_preserves (h : Handler) : preserves P (Animation.invoke h).
Proof. apply invoke_P. exact emit_preserves. Qed.

Lemma beginAnimation_preserves : preserves P Animation.beginAnimation.
Proof. exact (invoke_preserves HBegin). Qed.

End Handlers.

(** A property of the fields that the handlers do not write is kept by
    every method. *)
Ltac untouched :=
  intros; first [assumption | solve [auto]].

Ltac handlers_keep side :=
  intros E HE h; destruct h; by_handlers side.

(** Every host call other than a frame: [side] closes the field updates,
    [HE] is what is known of [emit]. *)
Ltac by_stimulus side :=
  simpl handle; unfold updateProperties, dispatchEvent, elapse;
  try (apply preserves_dispatch; intro);
  by_handlers side.

(** *** Elapsed time *)

Lemma invoke_keeps_time (x : Z) :
  forall E : string -> string -> M unit,
    (forall n d, preserves (fun u => time (this u) = x) (E n d)) ->
    forall h, preserves (fun u => time (this u) = x) (Methods.invoke E h).
Proof. handlers_keep untouched. Qed.

Lemma handle_keeps_time (s : Stimulus) :
  (forall t dt, s <> Tick t dt) ->
  keeps (fun w => time (this w)) (handle s).
Proof.
  intro H. apply keeps_of_preserves. intro x.
  pose proof (emit_preserves _ (invoke_keeps_time x)
                ltac:(untouched)) as HE.
  fold Animation.invoke.
  destruct s; try (exfalso; eapply H; reflexivity);
    by_stimulus untouched.
Qed.

Lemma tick_playing (t dt : Z) (w : World) :
  animationIsPlaying (this w) = true ->
  time (this (after (Animation.tick t dt w))) = time (this w) + dt.
Proof.
  intro H. unfold Animation.tick, Methods.tick.
  unfold bind at 1. unfold read at 1. rewrite H. cbn [negb].
  unfold bind at 1. unfold modify at 1.
  set (w1 := with_this _ w).
  change (time (this w) + dt) with (time (this w1)).
  generalize w1. clear. intro w.
  pose proof (emit_preserves _ (invoke_keeps_time (time (this w)))
                ltac:(untouched)) as HE.
  match goal with
  | |- time (this (after (?m w))) = _ =>
      cut (preserves (fun u => time (this u) = time (this w)) m)
  end.
  - intro K. apply K. reflexivity.
  - by_handlers untouched.
Qed.

Lemma tick_not_playing (t dt : Z) (w : World) :
  animationIsPlaying (this w) = false ->
  Animation.tick t dt w = Returned tt w.
Proof.
  intro H. unfold Animation.tick, Methods.tick, bind, read.
  rewrite H. reflexivity.
Qed.

Lemma step_time_le (s : Stimulus) (w : World) :
  frame_delta_ok s -> time (this w) <= time (this (step w s)).
Proof.
  intro H. destruct s as [d|t dt| | | |name|ms|p];
    try (unfold step; rewrite handle_keeps_time; [lia|discriminate]).
  unfold step; simpl in *.
  destruct (animationIsPlaying (this w)) eqn:E.
  - rewrite tick_playing by exact E. lia.
  - rewrite tick_not_playing by exact E. simpl. lia.
Qed.

Lemma run_cons (s : Stimulus) (r : list Stimulus) (w : World) :
  run (s :: r) w = run r (step w s).
Proof. reflexivity. Qed.

Lemma run_app (a b : list Stimulus) (w : World) :
  run (a ++ b) w = run b (run a w).
Proof. unfold run. apply fold_left_app. Qed.

Lemma run_time_le (ss : list Stimulus) :
  forall w, Forall frame_delta_ok ss ->
            time (this w) <= time (this (run ss w)).
Proof.
  induction ss as [|s r IH]; intros w H.
  - simpl. lia.
  - inversion H as [|? ? Hs Hr]; subst.
    rewrite run_cons.
    specialize (IH (step w s) Hr). pose proof (step_time_le s w Hs).
    lia.
Qed.

Lemma run_no_tick_time (ss : list Stimulus) :
  forall w, Forall not_tick ss -> time (this (run ss w)) = time (this w).
Proof.
  induction ss as [|s r IH]; intros w H.
  - reflexivity.
  - inversion H as [|? ? Hs Hr]; subst.
    rewrite run_cons.
    rewrite (IH _ Hr).
    unfold step. apply handle_keeps_time.
    intros t dt E. subst. exact Hs.
Qed.

Lemma run_frames_not_playing (l : list (Z * Z)) :
  forall w, animationIsPlaying (this w) = false -> run (frames l) w = w.
Proof.
  induction l as [|f r IH]; intros w H.
  - reflexivity.
  - change (run (frames (f :: r)) w)
      with (run (frames r) (step w (Tick (fst f) (snd f)))).
    unfold step. simpl handle. rewrite tick_not_playing by exact H.
    apply IH. exact H.
Qed.

(** C1. The elapsed-time counter [this.time] never decreases under any
    sequence of host calls whose frame deltas are non-negative; a tick
    adds the frame delta while [animationIsPlaying] holds and changes
    nothing while it does not; no call other than a tick changes it; and a
    pause followed by a resume, by trigger handlers or by the host, with
    any frames in between, leaves it as it was when paused. *)
Theorem C1_elapsed_time_monotone_and_frozen :
  forall (w : World) (ss : list Stimulus) (l : list (Z * Z)) (t dt : Z),
    Forall frame_delta_ok ss ->
    time (this w) <= time (this (run ss w))
    /\ (animationIsPlaying (this w) = true ->
        time (this (after (Animation.tick t dt w))) = time (this w) + dt)
    /\ (animationIsPlaying (this w) = false ->
        Animation.tick t dt w = Returned tt w)
    /\ (Forall not_tick ss -> time (this (run ss w)) = time (this w))
    /\ time (this (after (Animation.resumeAnimation
         (run (frames l) (after (Animation.pauseAnimation w))))))
       = time (this w)
    /\ time (this (after (Animation.play
         (run (frames l) (after (Animation.pause w))))))
       = time (this w).
Proof.
  intros w ss l t dt Hss.
  split; [apply run_time_le; exact Hss|].
  split; [apply tick_playing|].
  split; [apply tick_not_playing|].
  split; [apply run_no_tick_time|].
  split.
  - rewrite run_frames_not_playing by reflexivity. reflexivity.
  - rewrite run_frames_not_playing by reflexivity.
    pose proof (handle_keeps_time Play) as HPlay.
    pose proof (handle_keeps_time Pause) as HPause.
    unfold keeps in HPlay, HPause.
    change (handle Play) with Animation.play in HPlay.
    change (handle Pause) with Animation.pause in HPause.
    rewrite HPlay by discriminate. apply HPause. discriminate.
Qed.
(** ** Event wiring: the listener list *)

(** *** The listener list is the only part of the entity that wiring
    changes *)

Lemma addEventListeners_emitted (names : list string) (h : Handler) :
  forall e, emitted (addEventListeners e names h) = emitted e.
Proof.
  unfold addEventListeners.
  induction names as [|n r IH]; intro e; simpl.
  - reflexivity.
  - rewrite IH. unfold addEventListener.
    destruct (existsb _ _); reflexivity.
Qed.

Lemma removeEventListeners_emitted (names : list string) (h : Handler) :
  forall e, emitted (removeEventListeners e names h) = emitted e.
Proof.
  unfold removeEventListeners.
  induction names as [|n r IH]; intro e; simpl.
  - reflexivity.
  - rewrite IH. reflexivity.
Qed.

(** *** Wiring *)

Lemma addEventListener_registers (name : string) (h : Handler)
  (e : Element) :
  existsb (same_listener name h) (listeners (addEventListener name h e))
  = true.
Proof.
  unfold addEventListener.
  destruct (existsb (same_listener name h) (listeners e)) eqn:E.
  - exact E.
  - cbn [listeners set_listeners]. rewrite existsb_app. simpl.
    unfold same_listener. simpl. rewrite String.eqb_refl.
    destruct h; simpl; apply orb_true_r.
Qed.

Lemma addEventListener_keeps (n name : string) (h k : Handler)
  (e : Element) :
  existsb (same_listener name k) (listeners e) = true ->
  existsb (same_listener name k) (listeners (addEventListener n h e))
  = true.
Proof.
  intro H. unfold addEventListener.
  destruct (existsb (same_listener n h) (listeners e)).
  - exact H.
  - cbn [listeners set_listeners]. rewrite existsb_app, H. reflexivity.
Qed.

Lemma addEventListeners_keeps (names : list string) (name : string)
  (h k : Handler) :
  forall e,
    existsb (same_listener name k) (listeners e) = true ->
    existsb (same_listener name k) (listeners (addEventListeners e names h))
    = true.
Proof.
  unfold addEventListeners.
  induction names as [|n r IH]; intros e H; simpl.
  - exact H.
  - apply IH. apply addEventListener_keeps. exact H.
Qed.

Lemma addEventListeners_registers (names : list string) (name : string)
  (h : Handler) :
  forall e,
    In name names ->
    existsb (same_listener name h) (listeners (addEventListeners e names h))
    = true.
Proof.
  induction names as [|n r IH]; intros e H.
  - contradiction.
  - destruct H as [H|H].
    + subst n.
      change (addEventListeners e (name :: r) h)
        with (addEventListeners (addEventListener name h e) r h).
      apply addEventListeners_keeps. apply addEventListener_registers.
    + change (addEventListeners e (n :: r) h)
        with (addEventListeners (addEventListener n h e) r h).
      apply IH. exact H.
Qed.

Lemma removeEventListener_keeps (n name : string) (h k : Handler)
  (e : Element) :
  n <> name \/ h <> k ->
  existsb (same_listener name k) (listeners e) = true ->
  existsb (same_listener name k) (listeners (removeEventListener n h e))
  = true.
Proof.
  intros Hne H. unfold removeEventListener. cbn [listeners set_listeners].
  apply existsb_exists in H. destruct H as (l & Hin & Hl).
  apply existsb_exists. exists l. split; [|exact Hl].
  apply filter_In. split; [exact Hin|].
  apply negb_true_iff. unfold same_listener in *.
  apply andb_true_iff in Hl. destruct Hl as [Hn Hk].
  apply String.eqb_eq in Hn.
  destruct Hne as [Hne|Hne].
  - apply andb_false_iff. left. apply String.eqb_neq. congruence.
  - apply andb_false_iff. right.
    destruct (lhandler l), h, k; try reflexivity; try discriminate;
      exfalso; apply Hne; reflexivity.
Qed.

Lemma removeEventListeners_keeps (names : list string) (name : string)
  (h k : Handler) :
  forall e,
    ~ In name names \/ h <> k ->
    existsb (same_listener name k) (listeners e) = true ->
    existsb (same_listener name k)
      (listeners (removeEventListeners e names h)) = true.
Proof.
  unfold removeEventListeners.
  induction names as [|n r IH]; intros e Hne H; simpl.
  - exact H.
  - apply IH.
    + destruct Hne as [Hne|Hne]; [left|right; exact Hne].
      intro Hin. apply Hne. right. exact Hin.
    + apply removeEventListener_keeps; [|exact H].
      destruct Hne as [Hne|Hne]; [left|right; exact Hne].
      intro E. apply Hne. left. exact E.
Qed.

(** *** No duplicate registration *)

Lemma same_listener_pair (name : string) (h : Handler) (l : Listener) :
  same_listener name h l = true <-> (lname l, lhandler l) = (name, h).
Proof.
  unfold same_listener. rewrite andb_true_iff, String.eqb_eq. split.
  - intros [Hn Hh]. rewrite Hn. f_equal.
    destruct (lhandler l), h; try discriminate; reflexivity.
  - intro E. inversion E; subst. split; [reflexivity|].
    destruct (lhandler l); reflexivity.
Qed.

Lemma not_registered_not_in (name : string) (h : Handler)
  (ls : list Listener) :
  existsb (same_listener name h) ls = false ->
  ~ In (name, h) (map (fun l => (lname l, lhandler l)) ls).
Proof.
  intros E Hin. apply in_map_iff in Hin. destruct Hin as (l & Hl & Hin).
  assert (Ht : existsb (same_listener name h) ls = true).
  { apply existsb_exists. exists l. split; [exact Hin|].
    apply same_listener_pair. exact Hl. }
  congruence.
Qed.

Lemma NoDup_snoc {A : Type} (l : list A) (x : A) :
  NoDup l -> ~ In x l -> NoDup (l ++ [x]).
Proof.
  induction l as [|a r IH]; intros Hl Hx; simpl.
  - constructor; [intros []|constructor].
  - inversion Hl as [|? ? Ha Hr]; subst. constructor.
    + intro Hin. apply in_app_or in Hin. destruct Hin as [Hin|[E|[]]].
      * contradiction.
      * subst. apply Hx. left. reflexivity.
    + apply IH; [exact Hr|]. intro Hin. apply Hx. right. exact Hin.
Qed.

Lemma filtered_listeners_NoDup (keep : Listener -> bool)
  (ls : list Listener) :
  NoDup (map (fun l => (lname l, lhandler l)) ls) ->
  NoDup (map (fun l => (lname l, lhandler l)) (filter keep ls)).
Proof.
  induction ls as [|a r IH]; intro H; simpl.
  - constructor.
  - inversion H as [|? ? Ha Hr]; subst.
    destruct (keep a); simpl; [|auto].
    constructor; [|auto].
    intro Hin. apply Ha. apply in_map_iff in Hin.
    destruct Hin as (x & Hx & Hin). apply filter_In in Hin.
    apply in_map_iff. exists x. tauto.
Qed.

Lemma addEventListener_NoDup (name : string) (h : Handler) (e : Element) :
  NoDup (map (fun l => (lname l, lhandler l)) (listeners e)) ->
  NoDup (map (fun l => (lname l, lhandler l))
           (listeners (addEventListener name h e))).
Proof.
  intro H. unfold addEventListener.
  destruct (existsb (same_listener name h) (listeners e)) eqn:E.
  - exact H.
  - cbn [listeners set_listeners]. rewrite map_app. cbn [map lname lhandler].
    apply NoDup_snoc; [exact H|].
    apply not_registered_not_in. exact E.
Qed.

Lemma removeEventListener_NoDup (name : string) (h : Handler)
  (e : Element) :
  NoDup (map (fun l => (lname l, lhandler l)) (listeners e)) ->
  NoDup (map (fun l => (lname l, lhandler l))
           (listeners (removeEventListener name h e))).
Proof.
  intro H. unfold removeEventListener. cbn [listeners set_listeners].
  apply filtered_listeners_NoDup. exact H.
Qed.

Lemma addEventListeners_NoDup (names : list string) (h : Handler) :
  forall e,
    NoDup (map (fun l => (lname l, lhandler l)) (listeners e)) ->
    NoDup (map (fun l => (lname l, lhandler l))
             (listeners (addEventListeners e names h))).
Proof.
  unfold addEventListeners.
  induction names as [|n r IH]; intros e H; simpl.
  - exact H.
  - apply IH. apply addEventListener_NoDup. exact H.
Qed.

Lemma removeEventListeners_NoDup (names : list string) (h : Handler) :
  forall e,
    NoDup (map (fun l => (lname l, lhandler l)) (listeners e)) ->
    NoDup (map (fun l => (lname l, lhandler l))
             (listeners (removeEventListeners e names h))).
Proof.
  unfold removeEventListeners.
  induction names as [|n r IH]; intros e H; simpl.
  - exact H.
  - apply IH. apply removeEventListener_NoDup. exact H.
Qed.

(** *** Detaching and attaching the triggers *)

Lemma removeEventListener_unregisters (name : string) (h : Handler)
  (e : Element) :
  existsb (same_listener name h) (listeners (removeEventListener name h e))
  = false.
Proof.
  unfold removeEventListener. cbn [listeners set_listeners].
  induction (listeners e) as [|l r IH]; simpl.
  - reflexivity.
  - destruct (same_listener name h l) eqn:E; simpl.
    + exact IH.
    + rewrite E. exact IH.
Qed.

Lemma removeEventListener_keeps_absent (n name : string) (h k : Handler)
  (e : Element) :
  existsb (same_listener name k) (listeners e) = false ->
  existsb (same_listener name k) (listeners (removeEventListener n h e))
  = false.
Proof.
  unfold removeEventListener. cbn [listeners set_listeners].
  induction (listeners e) as [|l r IH]; simpl; intro H.
  - reflexivity.
  - apply orb_false_iff in H. destruct H as [H1 H2].
    destruct (negb (same_listener n h l)); simpl.
    + rewrite H1. apply IH. exact H2.
    + apply IH. exact H2.
Qed.

Lemma removeEventListeners_keeps_absent (names : list string)
  (name : string) (h k : Handler) :
  forall e,
    existsb (same_listener name k) (listeners e) = false ->
    existsb (same_listener name k)
      (listeners (removeEventListeners e names h)) = false.
Proof.
  unfold removeEventListeners.
  induction names as [|n r IH]; intros e H; simpl.
  - exact H.
  - apply IH. apply removeEventListener_keeps_absent. exact H.
Qed.

Lemma removeEventListeners_unregisters (names : list string)
  (name : string) (h : Handler) :
  forall e,
    In name names ->
    existsb (same_listener name h)
      (listeners (removeEventListeners e names h)) = false.
Proof.
  induction names as [|n r IH]; intros e H.
  - contradiction.
  - change (removeEventListeners e (n :: r) h)
      with (removeEventListeners (removeEventListener n h e) r h).
    destruct H as [H|H].
    + subst n. apply removeEventListeners_keeps_absent.
      apply removeEventListener_unregisters.
    + apply IH. exact H.
Qed.

Lemma in_triggers (d : Data) (name : string) (h : Handler) :
  In (name, h) (triggers d) <->
  In name (match h with
           | HBegin => startEvents d
           | HPause => pauseEvents d
           | HResume => resumeEvents d
           | HRestart => restartEvents d
           end).
Proof.
  unfold triggers. rewrite !in_app_iff, !in_map_iff. split.
  - intros [H|[H|[H|H]]]; destruct H as (n & E & Hin);
      inversion E; subst; exact Hin.
  - intro H. destruct h.
    + left. exists name. auto.
    + right; left. exists name. auto.
    + right; right; left. exists name. auto.
    + right; right; right. exists name. auto.
Qed.

Lemma detaching_unregisters (w : World) (name : string) (h : Handler) :
  In (name, h) (triggers (data (this w))) ->
  registered_for name h (after (Animation.removeEventListeners w)) = false.
Proof.
  intro H. apply in_triggers in H.
  unfold registered_for, Animation.removeEventListeners,
    Methods.removeEventListeners, modify.
  cbn [after el with_el]. destruct h.
  - do 3 apply removeEventListeners_keeps_absent.
    apply removeEventListeners_unregisters. exact H.
  - do 2 apply removeEventListeners_keeps_absent.
    apply removeEventListeners_unregisters. exact H.
  - apply removeEventListeners_keeps_absent.
    apply removeEventListeners_unregisters. exact H.
  - apply removeEventListeners_unregisters. exact H.
Qed.

Lemma attaching_registers (w : World) (name : string) (h : Handler) :
  In (name, h) (triggers (data (this w))) ->
  registered_for name h (after (Animation.addEventListeners w)) = true.
Proof.
  intro H. apply in_triggers in H.
  unfold registered_for, Animation.addEventListeners,
    Methods.addEventListeners, modify.
  cbn [after el with_el]. destruct h.
  - do 3 apply addEventListeners_keeps.
    apply addEventListeners_registers. exact H.
  - do 2 apply addEventListeners_keeps.
    apply addEventListeners_registers. exact H.
  - apply addEventListeners_keeps.
    apply addEventListeners_registers. exact H.
  - apply addEventListeners_registers. exact H.
Qed.

Lemma removeEventListeners_keeps_other (w : World) (name : string)
  (k : Handler) :
  ~ In (name, k) (triggers (data (this w))) ->
  registered_for name k w = true ->
  registered_for name k (after (Animation.removeEventListeners w)) = true.
Proof.
  intros Hn H. unfold registered_for, Animation.removeEventListeners,
    Methods.removeEventListeners, modify.
  cbn [after el with_el]. cbv zeta.
  rewrite in_triggers in Hn.
  destruct k; cbn in Hn;
    repeat (apply removeEventListeners_keeps;
            [first [left; exact Hn | right; discriminate]|]);
    exact H.
Qed.

Lemma addEventListeners_keeps_all (w : World) (name : string)
  (k : Handler) :
  registered_for name k w = true ->
  registered_for name k (after (Animation.addEventListeners w)) = true.
Proof.
  intro H. unfold registered_for, Animation.addEventListeners,
    Methods.addEventListeners, modify.
  cbn [after el with_el]. cbv zeta.
  do 4 apply addEventListeners_keeps. exact H.
Qed.

(** ** Events the configuration does not name *)

Lemma addEventListeners_names (names : list string) (h : Handler) :
  forall (e : Element) (l : Listener),
    In l (listeners (addEventListeners e names h)) ->
    In l (listeners e) \/ In (lname l) names.
Proof.
  unfold addEventListeners.
  induction names as [|n r IH]; intros e l H; simpl in H.
  - left. exact H.
  - destruct (IH _ _ H) as [H1|H1].
    + unfold addEventListener in H1.
      destruct (existsb (same_listener n h) (listeners e)).
      * left. exact H1.
      * cbn [listeners set_listeners] in H1. apply in_app_or in H1.
        destruct H1 as [H1|[H1|[]]].
        -- left. exact H1.
        -- right. left. subst l. reflexivity.
    + right. right. exact H1.
Qed.

Lemma attaching_names (w : World) (l : Listener) :
  In l (listeners (el (after (Animation.addEventListeners w)))) ->
  In l (listeners (el w)) \/ In (lname l) (event_names (data (this w))).
Proof.
  unfold Animation.addEventListeners, Methods.addEventListeners, modify,
    event_names.
  cbn [after el with_el]. cbv zeta. intro H.
  apply addEventListeners_names in H. destruct H as [H|H];
    [|right; rewrite !in_app_iff; tauto].
  apply addEventListeners_names in H. destruct H as [H|H];
    [|right; rewrite !in_app_iff; tauto].
  apply addEventListeners_names in H. destruct H as [H|H];
    [|right; rewrite !in_app_iff; tauto].
  apply addEventListeners_names in H. destruct H as [H|H];
    [left; exact H|right; rewrite !in_app_iff; tauto].
Qed.

Lemma removeEventListeners_nil (names : list string) (h : Handler) :
  forall e, listeners e = [] ->
            listeners (removeEventListeners e names h) = [].
Proof.
  unfold removeEventListeners.
  induction names as [|n r IH]; intros e H; simpl.
  - exact H.
  - apply IH. unfold removeEventListener. cbn [listeners set_listeners].
    rewrite H. reflexivity.
Qed.

Lemma detaching_nil (w : World) :
  listeners (el w) = [] ->
  listeners (el (after (Animation.removeEventListeners w))) = [].
Proof.
  intro H. unfold Animation.removeEventListeners,
    Methods.removeEventListeners, modify.
  cbn [after el with_el]. cbv zeta.
  do 4 apply removeEventListeners_nil. exact H.
Qed.

(** *** Triggers *)

Lemma begins_app (l1 l2 : list Notification) :
  begins (l1 ++ l2) = (begins l1 + begins l2)%nat.
Proof. unfold begins. rewrite filter_app. apply List.length_app. Qed.


Lemma run_preserves (P : World -> Prop) :
  (forall s, preserves P (handle s)) ->
  forall ss w, P w -> P (run ss w).
Proof.
  intros H ss. induction ss as [|s r IH]; intros w Hw.
  - exact Hw.
  - rewrite run_cons. apply IH. apply H. exact Hw.
Qed.

(** ** Calls that always return *)

Lemma total_ret {A : Type} (a : A) : total (ret a).
Proof. intro w. reflexivity. Qed.

Lemma total_read {A : Type} (f : World -> A) : total (read f).
Proof. intro w. reflexivity. Qed.

Lemma total_modify (f : World -> World) : total (modify f).
Proof. intro w. reflexivity. Qed.

Lemma total_bind {A B : Type} (m : M A) (k : A -> M B) :
  total m -> (forall a, total (k a)) -> total (bind m k).
Proof.
  intros Hm Hk w. unfold bind. specialize (Hm w).
  destruct (m w) as [a w'|e w']; simpl in *.
  - apply Hk.
  - discriminate.
Qed.

Lemma total_if {A : Type} (b : bool) (m1 m2 : M A) :
  total m1 -> total m2 -> total (if b then m1 else m2).
Proof. destruct b; auto. Qed.

Lemma total_for_each {A : Type} (f : A -> M unit) (l : list A) :
  (forall a, total (f a)) -> total (for_each f l).
Proof.
  intro H. induction l as [|a r IH]; simpl.
  - apply total_ret.
  - apply total_bind; auto.
Qed.

Lemma total_swallow (m : M unit) : total (swallow m).
Proof. intro w. reflexivity. Qed.

Ltac totality :=
  repeat first
    [ apply total_bind; [|intro]
    | apply total_ret
    | apply total_read
    | apply total_modify
    | apply total_swallow
    | match goal with
      | |- total (if _ then _ else _) => apply total_if
      | |- total (for_each _ _) => apply total_for_each; intro
      | |- total (match ?x with _ => _ end) => destruct x
      end ].

(** A dispatch never throws, whatever the listeners do. *)
Lemma dispatch_total (call : Handler -> M unit) (name : string) :
  total (dispatch_with call name).
Proof. unfold dispatch_with. totality. Qed.

Lemma emit_total (name detail : string) : total (emit name detail).
Proof.
  intro w. unfold emit. destruct (stack w); cbn [emit_at];
    (apply total_bind; [apply total_modify|intro; apply dispatch_total]).
Qed.

Lemma beginAnimation_total : total Animation.beginAnimation.
Proof.
  unfold Animation.beginAnimation, Methods.beginAnimation.
  apply total_bind; [apply total_modify|intro].
  apply total_bind; [apply total_read|intro].
  apply emit_total.
Qed.

Lemma dispatchEvent_total (name : string) : total (dispatchEvent name).
Proof. apply dispatch_total. Qed.

Lemma elapse_total (ms : Z) : total (elapse ms).
Proof. unfold elapse. totality. Qed.

Lemma play_total : total Animation.play.
Proof.
  unfold Animation.play, Methods.play, Methods.resumeAnimation,
    Methods.addEventListeners. totality.
Qed.

Lemma remove_total : total Animation.remove.
Proof.
  unfold Animation.remove, Methods.remove, Methods.pauseAnimation,
    Methods.removeEventListeners. totality.
Qed.

(** ** A notification nobody listens to *)

Lemma filter_nil_of_existsb {A : Type} (p : A -> bool) (l : list A) :
  existsb p l = false -> filter p l = [].
Proof.
  induction l as [|a r IH]; simpl; intro H.
  - reflexivity.
  - apply orb_false_iff in H. destruct H as [Ha Hr].
    rewrite Ha. apply IH. exact Hr.
Qed.

Lemma dispatch_unheard (call : Handler -> M unit) (name : string)
  (w : World) :
  hears name w = false ->
  dispatch_with call name w = Returned tt w.
Proof.
  intro H. unfold dispatch_with, bind, read.
  unfold hears in H. rewrite (filter_nil_of_existsb _ _ H). reflexivity.
Qed.

Lemma emit_unheard (name detail : string) (w : World) :
  hears name w = false ->
  emit name detail w = Returned tt (with_el (logged name detail) w).
Proof.
  intro H. unfold emit.
  destruct (stack w); cbn [emit_at]; unfold bind at 1; unfold modify at 1;
    apply dispatch_unheard; exact H.
Qed.

Lemma beginAnimation_unheard (w : World) :
  hears "animationbegin" w = false ->
  Animation.beginAnimation w = Returned tt (begun w).
Proof.
  intro H. unfold Animation.beginAnimation, Methods.beginAnimation.
  unfold bind at 1. unfold modify at 1. unfold bind at 1. unfold read at 1.
  apply emit_unheard. exact H.
Qed.

Lemma dispatchEvent_unheard (name : string) (w : World) :
  hears name w = false -> dispatchEvent name w = Returned tt w.
Proof. apply dispatch_unheard. Qed.

(** ** The rebuild, step by step *)

Lemma createAndStartAnimation_eq (E : string -> string -> M unit)
  (r : bool) (w : World) :
  Methods.createAndStartAnimation E r w
  = match configure w with
    | Thrown e w' => Thrown e w'
    | Returned _ w1 =>
        let g := config (this w1) in
        let w2 := with_handed (fun l => l ++ [g])
                    (with_this (set_animationIsPlaying false) w1) in
        if accepts (animejs w1) g then
          let w3 := wired (with_this (set_animation (Some g)) w2) in
          let d := data (this w1) in
          if starts_later r d then
            Returned tt
              (with_timers
                 (fun ts => ts ++ [clock w1 + Z.max 0 (to_int32 (delay d))])
                 w3)
          else if starts_now r d then Methods.beginAnimation E w3
          else Returned tt w3
        else Thrown EngineError w2
    end.
Proof.
  unfold Methods.createAndStartAnimation, configure, bind.
  destruct (Methods.typeOfProperty w) as [pt w0|e w0]; [|reflexivity].
  destruct ((if is_vector_type pt then Methods.updateConfigForVector
             else Methods.updateConfigForDefault) w0) as [[] w1|e w1];
    [|reflexivity].
  unfold modify at 1. unfold read at 1. unfold anime at 1.
  cbn [animejs with_this config this set_animationIsPlaying].
  destruct (accepts (animejs w1) (config (this w1))); [|reflexivity].
  unfold starts_later, starts_now, setTimeout, wired,
    Methods.removeEventListeners, Methods.addEventListeners, modify, read.
  cbn [after data this with_this with_el with_handed set_animation
       set_animationIsPlaying clock].
  destruct r, (delay (data (this w1)) =? 0),
    (List.length (startEvents (data (this w1))) =? 0)%nat; reflexivity.
Qed.

Lemma configure_returns (w : World) :
  unresolvable w = false ->
  configure w
  = Returned tt
      (with_this (fun c => set_config (resolved w (config c)) c) w).
Proof.
  unfold unresolvable, resolved, configure, Methods.typeOfProperty,
    Methods.updateConfigForVector, Methods.updateConfigForDefault,
    Methods.readProperty, getComponentProperty.
  cbv zeta. unfold bind at 1.
  destruct (getPropertyType (AFRAME w) (el w) (property (data (this w))))
    as [t|]; [|discriminate].
  destruct (is_vector_type (Some t));
    unfold bind, read, ret, modify, throw;
    destruct (truthy (from (data (this w)))); cbn [negb andb orb];
    try (intros _; destruct (String.eqb (property (data (this w))) "rotation");
         reflexivity);
    destruct (getComponentProperty_throws (el w) (property (data (this w))));
    cbn [orb]; try discriminate; try (intros _; reflexivity).
  destruct (String.eqb (property (data (this w))) "rotation");
    cbn [andb]; [|intros _; reflexivity].
  destruct (properties (el w) (property (data (this w)))); try discriminate;
    intros _; reflexivity.
Qed.

Lemma configure_throws (w : World) :
  unresolvable w = true -> exists e, configure w = Thrown e w.
Proof.
  unfold unresolvable, configure, Methods.typeOfProperty,
    Methods.updateConfigForVector, Methods.updateConfigForDefault,
    Methods.readProperty, getComponentProperty.
  cbv zeta. unfold bind at 1.
  destruct (getPropertyType (AFRAME w) (el w) (property (data (this w))))
    as [t|]; [|intros _; eexists; reflexivity].
  destruct (is_vector_type (Some t));
    unfold bind, read, ret, modify, throw;
    destruct (truthy (from (data (this w)))); cbn [negb andb orb];
    try discriminate;
    destruct (getComponentProperty_throws (el w) (property (data (this w))));
    cbn [orb]; try discriminate; try (intros _; eexists; reflexivity).
  destruct (String.eqb (property (data (this w))) "rotation");
    cbn [andb]; [|discriminate].
  destruct (properties (el w) (property (data (this w)))); try discriminate;
    intros _; eexists; reflexivity.
Qed.

Lemma same_setting_refl (w : World) : same_setting w w.
Proof. repeat split. Qed.

Lemma getPropertyType_setting (w u : World) :
  same_setting w u ->
  getPropertyType (AFRAME u) (el u) (property (data (this u)))
  = getPropertyType (AFRAME w) (el w) (property (data (this w))).
Proof.
  intros (A1 & A2 & A3 & A4 & A5). unfold getPropertyType.
  rewrite A1, A3, A5. reflexivity.
Qed.

Lemma unresolvable_setting (w u : World) :
  same_setting w u -> unresolvable u = unresolvable w.
Proof.
  intro H. unfold unresolvable. cbv zeta.
  rewrite (getPropertyType_setting w u H).
  destruct H as (A1 & A2 & A3 & A4 & A5).
  unfold getComponentProperty_throws, getComponentProperty.
  rewrite A4, A5. reflexivity.
Qed.

Lemma resolved_setting (w u : World) (g : Config) :
  same_setting w u -> resolved u g = resolved w g.
Proof.
  intro H. unfold resolved. cbv zeta.
  rewrite (getPropertyType_setting w u H).
  destruct H as (A1 & A2 & A3 & A4 & A5).
  unfold getComponentProperty.
  rewrite A1, A4, A5. reflexivity.
Qed.

Lemma resolved_idempotent (w : World) (g : Config) :
  resolved w (resolved w g) = resolved w g.
Proof.
  unfold resolved. cbv zeta.
  destruct (is_vector_type _).
  - unfold set_vector. cbn.
    destruct (vw _); reflexivity.
  - reflexivity.
Qed.
(** ** The rebuild when it returns *)

Lemma truthy_true (s : string) : s <> ""%string -> truthy s = true.
Proof.
  intro H. unfold truthy. apply negb_true_iff. apply String.eqb_neq.
  exact H.
Qed.

Lemma updateProperties_rebuilds (d : Data) (w : World) :
  property d <> ""%string ->
  updateProperties d w
  = Animation.createAndStartAnimation false (reconfigured d w).
Proof.
  intro H. unfold updateProperties, Animation.update, Methods.update,
    Methods.pauseAnimation, reconfigured.
  unfold bind at 1 2 3 4 5. unfold modify at 1 2 3 4. unfold read at 1.
  cbn [this with_this data set_data set_animationIsPlaying].
  rewrite (truthy_true _ H). reflexivity.
Qed.

Lemma updateProperties_empty (d : Data) (w : World) :
  property d = ""%string ->
  updateProperties d w
  = Returned tt
      (with_this (set_animationIsPlaying false) (with_this (set_data d) w)).
Proof.
  intro H. unfold updateProperties, Animation.update, Methods.update,
    bind, modify, read.
  cbn [this with_this data set_data set_animationIsPlaying].
  rewrite H. reflexivity.
Qed.

(** A rebuild returns exactly when the configuration can be resolved and
    the engine accepts it. *)
Lemma createAndStartAnimation_returned (r : bool) (w : World) :
  returned (Animation.createAndStartAnimation r w)
  = negb (unresolvable w)
    && accepts (animejs w) (resolved w (config (this w))).
Proof.
  unfold Animation.createAndStartAnimation.
  rewrite createAndStartAnimation_eq.
  destruct (unresolvable w) eqn:E.
  - destruct (configure_throws w E) as [e He]. rewrite He. reflexivity.
  - rewrite (configure_returns w E). cbv zeta.
    cbn [animejs with_this config this set_config negb andb].
    destruct (accepts _ _); [|reflexivity].
    destruct (starts_later _ _); [reflexivity|].
    destruct (starts_now _ _); [|reflexivity].
    apply beginAnimation_total.
Qed.

(** A rebuild that throws leaves everything but the flag, the
    configuration object and the record of what the engine was given. *)
Lemma createAndStartAnimation_thrown (r : bool) (w : World) :
  returned (Animation.createAndStartAnimation r w) = false ->
  exists (g : Config) (l : list Config),
    after (Animation.createAndStartAnimation r w)
    = with_handed (fun _ => l)
        (with_this (set_animationIsPlaying
                      (animationIsPlaying (this w)
                       && unresolvable w))
           (with_this (set_config g) w)).
Proof.
  rewrite createAndStartAnimation_returned.
  unfold Animation.createAndStartAnimation.
  rewrite createAndStartAnimation_eq.
  destruct (unresolvable w) eqn:E.
  - intros _. destruct (configure_throws w E) as [e He]. rewrite He.
    exists (config (this w)), (handed w). rewrite andb_true_r.
    destruct w as [[] ? ? ? ? ? ? ? ?]. reflexivity.
  - rewrite (configure_returns w E). cbv zeta.
    cbn [animejs with_this config this set_config negb andb].
    intro H. rewrite H.
    exists (resolved w (config (this w))),
      (handed w ++ [resolved w (config (this w))]).
    rewrite andb_false_r. reflexivity.
Qed.

Lemma removeEventListeners_subset (names : list string) (h : Handler) :
  forall (e : Element) (l : Listener),
    In l (listeners (removeEventListeners e names h)) ->
    In l (listeners e).
Proof.
  unfold removeEventListeners.
  induction names as [|n r IH]; intros e l H; simpl in H.
  - exact H.
  - apply IH in H. unfold removeEventListener in H.
    cbn [listeners set_listeners] in H. apply filter_In in H. tauto.
Qed.

Lemma detaching_subset (w : World) (l : Listener) :
  In l (listeners (el (after (Methods.removeEventListeners w)))) ->
  In l (listeners (el w)).
Proof.
  unfold Methods.removeEventListeners, modify.
  cbn [after el with_el]. cbv zeta. intro H.
  do 4 apply removeEventListeners_subset in H. exact H.
Qed.

(** After lines 208-209 a listener is one that was there before or one
    of the current triggers. *)
Lemma wired_names (w : World) (l : Listener) :
  In l (listeners (el (wired w))) ->
  In l (listeners (el w)) \/ In (lname l) (event_names (data (this w))).
Proof.
  unfold wired. intro H.
  apply (attaching_names (after (Methods.removeEventListeners w))) in H.
  destruct H as [H|H].
  - left. apply detaching_subset. exact H.
  - right. exact H.
Qed.

Lemma hears_false (name : string) (w : World) :
  hears name w = false <->
  (forall l, In l (listeners (el w)) -> lname l <> name).
Proof.
  unfold hears. split.
  - intros H l Hl E.
    assert (Ht : existsb (fun l0 => String.eqb (lname l0) name)
                   (listeners (el w)) = true).
    { apply existsb_exists. exists l. split; [exact Hl|].
      apply String.eqb_eq. exact E. }
    congruence.
  - intro H. destruct (existsb _ _) eqn:E; [|reflexivity].
    apply existsb_exists in E. destruct E as (l & Hl & El).
    apply String.eqb_eq in El. exfalso. exact (H l Hl El).
Qed.

Lemma hears_wired (name : string) (w : World) :
  hears name w = false ->
  ~ In name (event_names (data (this w))) ->
  hears name (wired w) = false.
Proof.
  intros H Hn. apply hears_false. intros l Hl E.
  apply wired_names in Hl. destruct Hl as [Hl|Hl].
  - apply (proj1 (hears_false name w) H l Hl E).
  - apply Hn. rewrite <- E. exact Hl.
Qed.

(** The rebuild in closed form, when it returns and nothing listens to
    the notification it may emit. *)
Lemma createAndStartAnimation_unheard (r : bool) (w : World) :
  returned (Animation.createAndStartAnimation r w) = true ->
  (starts_now r (data (this w)) = true ->
   hears "animationbegin" w = false
   /\ ~ In "animationbegin"%string (event_names (data (this w)))) ->
  Animation.createAndStartAnimation r w = Returned tt (rebuilt r w).
Proof.
  rewrite createAndStartAnimation_returned.
  unfold Animation.createAndStartAnimation.
  rewrite createAndStartAnimation_eq.
  intros H Hq. apply andb_true_iff in H. destruct H as [Hu Ha].
  apply negb_true_iff in Hu.
  rewrite (configure_returns w Hu). cbv zeta.
  cbn [animejs with_this config this set_config data clock].
  rewrite Ha. unfold rebuilt. cbv zeta.
  destruct (starts_later r (data (this w))); [reflexivity|].
  destruct (starts_now r (data (this w))); [|reflexivity].
  destruct (Hq eq_refl) as [Hh Hn].
  apply beginAnimation_unheard.
  apply hears_wired; assumption.
Qed.

Ltac open_rebuilt :=
  unfold rebuilt, starts_later, starts_now, begun, wired,
    Methods.addEventListeners, Methods.removeEventListeners, modify;
  cbv zeta;
  cbn [after el this with_el with_this with_timers with_handed data
       set_animation set_animationIsPlaying set_config clock attrName].

Ltac by_start_cases r w :=
  destruct r, (delay (data (this w)) =? 0),
    (List.length (startEvents (data (this w))) =? 0)%nat;
  cbn [negb andb orb]; try reflexivity.

Lemma rebuilt_playing (r : bool) (w : World) :
  animationIsPlaying (this (rebuilt r w)) = starts_now r (data (this w)).
Proof. open_rebuilt. by_start_cases r w. Qed.

Lemma rebuilt_timers (r : bool) (w : World) :
  timers (rebuilt r w)
  = timers w ++ (if starts_later r (data (this w))
                 then [clock w + Z.max 0 (to_int32 (delay (data (this w))))]
                 else []).
Proof.
  open_rebuilt. by_start_cases r w; cbn [timers with_timers with_el];
    rewrite ?app_nil_r; reflexivity.
Qed.

Lemma wired_emitted (w : World) : emitted (el (wired w)) = emitted (el w).
Proof.
  unfold wired, Methods.addEventListeners, Methods.removeEventListeners,
    modify.
  cbn [after el with_el]. cbv zeta.
  rewrite !addEventListeners_emitted, !removeEventListeners_emitted.
  reflexivity.
Qed.

Lemma rebuilt_emitted (r : bool) (w : World) :
  emitted (el (rebuilt r w))
  = emitted (el w) ++ (if starts_now r (data (this w))
                       then [begin_notification w] else []).
Proof.
  unfold rebuilt. cbv zeta.
  set (w3 := wired _).
  assert (H3 : emitted (el w3) = emitted (el w))
    by (unfold w3; rewrite wired_emitted; reflexivity).
  assert (Hn : attrName (this w3) = attrName (this w)) by reflexivity.
  unfold starts_later, starts_now, begin_notification.
  by_start_cases r w;
    unfold begun;
    cbn [el with_el with_this with_timers logged emitted set_emitted];
    rewrite ?H3, ?Hn, ?app_nil_r; reflexivity.
Qed.


Lemma rebuilt_handle (r : bool) (w : World) :
  animation (this (rebuilt r w)) = Some (resolved w (config (this w)))
  /\ config (this (rebuilt r w)) = resolved w (config (this w))
  /\ handed (rebuilt r w) = handed w ++ [resolved w (config (this w))].
Proof. open_rebuilt. by_start_cases r w; repeat split. Qed.

Lemma rebuilt_rest (r : bool) (w : World) :
  data (this (rebuilt r w)) = data (this w)
  /\ attrName (this (rebuilt r w)) = attrName (this w)
  /\ time (this (rebuilt r w)) = time (this w)
  /\ paused (this (rebuilt r w)) = paused (this w)
  /\ clock (rebuilt r w) = clock w
  /\ engine (rebuilt r w) = engine w.
Proof. open_rebuilt. by_start_cases r w; repeat split. Qed.
(** ** What every host call keeps *)

(** *** No duplicate registration *)

Ltac wiring_keeps_NoDup :=
  intros;
  unfold registrations, wired, Methods.addEventListeners,
    Methods.removeEventListeners, modify in *;
  cbn [after el with_el]; cbv zeta;
  repeat first [ apply addEventListeners_NoDup
               | apply removeEventListeners_NoDup ];
  assumption.

Lemma invoke_keeps_NoDup :
  forall E : string -> string -> M unit,
    (forall n d, preserves (fun w => NoDup (registrations w)) (E n d)) ->
    forall h, preserves (fun w => NoDup (registrations w))
                (Methods.invoke E h).
Proof. handlers_keep wiring_keeps_NoDup. Qed.

Lemma handle_keeps_NoDup (s : Stimulus) :
  preserves (fun w => NoDup (registrations w)) (handle s).
Proof.
  pose proof (emit_preserves _ invoke_keeps_NoDup
                ltac:(wiring_keeps_NoDup)) as HE.
  destruct s; by_stimulus wiring_keeps_NoDup.
Qed.

(** X1. Whatever the host does (parameter changes, frames, pauses, plays,
    events, timers, removal) and whatever the listeners do when the
    component's own notifications reach them, no event name is ever
    registered twice with the same handler: the component always passes
    the same bound method, and the entity does not add a listener it
    already has. *)
Theorem registrations_never_duplicated :
  forall (ss : list Stimulus) (w : World),
    NoDup (registrations w) ->
    NoDup (registrations (run ss w)).
Proof.
  intros ss w H.
  apply (run_preserves (fun u => NoDup (registrations u))); [|exact H].
  exact handle_keeps_NoDup.
Qed.

(** *** Wiring changes the listener list only *)

Lemma addEventListeners_frame (names : list string) (h : Handler) :
  forall e, exists (l : list Listener) (n : nat),
    addEventListeners e names h = set_listeners l n e.
Proof.
  unfold addEventListeners.
  induction names as [|a r IH]; intro e; simpl.
  - exists (listeners e), (nextListener e). destruct e. reflexivity.
  - destruct (IH (addEventListener a h e)) as (l & n & H). rewrite H.
    unfold addEventListener. destruct (existsb _ _).
    + exists l, n. reflexivity.
    + exists l, n. reflexivity.
Qed.

Lemma removeEventListeners_frame (names : list string) (h : Handler) :
  forall e, exists (l : list Listener) (n : nat),
    removeEventListeners e names h = set_listeners l n e.
Proof.
  unfold removeEventListeners.
  induction names as [|a r IH]; intro e; simpl.
  - exists (listeners e), (nextListener e). destruct e. reflexivity.
  - destruct (IH (removeEventListener a h e)) as (l & n & H). rewrite H.
    exists l, n. reflexivity.
Qed.

Lemma wired_frame (w : World) :
  exists (l : list Listener) (n : nat),
    wired w = with_el (set_listeners l n) w.
Proof.
  unfold wired, Methods.addEventListeners, Methods.removeEventListeners,
    modify. cbn [after]. unfold with_el.
  cbn [el this AFRAME animejs timers clock engine handed stack]. cbv zeta.
  repeat match goal with
  | |- context [removeEventListeners ?e ?names ?h] =>
      let l := fresh "l" in
      let n := fresh "n" in
      let H := fresh "H" in
      destruct (removeEventListeners_frame names h e) as (l & n & H);
      rewrite H; clear H
  | |- context [addEventListeners ?e ?names ?h] =>
      let l := fresh "l" in
      let n := fresh "n" in
      let H := fresh "H" in
      destruct (addEventListeners_frame names h e) as (l & n & H);
      rewrite H; clear H
  end.
  match goal with
  | |- exists l n, _ = _ => do 2 eexists
  end.
  unfold set_listeners. cbn. reflexivity.
Qed.

(** *** The configuration a rebuild settles on *)

Lemma settled_wired (w0 u : World) (g : Config) :
  settled w0 g u -> settled w0 g (wired u).
Proof.
  destruct (wired_frame u) as (l & n & H). rewrite H. intro K. exact K.
Qed.

Ltac settled_side :=
  first [ exact settled_wired
        | intros; assumption ].

Lemma repeat_snoc {A : Type} (x : A) (n : nat) :
  repeat x n ++ [x] = repeat x (S n).
Proof.
  induction n as [|k IH]; simpl.
  - reflexivity.
  - f_equal. exact IH.
Qed.

Lemma invoke_keeps_settled (w0 : World) (g : Config) :
  unresolvable w0 = false ->
  accepts (animejs w0) g = true ->
  resolved w0 g = g ->
  forall E : string -> string -> M unit,
    (forall n d, preserves (settled w0 g) (E n d)) ->
    forall h, preserves (settled w0 g) (Methods.invoke E h).
Proof.
  intros Hu Ha Hg E HE h. destruct h.
  1-3: by_handlers settled_side.
  intros u Hs. unfold Methods.invoke, Methods.restartAnimation.
  unfold bind at 1. unfold read at 1.
  rewrite createAndStartAnimation_eq.
  destruct Hs as (Hset & Hc & Han & n & Hh).
  rewrite (configure_returns u)
    by (rewrite (unresolvable_setting w0 u Hset); exact Hu).
  cbv zeta. cbn [animejs with_this config this set_config data clock].
  rewrite (resolved_setting w0 u _ Hset), Hc, Hg.
  assert (Hj : animejs u = animejs w0) by (destruct Hset; tauto).
  rewrite Hj, Ha.
  set (u3 := wired _).
  assert (H3 : settled w0 g u3).
  { unfold u3. apply settled_wired. unfold settled.
    split; [exact Hset|].
    split; [cbn [config this with_this with_handed set_animation
                 set_animationIsPlaying set_config];
            rewrite (resolved_setting w0 u _ Hset), Hc, Hg; reflexivity|].
    split; [reflexivity|].
    exists (S n). cbn [handed with_this with_handed]. rewrite Hh.
    rewrite <- app_assoc. rewrite repeat_snoc. reflexivity. }
  destruct (starts_later _ _); [exact H3|].
  destruct (starts_now _ _); [|exact H3].
  revert H3. generalize u3.
  change (preserves (settled w0 g) (Methods.beginAnimation E)).
  by_handlers settled_side.
Qed.

Lemma createAndStartAnimation_settles (r : bool) (w : World) :
  returned (Animation.createAndStartAnimation r w) = true ->
  settled w (resolved w (config (this w)))
    (after (Animation.createAndStartAnimation r w)).
Proof.
  rewrite createAndStartAnimation_returned.
  intro H. apply andb_true_iff in H. destruct H as [Hu Ha].
  apply negb_true_iff in Hu.
  set (g := resolved w (config (this w))) in *.
  assert (Hg : resolved w g = g) by apply resolved_idempotent.
  pose proof (emit_preserves _ (invoke_keeps_settled w g Hu Ha Hg)
                ltac:(settled_side)) as HE.
  unfold Animation.createAndStartAnimation.
  rewrite createAndStartAnimation_eq.
  rewrite (configure_returns w Hu). cbv zeta.
  cbn [animejs with_this config this set_config data clock].
  fold g. rewrite Ha.
  set (w3 := wired _).
  assert (H3 : settled w g w3).
  { unfold w3. apply settled_wired. unfold settled.
    split; [unfold same_setting; repeat split|]. split; [reflexivity|].
    split; [reflexivity|]. exists 0%nat. reflexivity. }
  destruct (starts_later _ _); [exact H3|].
  destruct (starts_now _ _); [|exact H3].
  revert H3. generalize w3.
  change (preserves (settled w g) (Methods.beginAnimation emit)).
  by_handlers settled_side.
Qed.

(** *** Registrations stay until the host pauses or removes *)

Lemma trigger_dec (d : Data) (name : string) (k : Handler) :
  {In (name, k) (triggers d)} + {~ In (name, k) (triggers d)}.
Proof.
  apply in_dec. intros [n1 h1] [n2 h2].
  destruct (string_dec n1 n2) as [En|En].
  - destruct h1, h2; try (left; congruence); right; congruence.
  - right. congruence.
Qed.

Lemma wired_keeps_registered (name : string) (k : Handler) (w : World) :
  registered_for name k w = true ->
  registered_for name k (wired w) = true.
Proof.
  intro H. unfold wired.
  destruct (trigger_dec (data (this w)) name k) as [Hin|Hn].
  - apply (attaching_registers (after (Methods.removeEventListeners w))).
    exact Hin.
  - apply (addEventListeners_keeps_all
             (after (Methods.removeEventListeners w))).
    apply (removeEventListeners_keeps_other w); assumption.
Qed.

Lemma wired_registers (name : string) (k : Handler) (w : World) :
  In (name, k) (triggers (data (this w))) ->
  registered_for name k (wired w) = true.
Proof.
  intro H. unfold wired.
  apply (attaching_registers (after (Methods.removeEventListeners w))).
  exact H.
Qed.

Ltac registered_side name k :=
  first [ exact (wired_keeps_registered name k)
        | intros w0 H0; exact (addEventListeners_keeps_all w0 name k H0)
        | intros; assumption ].

Lemma invoke_keeps_registered (name : string) (k : Handler) :
  forall E : string -> string -> M unit,
    (forall n d,
        preserves (fun u => registered_for name k u = true) (E n d)) ->
    forall h, preserves (fun u => registered_for name k u = true)
                (Methods.invoke E h).
Proof. handlers_keep ltac:(registered_side name k). Qed.

Lemma emit_keeps_registered (name : string) (k : Handler) :
  forall n d,
    preserves (fun u => registered_for name k u = true) (emit n d).
Proof.
  apply emit_preserves; [apply invoke_keeps_registered|].
  intros; assumption.
Qed.

Lemma handle_keeps_registered (name : string) (k : Handler)
  (s : Stimulus) :
  not_detaching s ->
  preserves (fun u => registered_for name k u = true) (handle s).
Proof.
  intro Hs. pose proof (emit_keeps_registered name k) as HE.
  destruct s; try contradiction; by_stimulus ltac:(registered_side name k).
Qed.

(** *** An event that is not a trigger stays unheard *)

Lemma hears_detached (name : string) (w : World) :
  hears name w = false ->
  hears name (after (Methods.removeEventListeners w)) = false.
Proof.
  intro H. apply hears_false. intros l Hl.
  apply detaching_subset in Hl.
  exact (proj1 (hears_false name w) H l Hl).
Qed.

Lemma hears_attached (name : string) (w : World) :
  hears name w = false ->
  ~ In name (event_names (data (this w))) ->
  hears name (after (Methods.addEventListeners w)) = false.
Proof.
  intros H Hn. apply hears_false. intros l Hl E.
  apply attaching_names in Hl. destruct Hl as [Hl|Hl].
  - exact (proj1 (hears_false name w) H l Hl E).
  - apply Hn. rewrite <- E. exact Hl.
Qed.

(** The property kept: the data is [d], which does not name [name], and
    no listener is registered for [name]. *)
Ltac unheard_side :=
  intros w0 [Hd0 Hh0]; split; [exact Hd0|];
  first [ exact Hh0
        | apply hears_wired; [exact Hh0|rewrite Hd0; assumption]
        | apply hears_attached; [exact Hh0|rewrite Hd0; assumption]
        | apply hears_detached; exact Hh0 ].

Lemma invoke_keeps_unheard (d : Data) (name : string) :
  ~ In name (event_names d) ->
  forall E : string -> string -> M unit,
    (forall n x,
        preserves (fun u => data (this u) = d /\ hears name u = false)
          (E n x)) ->
    forall h, preserves (fun u => data (this u) = d /\ hears name u = false)
                (Methods.invoke E h).
Proof. intro Hn. handlers_keep unheard_side. Qed.

Lemma emit_keeps_unheard (d : Data) (name : string) :
  ~ In name (event_names d) ->
  forall n x,
    preserves (fun u => data (this u) = d /\ hears name u = false)
      (emit n x).
Proof.
  intro Hn. apply emit_preserves; [apply invoke_keeps_unheard; exact Hn|].
  intros w n x [Hd Hh]. split; assumption.
Qed.

Lemma handle_keeps_unheard (d : Data) (name : string) (s : Stimulus) :
  ~ In name (event_names d) ->
  not_update s ->
  preserves (fun u => data (this u) = d /\ hears name u = false) (handle s).
Proof.
  intros Hn Hs. pose proof (emit_keeps_unheard d name Hn) as HE.
  destruct s; try contradiction; by_stimulus unheard_side.
Qed.

(** *** The animation handle is never given up *)

Ltac handle_side := intros ? ?; first [assumption | discriminate].

Lemma invoke_keeps_handle :
  forall E : string -> string -> M unit,
    (forall n d, preserves (fun u => animation (this u) <> None) (E n d)) ->
    forall h, preserves (fun u => animation (this u) <> None)
                (Methods.invoke E h).
Proof. handlers_keep handle_side. Qed.

Lemma emit_keeps_handle (n d : string) :
  preserves (fun u => animation (this u) <> None) (emit n d).
Proof.
  apply emit_preserves; [exact invoke_keeps_handle|].
  intros; assumption.
Qed.

Lemma handle_keeps_handle (s : Stimulus) :
  preserves (fun u => animation (this u) <> None) (handle s).
Proof.
  pose proof emit_keeps_handle as HE.
  destruct s; by_stimulus handle_side.
Qed.

(** *** Only the host pauses *)

Ltac unpaused_side := intros ? ?; first [assumption | reflexivity].

Lemma invoke_keeps_unpaused :
  forall E : string -> string -> M unit,
    (forall n d, preserves (fun u => paused (this u) = false) (E n d)) ->
    forall h, preserves (fun u => paused (this u) = false)
                (Methods.invoke E h).
Proof. handlers_keep unpaused_side. Qed.

Lemma emit_keeps_unpaused (n d : string) :
  preserves (fun u => paused (this u) = false) (emit n d).
Proof.
  apply emit_preserves; [exact invoke_keeps_unpaused|].
  intros; assumption.
Qed.

Lemma handle_keeps_unpaused (s : Stimulus) :
  not_pause s ->
  preserves (fun u => paused (this u) = false) (handle s).
Proof.
  intro Hs. pose proof emit_keeps_unpaused as HE.
  destruct s; try contradiction; by_stimulus unpaused_side.
Qed.

(** *** A pending timer stays pending until the clock reaches it *)

Ltac timer_side :=
  intros ? ?;
  first [ assumption
        | cbn [timers with_timers]; apply in_or_app; left; assumption ].

Lemma invoke_keeps_timer (T : Timer) :
  forall E : string -> string -> M unit,
    (forall n d, preserves (fun u => In T (timers u)) (E n d)) ->
    forall h, preserves (fun u => In T (timers u)) (Methods.invoke E h).
Proof. handlers_keep timer_side. Qed.

Lemma emit_keeps_timer (T : Timer) (n d : string) :
  preserves (fun u => In T (timers u)) (emit n d).
Proof.
  apply emit_preserves; [exact (invoke_keeps_timer T)|].
  intros; assumption.
Qed.

(** *** What was emitted stays emitted *)

Lemma wired_keeps_emitted (l0 : list Notification) (w : World) :
  (exists rest, emitted (el w) = l0 ++ rest) ->
  exists rest, emitted (el (wired w)) = l0 ++ rest.
Proof. rewrite wired_emitted. intro H. exact H. Qed.

Lemma attaching_keeps_emitted (w : World) :
  emitted (el (after (Methods.addEventListeners w))) = emitted (el w).
Proof.
  unfold Methods.addEventListeners, modify.
  cbn [after el with_el]. cbv zeta.
  rewrite !addEventListeners_emitted. reflexivity.
Qed.

Lemma detaching_keeps_emitted (w : World) :
  emitted (el (after (Methods.removeEventListeners w))) = emitted (el w).
Proof.
  unfold Methods.removeEventListeners, modify.
  cbn [after el with_el]. cbv zeta.
  rewrite !removeEventListeners_emitted. reflexivity.
Qed.

Ltac emitted_side l0 :=
  first [ exact (wired_keeps_emitted l0)
        | intros w0 H0;
          first [ exact H0
                | change (exists rest,
                            emitted
                              (el (after (Methods.addEventListeners w0)))
                            = l0 ++ rest);
                  rewrite (attaching_keeps_emitted w0); exact H0
                | change (exists rest,
                            emitted
                              (el (after (Methods.removeEventListeners w0)))
                            = l0 ++ rest);
                  rewrite (detaching_keeps_emitted w0); exact H0 ] ].

Lemma logged_keeps_emitted (l0 : list Notification) (w : World)
  (n d : string) :
  (exists rest, emitted (el w) = l0 ++ rest) ->
  exists rest, emitted (el (with_el (logged n d) w)) = l0 ++ rest.
Proof.
  intros [rest H]. exists (rest ++ [(n, d)]).
  cbn [el with_el logged emitted set_emitted]. rewrite H.
  rewrite app_assoc. reflexivity.
Qed.

Lemma invoke_keeps_emitted (l0 : list Notification) :
  forall E : string -> string -> M unit,
    (forall n d,
        preserves (fun u => exists rest, emitted (el u) = l0 ++ rest)
          (E n d)) ->
    forall h,
      preserves (fun u => exists rest, emitted (el u) = l0 ++ rest)
        (Methods.invoke E h).
Proof. handlers_keep ltac:(emitted_side l0). Qed.

Lemma emit_keeps_emitted (l0 : list Notification) (n d : string) :
  preserves (fun u => exists rest, emitted (el u) = l0 ++ rest) (emit n d).
Proof.
  apply emit_preserves; [exact (invoke_keeps_emitted l0)|].
  intros w n0 d0. apply logged_keeps_emitted.
Qed.

Lemma handle_keeps_emitted (l0 : list Notification) (s : Stimulus) :
  preserves (fun u => exists rest, emitted (el u) = l0 ++ rest) (handle s).
Proof.
  pose proof (emit_keeps_emitted l0) as HE.
  destruct s; by_stimulus ltac:(emitted_side l0).
Qed.
(** ** Parameter changes *)

(** C9. A parameter change whose [property] is empty returns normally and
    changes nothing except [this.data] (replaced by the host) and
    [animationIsPlaying] (cleared before the test): the configuration, the
    animation handle, the listeners, the emitted notifications and the
    timers are as they were. *)
Theorem C9_empty_property_is_silent_noop :
  forall (w : World) (d : Data),
    property d = ""%string ->
    updateProperties d w
    = Returned tt
        (with_this (set_animationIsPlaying false)
           (with_this (set_data d) w))
    /\ config (this (after (updateProperties d w))) = config (this w)
    /\ animation (this (after (updateProperties d w))) = animation (this w)
    /\ el (after (updateProperties d w)) = el w
    /\ timers (after (updateProperties d w)) = timers w.
Proof.
  intros w d H.
  rewrite (updateProperties_empty d w H). repeat split.
Qed.

(** *** The notification of a start *)

Lemma emit_emits (name detail : string) (w : World) :
  exists rest,
    emitted (el (after (emit name detail w)))
    = emitted (el w) ++ (name, detail) :: rest.
Proof.
  set (P := fun u : World =>
              exists rest,
                emitted (el u) = (emitted (el w) ++ [(name, detail)]) ++ rest).
  pose proof (invoke_keeps_emitted (emitted (el w) ++ [(name, detail)]))
    as HI.
  assert (K : P (after (emit name detail w))).
  { unfold emit. destruct (stack w) as [|k]; cbn [emit_at];
      unfold bind at 1; unfold modify at 1.
    - refine (preserves_dispatch P (fun _ => ret tt) name _ _ _).
      + intro h. apply preserves_ret.
      + exists []. rewrite app_nil_r. reflexivity.
    - refine (preserves_dispatch P
                (fun h => Methods.invoke (emit_at k) h) name _ _ _).
      + intro h. apply HI.
        apply emit_at_preserves; [exact HI|].
        intros u n0 d0. apply logged_keeps_emitted.
      + exists []. rewrite app_nil_r. reflexivity. }
  destruct K as [rest K]. exists rest. rewrite K.
  rewrite <- app_assoc. reflexivity.
Qed.

Lemma beginAnimation_eq (w : World) :
  Animation.beginAnimation w
  = emit "animationbegin" (attrName (this w))
      (with_this (set_animationIsPlaying true) w).
Proof. reflexivity. Qed.

Lemma beginAnimation_emits (w : World) :
  exists rest,
    emitted (el (after (Animation.beginAnimation w)))
    = emitted (el w) ++ begin_notification w :: rest.
Proof.
  rewrite beginAnimation_eq.
  exact (emit_emits "animationbegin" (attrName (this w))
           (with_this (set_animationIsPlaying true) w)).
Qed.

Lemma begins_prefix (l rest : list Notification) (detail : string) :
  (begins l < begins (l ++ ("animationbegin"%string, detail) :: rest))%nat.
Proof.
  rewrite begins_app.
  change (("animationbegin"%string, detail) :: rest)
    with ([("animationbegin"%string, detail)] ++ rest).
  rewrite begins_app. change (begins [_]) with 1%nat. lia.
Qed.

(** A rebuild that returns and reaches [beginAnimation] emits
    "animationbegin", whatever listens to it. *)
Lemma createAndStartAnimation_begins (r : bool) (w : World) :
  returned (Animation.createAndStartAnimation r w) = true ->
  starts_now r (data (this w)) = true ->
  exists rest,
    emitted (el (after (Animation.createAndStartAnimation r w)))
    = emitted (el w) ++ begin_notification w :: rest.
Proof.
  rewrite createAndStartAnimation_returned.
  intros H Hs. apply andb_true_iff in H. destruct H as [Hu Ha].
  apply negb_true_iff in Hu.
  unfold Animation.createAndStartAnimation.
  rewrite createAndStartAnimation_eq.
  rewrite (configure_returns w Hu). cbv zeta.
  cbn [animejs with_this config this set_config data clock].
  rewrite Ha.
  assert (Hl : starts_later r (data (this w)) = false).
  { unfold starts_now, starts_later in *.
    destruct r, (delay (data (this w)) =? 0); try reflexivity.
    discriminate. }
  rewrite Hl, Hs.
  set (w3 := wired _).
  destruct (beginAnimation_emits w3) as [rest K].
  exists rest.
  change (Methods.beginAnimation emit w3) with (Animation.beginAnimation w3).
  rewrite K. unfold w3. rewrite wired_emitted. reflexivity.
Qed.

Lemma starts_now_plain (r : bool) (d : Data) :
  startEvents d = [] -> delay d = 0 -> starts_now r d = true.
Proof.
  intros Hs Hd. unfold starts_now. rewrite Hs, Hd. apply orb_true_r.
Qed.

Lemma starts_later_plain (r : bool) (d : Data) :
  delay d = 0 -> starts_later r d = false.
Proof.
  intro Hd. unfold starts_later. rewrite Hd. apply andb_false_r.
Qed.

(** C5. With a non-empty [property], no start events and no delay, a
    parameter change that returns has emitted "animationbegin" by then,
    whatever listens on the entity. If nothing listens to
    "animationbegin" (no listener is left under that name and the new
    parameters do not use it as a trigger), the component is playing,
    exactly one "animationbegin" has been added and no timer is
    scheduled. The same holds of [createAndStartAnimation] itself,
    whatever its argument. *)
Theorem C5_immediate_start_without_delay_or_events :
  forall (w : World) (d : Data),
    property d <> ""%string ->
    startEvents d = [] ->
    delay d = 0 ->
    (returned (updateProperties d w) = true ->
     (exists rest,
         emitted (el (after (updateProperties d w)))
         = emitted (el w)
           ++ ("animationbegin"%string, attrName (this w)) :: rest)
     /\ (hears "animationbegin" w = false ->
         ~ In "animationbegin"%string (event_names d) ->
         animationIsPlaying (this (after (updateProperties d w))) = true
         /\ emitted (el (after (updateProperties d w)))
            = emitted (el w)
              ++ [("animationbegin"%string, attrName (this w))]
         /\ timers (after (updateProperties d w)) = timers w))
    /\ (forall (r : bool) (u : World),
          data (this u) = d ->
          returned (Animation.createAndStartAnimation r u) = true ->
          (exists rest,
              emitted (el (after (Animation.createAndStartAnimation r u)))
              = emitted (el u)
                ++ ("animationbegin"%string, attrName (this u)) :: rest)
          /\ (hears "animationbegin" u = false ->
              ~ In "animationbegin"%string (event_names d) ->
              animationIsPlaying
                (this (after (Animation.createAndStartAnimation r u)))
              = true
              /\ emitted
                   (el (after (Animation.createAndStartAnimation r u)))
                 = emitted (el u)
                   ++ [("animationbegin"%string, attrName (this u))]
              /\ timers (after (Animation.createAndStartAnimation r u))
                 = timers u)).
Proof.
  intros w d Hp Hs Hd.
  assert (Gen : forall (r : bool) (u : World),
             data (this u) = d ->
             returned (Animation.createAndStartAnimation r u) = true ->
             (exists rest,
                 emitted (el (after (Animation.createAndStartAnimation r u)))
                 = emitted (el u)
                   ++ ("animationbegin"%string, attrName (this u)) :: rest)
             /\ (hears "animationbegin" u = false ->
                 ~ In "animationbegin"%string (event_names d) ->
                 animationIsPlaying
                   (this (after (Animation.createAndStartAnimation r u)))
                 = true
                 /\ emitted
                      (el (after (Animation.createAndStartAnimation r u)))
                    = emitted (el u)
                      ++ [("animationbegin"%string, attrName (this u))]
                 /\ timers (after (Animation.createAndStartAnimation r u))
                    = timers u)).
  { intros r u Hu Hr. split.
    - apply createAndStartAnimation_begins; [exact Hr|].
      rewrite Hu. apply starts_now_plain; assumption.
    - intros Hh Hn.
      rewrite (createAndStartAnimation_unheard r u Hr)
        by (intros _; rewrite Hu; split; assumption).
      cbn [after].
      rewrite rebuilt_playing, rebuilt_emitted, rebuilt_timers, Hu.
      rewrite (starts_now_plain r d Hs Hd), (starts_later_plain r d Hd).
      rewrite app_nil_r. repeat split. }
  split; [|exact Gen].
  rewrite (updateProperties_rebuilds d w Hp).
  intro Hr. exact (Gen false (reconfigured d w) eq_refl Hr).
Qed.

(** ** What the engine is given *)

(** A rebuild whose configuration can be resolved hands it to the
    engine, and hands nothing else, however often listeners of
    "animationbegin" restart the animation meanwhile; if the engine
    accepts it, it is the handle the component keeps. *)
Lemma createAndStartAnimation_hands (r : bool) (w : World) :
  unresolvable w = false ->
  let g := resolved w (config (this w)) in
  let w' := after (Animation.createAndStartAnimation r w) in
  (exists n : nat, handed w' = handed w ++ repeat g (S n))
  /\ config (this w') = g
  /\ (accepts (animejs w) g = true -> animation (this w') = Some g).
Proof.
  intros Hu g w'. subst w'.
  destruct (accepts (animejs w) g) eqn:Ha.
  - assert (Hr : returned (Animation.createAndStartAnimation r w) = true).
    { rewrite createAndStartAnimation_returned, Hu. exact Ha. }
    destruct (createAndStartAnimation_settles r w Hr)
      as (_ & Hc & Han & Hh).
    split; [exact Hh|]. split; [exact Hc|]. intros _. exact Han.
  - unfold Animation.createAndStartAnimation.
    rewrite createAndStartAnimation_eq.
    rewrite (configure_returns w Hu). cbv zeta.
    cbn [animejs with_this config this set_config data clock].
    fold g. rewrite Ha. cbn [after].
    split; [exists 0%nat; reflexivity|].
    split; [reflexivity|discriminate].
Qed.

(** C8. When the target property is "rotation" and its declared type is a
    vector type, the configuration the tween engine receives has the
    x, y, z of the resolved [from] vector and of the parsed [to] vector
    multiplied by pi/180, whether [from] was given or read from the
    entity; a [to] whose y is 90 gives the end value pi/2. The engine
    receives this configuration and no other in the call; it does receive
    it when [from] is given or the entity has a rotation to read
    ([toRadians] throws on [undefined]), and it is then the handle the
    component keeps if the engine accepts it. *)
Theorem C8_rotation_handed_over_in_radians :
  forall (w : World) (r : bool),
    property (data (this w)) = "rotation"%string ->
    is_vector_type (getPropertyType (AFRAME w) (el w) "rotation") = true ->
    let d := data (this w) in
    let t := coordinates_parse (AFRAME w) (to d) in
    let rad (v : Vec) :=
      mkVec (vx v * (PI / 180))%R (vy v * (PI / 180))%R
        (vz v * (PI / 180))%R (vw v) in
    let w' := after (Animation.createAndStartAnimation r w) in
    let readable :=
      from d = ""%string ->
      getComponentProperty (el w) "rotation" <> VUndefined in
    exists g : Config,
      (exists n : nat, handed w' = handed w ++ repeat g n)
      /\ (readable -> exists n : nat, handed w' = handed w ++ repeat g (S n))
      /\ (readable -> accepts (animejs w) g = true ->
          animation (this w') = Some g)
      /\ config_x g = Some (vx t * (PI / 180))%R
      /\ config_y g = Some (vy t * (PI / 180))%R
      /\ config_z g = Some (vz t * (PI / 180))%R
      /\ (from d <> ""%string ->
          targets g
          = TargetsArray [VVec (rad (coordinates_parse (AFRAME w) (from d)))])
      /\ (from d = ""%string ->
          forall f : Vec,
            getComponentProperty (el w) "rotation" = VVec f ->
            targets g = TargetsArray [VVec (rad f)])
      /\ (vy t = 90%R -> config_y g = Some (PI / 2)%R).
Proof.
  intros w r Hp Hv d t rad w' readable. subst d t rad w' readable.
  assert (Hres : (from (data (this w)) = ""%string ->
                  getComponentProperty (el w) "rotation" <> VUndefined) ->
                 unresolvable w = false).
  { intro Hread. unfold unresolvable. cbv zeta. rewrite Hp.
    destruct (getPropertyType (AFRAME w) (el w) "rotation") as [ty|];
      [|discriminate].
    destruct (truthy (from (data (this w)))) eqn:Ht; [reflexivity|].
    cbn [negb andb]. rewrite Hv.
    change (getComponentProperty_throws (el w) "rotation") with false.
    cbn [orb andb]. change (String.eqb "rotation" "rotation") with true.
    assert (Hf : from (data (this w)) = ""%string).
    { unfold truthy in Ht. apply negb_false_iff in Ht.
      apply String.eqb_eq. exact Ht. }
    specialize (Hread Hf).
    destruct (getComponentProperty (el w) "rotation");
      [reflexivity|reflexivity|contradiction]. }
  exists (resolved w (config (this w))).
  assert (Hhanded :
    (exists n : nat,
        handed (after (Animation.createAndStartAnimation r w))
        = handed w ++ repeat (resolved w (config (this w))) n)
    /\ ((from (data (this w)) = ""%string ->
         getComponentProperty (el w) "rotation" <> VUndefined) ->
        exists n : nat,
          handed (after (Animation.createAndStartAnimation r w))
          = handed w ++ repeat (resolved w (config (this w))) (S n))
    /\ ((from (data (this w)) = ""%string ->
         getComponentProperty (el w) "rotation" <> VUndefined) ->
        accepts (animejs w) (resolved w (config (this w))) = true ->
        animation (this (after (Animation.createAndStartAnimation r w)))
        = Some (resolved w (config (this w))))).
  { destruct (unresolvable w) eqn:Hu.
    - split; [|split; intro Hread; discriminate (Hres Hread)].
      unfold Animation.createAndStartAnimation.
      rewrite createAndStartAnimation_eq.
      destruct (configure_throws w Hu) as [e He]. rewrite He.
      exists 0%nat. cbn [after repeat]. rewrite app_nil_r. reflexivity.
    - destruct (createAndStartAnimation_hands r w Hu)
        as ([n Hh] & _ & Ha).
      split; [exists (S n); exact Hh|].
      split; [intros _; exists n; exact Hh|intros _; exact Ha]. }
  destruct Hhanded as (H0 & H1 & H2).
  split; [exact H0|]. split; [exact H1|]. split; [exact H2|].
  unfold resolved. cbv zeta. rewrite Hp, Hv.
  change (String.eqb "rotation" "rotation") with true. cbv iota.
  cbn [config_x config_y config_z targets set_vector toRadians
       vx vy vz vw]. unfold degToRad.
  repeat split.
  - intro Hf. rewrite (truthy_true _ Hf). reflexivity.
  - intros Hf f Hval. rewrite Hf. cbn [truthy String.eqb negb].
    rewrite Hval. reflexivity.
  - intro Hy. rewrite Hy. f_equal. lra.
Qed.

(** ** Triggers *)

(** A rebuild that returns has registered every trigger of the data. *)
Lemma createAndStartAnimation_registers (r : bool) (w : World)
  (name : string) (k : Handler) :
  returned (Animation.createAndStartAnimation r w) = true ->
  In (name, k) (triggers (data (this w))) ->
  registered_for name k (after (Animation.createAndStartAnimation r w))
  = true.
Proof.
  rewrite createAndStartAnimation_returned.
  intros H Hin. apply andb_true_iff in H. destruct H as [Hu Ha].
  apply negb_true_iff in Hu.
  unfold Animation.createAndStartAnimation.
  rewrite createAndStartAnimation_eq.
  rewrite (configure_returns w Hu). cbv zeta.
  cbn [animejs with_this config this set_config data clock].
  rewrite Ha.
  set (w3 := wired _).
  assert (H3 : registered_for name k w3 = true).
  { unfold w3. apply wired_registers. exact Hin. }
  destruct (starts_later _ _); [exact H3|].
  destruct (starts_now _ _); [|exact H3].
  change (Methods.beginAnimation emit w3) with (Animation.beginAnimation w3).
  rewrite beginAnimation_eq.
  apply (emit_keeps_registered name k). exact H3.
Qed.

Lemma restartAnimation_unfold (w : World) :
  Animation.restartAnimation w
  = Animation.createAndStartAnimation (animationIsPlaying (this w)) w.
Proof. reflexivity. Qed.

Lemma starts_now_waiting (d : Data) :
  delay d <> 0 \/ startEvents d <> [] -> starts_now false d = false.
Proof.
  intro H. unfold starts_now. cbn [orb].
  destruct H as [Hd|Hs].
  - apply Z.eqb_neq in Hd. rewrite Hd. reflexivity.
  - destruct (startEvents d); [contradiction|].
    cbn [List.length Nat.eqb]. apply andb_false_r.
Qed.

(** C7. The restart handler, when it returns, has built the
    configuration and the animation handle anew, resolving [from] from
    [data.from] when it is given and from the entity as it is at that
    moment when it is not, and [to] from [data.to]; the engine has been
    given that configuration and no other. When the animation was
    playing, the delay and the start events are not consulted:
    "animationbegin" is emitted, and if nothing listens to it the
    component is playing and no timer is scheduled. When it was not
    playing, the handler does what a rebuild without the restarting flag
    does: with no delay and no start event the component starts as well,
    and with a delay or a start event it is left not playing. *)
Theorem C7_restart_rebuilds_and_start_depends_on_playing :
  forall (w : World),
    let d := data (this w) in
    let o := Animation.restartAnimation w in
    let vector :=
      is_vector_type (getPropertyType (AFRAME w) (el w) (property d)) in
    let read_or (explicit : Value) :=
      if truthy (from d) then explicit
      else getComponentProperty (el w) (property d) in
    let radians (v : Value) :=
      if String.eqb (property d) "rotation"
      then on_object toRadians v else v in
    let t := coordinates_parse (AFRAME w) (to d) in
    let t' := if String.eqb (property d) "rotation"
              then toRadians t else t in
    let begin := ("animationbegin"%string, attrName (this w)) in
    let unheard :=
      hears "animationbegin" w = false
      /\ ~ In "animationbegin"%string (event_names d) in
    returned o = true ->
    animation (this (after o)) = Some (config (this (after o)))
    /\ (exists n : nat,
           handed (after o)
           = handed w ++ repeat (config (this (after o))) (S n))
    /\ (vector = false ->
        targets (config (this (after o)))
        = TargetsObject (read_or (VString (from d)))
        /\ aframeProperty (config (this (after o))) = Some (to d))
    /\ (vector = true ->
        targets (config (this (after o)))
        = TargetsArray
            [radians (read_or
               (VVec (coordinates_parse (AFRAME w) (from d))))]
        /\ config_x (config (this (after o))) = Some (vx t')
        /\ config_y (config (this (after o))) = Some (vy t'))
    /\ (animationIsPlaying (this w) = true ->
        (exists rest, emitted (el (after o)) = emitted (el w) ++ begin :: rest)
        /\ (unheard ->
            animationIsPlaying (this (after o)) = true
            /\ timers (after o) = timers w
            /\ emitted (el (after o)) = emitted (el w) ++ [begin]))
    /\ (animationIsPlaying (this w) = false ->
        o = Animation.createAndStartAnimation false w)
    /\ (animationIsPlaying (this w) = false ->
        delay d = 0 -> startEvents d = [] ->
        (exists rest, emitted (el (after o)) = emitted (el w) ++ begin :: rest)
        /\ (unheard ->
            animationIsPlaying (this (after o)) = true
            /\ timers (after o) = timers w
            /\ emitted (el (after o)) = emitted (el w) ++ [begin]))
    /\ (animationIsPlaying (this w) = false ->
        delay d <> 0 \/ startEvents d <> [] ->
        animationIsPlaying (this (after o)) = false
        /\ emitted (el (after o)) = emitted (el w))
    /\ (animationIsPlaying (this w) = false ->
        delay d <> 0 ->
        timers (after o)
        = timers w ++ [clock w + Z.max 0 (to_int32 (delay d))]).
Proof.
  intros w d o vector read_or radians t t' begin unheard.
  subst o. rewrite restartAnimation_unfold. intro Hr.
  destruct (createAndStartAnimation_settles _ w Hr)
    as (_ & Hc & Han & Hh).
  set (o := Animation.createAndStartAnimation _ w) in *.
  assert (Started : forall r : bool,
             returned (Animation.createAndStartAnimation r w) = true ->
             starts_now r d = true ->
             (exists rest,
                 emitted (el (after (Animation.createAndStartAnimation r w)))
                 = emitted (el w) ++ begin :: rest)
             /\ (unheard ->
                 animationIsPlaying
                   (this (after (Animation.createAndStartAnimation r w)))
                 = true
                 /\ timers (after (Animation.createAndStartAnimation r w))
                    = timers w
                 /\ emitted
                      (el (after (Animation.createAndStartAnimation r w)))
                    = emitted (el w) ++ [begin])).
  { intros r Hret Hs. split.
    - apply createAndStartAnimation_begins; assumption.
    - intro Hq.
      rewrite (createAndStartAnimation_unheard r w Hret (fun _ => Hq)).
      cbn [after].
      rewrite rebuilt_playing, rebuilt_emitted, rebuilt_timers.
      fold d. rewrite Hs.
      assert (Hl : starts_later r d = false).
      { unfold starts_now, starts_later in *.
        destruct r, (delay d =? 0); try reflexivity. discriminate. }
      rewrite Hl, app_nil_r. repeat split. }
  split; [rewrite Han, Hc; reflexivity|].
  split; [rewrite Hc; exact Hh|].
  rewrite Hc. unfold resolved. cbv zeta. fold d. fold vector.
  split; [|split].
  - intro Hv. rewrite Hv. split; reflexivity.
  - intro Hv. rewrite Hv. repeat split.
  - split; [|split; [|split; [|split]]].
    + intro Hp. subst o. revert Hr. rewrite Hp. intro Hr.
      apply Started; [exact Hr|reflexivity].
    + intro Hp. subst o. rewrite Hp. reflexivity.
    + intros Hp Hd Hs. subst o. revert Hr. rewrite Hp. intro Hr.
      apply Started; [exact Hr|].
      apply starts_now_plain; assumption.
    + intros Hp Hwait. subst o. revert Hr. rewrite Hp. intro Hr.
      pose proof (starts_now_waiting d Hwait) as Hs.
      rewrite (createAndStartAnimation_unheard false w Hr)
        by (fold d; rewrite Hs; discriminate).
      cbn [after]. rewrite rebuilt_playing, rebuilt_emitted. fold d.
      rewrite Hs, app_nil_r. split; reflexivity.
    + intros Hp Hd. subst o. revert Hr. rewrite Hp. intro Hr.
      pose proof (starts_now_waiting d (or_introl Hd)) as Hs.
      rewrite (createAndStartAnimation_unheard false w Hr)
        by (fold d; rewrite Hs; discriminate).
      cbn [after]. rewrite rebuilt_timers. fold d.
      unfold starts_later. apply Z.eqb_neq in Hd. rewrite Hd.
      reflexivity.
Qed.

(** An event with one listener: the dispatch calls it and returns,
    whether or not the listener throws. *)
Lemma dispatchEvent_single (name : string) (l : Listener) (w : World) :
  filter (fun l' => String.eqb (lname l') name) (listeners (el w)) = [l] ->
  dispatchEvent name w
  = Returned tt (after (Animation.invoke (lhandler l) w)).
Proof.
  intro H. unfold dispatchEvent, dispatch_with.
  unfold bind at 1. unfold read at 1.
  rewrite H. cbn [for_each]. unfold bind at 1 2. unfold read at 1.
  assert (Hin : In l (listeners (el w))).
  { assert (Hl : In l [l]) by (left; reflexivity).
    rewrite <- H in Hl. apply filter_In in Hl. tauto. }
  assert (Hex : existsb (fun l' => Nat.eqb (lid l') (lid l))
                  (listeners (el w)) = true).
  { apply existsb_exists. exists l. split; [exact Hin|].
    apply Nat.eqb_refl. }
  rewrite Hex. reflexivity.
Qed.

(** ** The start-delay timer *)

Lemma to_int32_small (z : Z) :
  - 2 ^ 31 <= z < 2 ^ 31 -> to_int32 z = z.
Proof.
  intro H. unfold to_int32.
  rewrite Z.mod_small by lia. lia.
Qed.

(** *** The clock is moved by the host only *)

Lemma invoke_keeps_clock (c : Z) :
  forall E : string -> string -> M unit,
    (forall n d, preserves (fun u => clock u = c) (E n d)) ->
    forall h, preserves (fun u => clock u = c) (Methods.invoke E h).
Proof. handlers_keep untouched. Qed.

Lemma emit_keeps_clock (c : Z) (n d : string) :
  preserves (fun u => clock u = c) (emit n d).
Proof.
  apply emit_preserves; [apply invoke_keeps_clock|untouched].
Qed.

Lemma updateProperties_keeps_clock (d : Data) (w : World) :
  clock (after (updateProperties d w)) = clock w.
Proof.
  pose proof (emit_keeps_clock (clock w)) as HE.
  cut (preserves (fun u => clock u = clock w) (updateProperties d)).
  - intro K. apply K. reflexivity.
  - unfold updateProperties. by_handlers untouched.
Qed.

Lemma updateProperties_keeps_timer (d : Data) (T : Timer) (w : World) :
  In T (timers w) -> In T (timers (after (updateProperties d w))).
Proof.
  pose proof (emit_keeps_timer T) as HE.
  cut (preserves (fun u => In T (timers u)) (updateProperties d)).
  - intro K. apply K.
  - unfold updateProperties. by_handlers timer_side.
Qed.

Lemma begin_each_keeps (P : World -> Prop) (l : list Timer) :
  preserves P Animation.beginAnimation ->
  preserves P (for_each (fun _ : Timer => swallow Animation.beginAnimation) l).
Proof.
  intro H. apply preserves_for_each. intro. apply preserves_swallow.
  exact H.
Qed.

Lemma elapse_eq (ms : Z) (w : World) :
  elapse ms w
  = for_each (fun _ : Timer => swallow Animation.beginAnimation)
      (filter (fun d => d <=? clock w + ms) (timers w))
      (with_clock (clock w + ms)
         (with_timers (filter (fun d => negb (d <=? clock w + ms))) w)).
Proof. reflexivity. Qed.

Lemma elapse_clock (ms : Z) (w : World) :
  clock (after (elapse ms w)) = clock w + ms.
Proof.
  unfold elapse. unfold bind at 1. unfold read at 1.
  unfold bind at 1. unfold modify at 1.
  unfold bind at 1. unfold modify at 1.
  apply (begin_each_keeps (fun u => clock u = clock w + ms)).
  - apply (beginAnimation_preserves (fun u => clock u = clock w + ms));
      [apply invoke_keeps_clock|untouched].
  - reflexivity.
Qed.

(** A timer that is not yet due is still pending after the clock has
    moved. *)
Lemma elapse_keeps_later_timer (ms : Z) (T : Timer) (w : World) :
  In T (timers w) -> clock w + ms < T ->
  In T (timers (after (elapse ms w))).
Proof.
  intros Hin Hlt.
  unfold elapse. unfold bind at 1. unfold read at 1.
  unfold bind at 1. unfold modify at 1.
  unfold bind at 1. unfold modify at 1.
  apply (begin_each_keeps (fun u => In T (timers u))).
  - apply (beginAnimation_preserves (fun u => In T (timers u)));
      [apply invoke_keeps_timer|intros; assumption].
  - cbn [timers with_clock with_timers]. apply filter_In.
    split; [exact Hin|]. apply negb_true_iff. apply Z.leb_gt. exact Hlt.
Qed.

(** Each timer that is due emits "animationbegin" once more, at least. *)
Lemma begin_each_begins (l : list Timer) :
  forall w,
    (begins (emitted (el w)) + List.length l
     <= begins (emitted (el (after
          (for_each (fun _ : Timer => swallow Animation.beginAnimation)
             l w)))))%nat.
Proof.
  induction l as [|x r IH]; intro w.
  - cbn. lia.
  - cbn [for_each]. unfold bind. unfold swallow at 1.
    specialize (IH (after (Animation.beginAnimation w))).
    destruct (beginAnimation_emits w) as [rest Hrest].
    rewrite Hrest in IH.
    pose proof (begins_prefix (emitted (el w)) rest (attrName (this w))).
    unfold begin_notification in IH. cbn [List.length].
    eapply Nat.le_trans; [|exact IH].
    rewrite Nat.add_succ_r, <- Nat.add_succ_l.
    apply Nat.add_le_mono_r. exact H.
Qed.

Lemma elapse_begins (ms : Z) (T : Timer) (w : World) :
  In T (timers w) -> T <= clock w + ms ->
  (begins (emitted (el w))
   < begins (emitted (el (after (elapse ms w)))))%nat.
Proof.
  intros Hin Hle.
  unfold elapse. unfold bind at 1. unfold read at 1.
  unfold bind at 1. unfold modify at 1.
  unfold bind at 1. unfold modify at 1.
  match goal with
  | |- context [for_each _ ?l ?u] =>
      pose proof (begin_each_begins l u) as H
  end.
  cbn [el with_clock with_timers] in H.
  assert (Hdue : In T (filter (fun d => d <=? clock w + ms) (timers w))).
  { apply filter_In. split; [exact Hin|]. apply Z.leb_le. exact Hle. }
  destruct (filter (fun d => d <=? clock w + ms) (timers w)) as [|x r];
    [contradiction|].
  cbn [List.length] in H. lia.
Qed.

(** *** When nothing listens to "animationbegin" *)

Lemma begin_each_unheard (l : list Timer) :
  forall w,
    hears "animationbegin" w = false ->
    let o := for_each (fun _ : Timer => swallow Animation.beginAnimation)
               l w in
    returned o = true
    /\ animationIsPlaying (this (after o))
       = match l with
         | [] => animationIsPlaying (this w)
         | _ :: _ => true
         end
    /\ emitted (el (after o))
       = emitted (el w) ++ repeat (begin_notification w) (List.length l)
    /\ listeners (el (after o)) = listeners (el w)
    /\ timers (after o) = timers w
    /\ clock (after o) = clock w
    /\ attrName (this (after o)) = attrName (this w)
    /\ data (this (after o)) = data (this w)
    /\ animation (this (after o)) = animation (this w)
    /\ time (this (after o)) = time (this w).
Proof.
  induction l as [|x r IH]; intros w Hh.
  - cbn. rewrite app_nil_r. repeat split.
  - cbv zeta. cbn [for_each]. unfold bind.
    assert (Hb : swallow Animation.beginAnimation w = Returned tt (begun w)).
    { unfold swallow. rewrite (beginAnimation_unheard w Hh). reflexivity. }
    rewrite !Hb.
    destruct (IH (begun w) Hh) as (Hr & Hp & He & Hl & Ht & Hc & Hn & Hd
                                   & Ha & Htm).
    cbv zeta in *. rewrite Hr, He, Hl, Ht, Hc, Hn, Hd, Ha, Htm.
    split; [reflexivity|].
    split; [rewrite Hp; destruct r; reflexivity|].
    split; [|repeat split].
    cbn. rewrite <- app_assoc. reflexivity.
Qed.

Lemma elapse_unheard (ms : Z) (w : World) :
  hears "animationbegin" w = false ->
  let t := clock w + ms in
  let w' := after (elapse ms w) in
  clock w' = t
  /\ timers w' = filter (fun d => negb (d <=? t)) (timers w)
  /\ animationIsPlaying (this w')
     = match filter (fun d => d <=? t) (timers w) with
       | [] => animationIsPlaying (this w)
       | _ :: _ => true
       end
  /\ emitted (el w')
     = emitted (el w)
       ++ repeat (begin_notification w)
            (List.length (filter (fun d => d <=? t) (timers w)))
  /\ listeners (el w') = listeners (el w)
  /\ attrName (this w') = attrName (this w)
  /\ data (this w') = data (this w)
  /\ animation (this w') = animation (this w)
  /\ time (this w') = time (this w).
Proof.
  intro Hh. rewrite elapse_eq.
  destruct (begin_each_unheard
              (filter (fun d => d <=? clock w + ms) (timers w))
              (with_clock (clock w + ms)
                 (with_timers
                    (filter (fun d => negb (d <=? clock w + ms))) w)) Hh)
    as (_ & Hp & He & Hl & Ht & Hc & Hn & Hd & Ha & Htm).
  cbv zeta in *. rewrite Hp, He, Hl, Ht, Hc, Hn, Hd, Ha, Htm.
  repeat split.
Qed.


(** C3, as the code has it. A start-delay timer scheduled by a parameter
    change that returned is still pending after the next parameter
    change, whatever the new parameters are and whether or not that
    change returns; when it fires, [beginAnimation] runs without
    consulting the current state: "animationbegin" is emitted again, and
    the component is playing unless a listener of "animationbegin" stops
    it. *)
Theorem C3_stale_timer_begins_the_rebuilt_animation :
  forall (w : World) (d1 d2 : Data) (ms : Z),
    property d1 <> ""%string ->
    0 < delay d1 < 2 ^ 31 ->
    returned (updateProperties d1 w) = true ->
    0 <= ms < delay d1 ->
    let w1 := after (updateProperties d1 w) in
    let w2 := after (updateProperties d2 (after (elapse ms w1))) in
    let w3 := after (elapse (delay d1 - ms) w2) in
    In (clock w + delay d1) (timers w1)
    /\ In (clock w + delay d1) (timers w2)
    /\ (begins (emitted (el w2)) < begins (emitted (el w3)))%nat
    /\ (hears "animationbegin" w2 = false ->
        animationIsPlaying (this w3) = true).
Proof.
  intros w d1 d2 ms Hp Hd Hr Hms w1 w2 w3.
  assert (Hc1 : clock w1 = clock w) by apply updateProperties_keeps_clock.
  assert (Hs : starts_now false d1 = false).
  { apply starts_now_waiting. left. lia. }
  assert (Ht1 : In (clock w + delay d1) (timers w1)).
  { unfold w1. revert Hr. rewrite (updateProperties_rebuilds d1 w Hp).
    intro Hr.
    rewrite (createAndStartAnimation_unheard false _ Hr)
      by (cbn [reconfigured data this with_this set_data
               set_animationIsPlaying set_config];
          rewrite Hs; discriminate).
    cbn [after]. rewrite rebuilt_timers.
    cbn [reconfigured data this with_this set_data set_animationIsPlaying
         set_config clock].
    unfold starts_later. cbn [negb andb].
    assert (E : (delay d1 =? 0) = false) by (apply Z.eqb_neq; lia).
    rewrite E. cbn [negb]. rewrite to_int32_small by lia.
    rewrite Z.max_r by lia. apply in_or_app. right. left. reflexivity. }
  split; [exact Ht1|].
  assert (Hc2 : clock w2 = clock w + ms).
  { unfold w2. rewrite updateProperties_keeps_clock, elapse_clock. lia. }
  assert (Ht2 : In (clock w + delay d1) (timers w2)).
  { unfold w2. apply updateProperties_keeps_timer.
    apply elapse_keeps_later_timer; [exact Ht1|lia]. }
  split; [exact Ht2|].
  split.
  - apply (elapse_begins _ (clock w + delay d1)); [exact Ht2|lia].
  - intro Hh.
    destruct (elapse_unheard (delay d1 - ms) w2 Hh) as (_ & _ & Hp3 & _).
    fold w3 in Hp3. cbv zeta in Hp3.
    assert (Hdue : In (clock w + delay d1)
                     (filter (fun d => d <=? clock w2 + (delay d1 - ms))
                        (timers w2))).
    { apply filter_In. split; [exact Ht2|]. apply Z.leb_le. lia. }
    destruct (filter (fun d => d <=? clock w2 + (delay d1 - ms))
                (timers w2)) as [|x r]; [contradiction|].
    exact Hp3.
Qed.
(** *** Frames when nothing listens to "animationcomplete" *)

Lemma run_update_frame (k : UpdateFn) (v : Value) (u : World) :
  exists p o3 : string -> Value,
    Methods.run_update k v u
    = Returned tt
        (with_el (fun e => set_object3D o3 (set_properties p e)) u).
Proof.
  destruct k as [|prop|prop|prop]; unfold Methods.run_update, ret, modify.
  - exists (properties (el u)), (object3D (el u)).
    destruct u as [c e G J ts ck en hd st]. destruct e. reflexivity.
  - exists (properties (el u)),
      (fun q => if String.eqb q prop then v else object3D (el u) q).
    destruct u as [c e G J ts ck en hd st]. destruct e. reflexivity.
  - exists (fun q => if String.eqb q prop then v else properties (el u) q),
      (object3D (el u)).
    destruct u as [c e G J ts ck en hd st]. destruct e. reflexivity.
  - exists (fun q => if String.eqb q prop then v else properties (el u) q),
      (object3D (el u)).
    destruct u as [c e G J ts ck en hd st]. destruct e. reflexivity.
Qed.

(** A frame changes the elapsed time, the record of what the engine was
    given, the properties the engine wrote and the notifications, among
    which it adds no "animationbegin"; nothing else. *)
Lemma tick_unheard (t dt : Z) (w : World) :
  hears "animationcomplete" w = false ->
  exists (tm : Z) (eng : list Z) (p o3 : string -> Value)
         (em : list Notification),
    after (Animation.tick t dt w)
    = with_engine (fun _ => eng)
        (with_el (fun e => set_emitted em
                             (set_object3D o3 (set_properties p e)))
           (with_this (set_time tm) w))
    /\ begins em = begins (emitted (el w)).
Proof.
  intro Hh. unfold Animation.tick, Methods.tick.
  unfold bind at 1. unfold read at 1.
  destruct (animationIsPlaying (this w)) eqn:Hp; cbn [negb].
  - unfold bind at 1. unfold modify at 1.
    unfold bind at 1. unfold read at 1.
    cbn [animation this with_this set_time].
    destruct (animation (this w)) as [h|] eqn:Ha.
    + unfold bind at 1. unfold modify at 1.
      unfold bind at 1. unfold read at 1.
      cbn [animejs this with_this with_engine set_time time].
      set (f := advance (animejs w) h (time (this w) + dt)).
      set (w1 := with_engine _ _).
      unfold bind at 1.
      assert (Hu : exists p o3 : string -> Value,
                 (match frame_value f with
                  | Some v => Methods.run_update (config_update h) v
                  | None => ret tt
                  end) w1
                 = Returned tt
                     (with_el
                        (fun e => set_object3D o3 (set_properties p e)) w1)).
      { destruct (frame_value f) as [v|].
        - apply run_update_frame.
        - apply (run_update_frame NoUpdate (VString "")). }
      destruct Hu as (p & o3 & Hu). rewrite Hu.
      set (w2 := with_el _ w1).
      assert (Hk : hears "animationcomplete" w2 = false) by exact Hh.
      destruct (frame_complete f).
      * unfold Methods.run_complete.
        destruct (config_complete h).
        -- exists (time (this w) + dt), (engine w ++ [time (this w) + dt]),
             p, o3, (emitted (el w)).
           split; reflexivity.
        -- unfold bind at 1. unfold read at 1.
           rewrite (emit_unheard _ _ w2 Hk).
           exists (time (this w) + dt), (engine w ++ [time (this w) + dt]),
             p, o3,
             (emitted (el w) ++ [("animationcomplete"%string,
                                  attrName (this w))]).
           split; [reflexivity|].
           rewrite begins_app. cbn. lia.
      * exists (time (this w) + dt), (engine w ++ [time (this w) + dt]),
          p, o3, (emitted (el w)).
        split; reflexivity.
    + exists (time (this w) + dt), (engine w), (properties (el w)),
        (object3D (el w)), (emitted (el w)).
      split; [|reflexivity].
      destruct w as [c e G J ts ck en hd st]. destruct c, e. reflexivity.
  - exists (time (this w)), (engine w), (properties (el w)),
      (object3D (el w)), (emitted (el w)).
    split; [|reflexivity].
    destruct w as [c e G J ts ck en hd st]. destruct c, e. reflexivity.
Qed.

Lemma hears_listeners (name : string) (u u0 : World) :
  listeners (el u) = listeners (el u0) -> hears name u = hears name u0.
Proof. intro H. unfold hears. rewrite H. reflexivity. Qed.





(** The stale timer at work: a delayed configuration is replaced, before
    its timer fires, by one that waits for the event "go". After the
    replacement the component is not playing and nothing was emitted; when
    the old timer fires, with no "go" dispatched, it is playing and
    "animationbegin" has been emitted. *)
Lemma C3_stale_timer_counterexample :
  animationIsPlaying
    (this (run [Update move_delayed; Elapse 400; Update move_on_go] world0))
  = false
  /\ emitted
       (el (run [Update move_delayed; Elapse 400; Update move_on_go] world0))
     = []
  /\ startEvents
       (data (this (run [Update move_delayed; Elapse 400; Update move_on_go]
                      world0)))
     = ["go"%string]
  /\ animationIsPlaying
       (this (run [Update move_delayed; Elapse 400; Update move_on_go;
                   Elapse 600] world0))
     = true
  /\ emitted
       (el (run [Update move_delayed; Elapse 400; Update move_on_go;
                 Elapse 600] world0))
     = [("animationbegin"%string, "animation"%string)].
Proof. repeat split. Qed.

(** Configurations with a non-empty [property], no start event and no
    delay whose parameter change does not leave the component playing:
    one whose pause event is "animationbegin" returns not playing,
    because the notification reaches the pause handler; one whose
    [property] is "toString" throws in the schema lookup; one whose [to]
    the engine refuses throws in [anime]. The last two emit nothing. *)
Lemma C5_immediate_start_counterexample :
  (property move_self_paused <> ""%string
   /\ startEvents move_self_paused = []
   /\ delay move_self_paused = 0
   /\ returned (updateProperties move_self_paused world0) = true
   /\ animationIsPlaying
        (this (after (updateProperties move_self_paused world0))) = false)
  /\ (property stringly <> ""%string
      /\ startEvents stringly = []
      /\ delay stringly = 0
      /\ returned (updateProperties stringly world0) = false
      /\ animationIsPlaying
           (this (after (updateProperties stringly world0))) = false
      /\ emitted (el (after (updateProperties stringly world0))) = [])
  /\ (property hide <> ""%string
      /\ startEvents hide = []
      /\ delay hide = 0
      /\ returned (updateProperties hide world0) = false
      /\ animationIsPlaying
           (this (after (updateProperties hide world0))) = false
      /\ emitted (el (after (updateProperties hide world0))) = []).
Proof. repeat split; discriminate. Qed.


(** A restart event that leaves the component playing although it was
    not playing when the event fired: with no delay and no start event,
    the rebuild starts the animation whatever the restarting flag is.
    And a restart that builds nothing: the entity has lost the attribute
    the animation starts from, the property read throws, and the engine
    is given no new configuration. *)
Lemma C7_restart_counterexample :
  (delay move_stop_again = 0
   /\ startEvents move_stop_again = []
   /\ animationIsPlaying
        (this (run [Update move_stop_again; Event "stop"] world0)) = false
   /\ animationIsPlaying
        (this (run [Update move_stop_again; Event "stop"; Event "again"]
                 world0))
      = true)
  /\ (let w := run [Update fade_again; Mutate bare] world0 in
      animationIsPlaying (this w) = true
      /\ returned (Animation.restartAnimation w) = false
      /\ List.length (handed w) = 1%nat
      /\ List.length (handed (after (Animation.restartAnimation w))) = 1%nat
      /\ List.length
           (handed (run [Update fade_again; Mutate bare; Event "again"]
                      world0)) = 1%nat).
Proof. vm_compute. repeat split. Qed.

(** ** The two defects *)

(** C2. The code at the failing input: the start event is "go", then the
    parameters change and the start event is "later". After the rebuild
    the listener for "go" is still registered next to the one for
    "later", and dispatching "go" starts the animation although "go" is
    not an event of the current configuration. *)
Theorem C2_listener_of_earlier_config_survives :
  registrations (run [Update move_on_go] world0) = [("go"%string, HBegin)]
  /\ startEvents
       (data (this (run [Update move_on_go; Update move_on_later] world0)))
     = ["later"%string]
  /\ registrations (run [Update move_on_go; Update move_on_later] world0)
     = [("go"%string, HBegin); ("later"%string, HBegin)]
  /\ animationIsPlaying
       (this (run [Update move_on_go; Update move_on_later] world0))
     = false
  /\ animationIsPlaying
       (this (run [Update move_on_go; Update move_on_later; Event "go"]
                world0))
     = true.
Proof. repeat split. Qed.

(** C4. The code at the failing input: the configuration waits for the
    event "go", so after the parameter change the animation is not
    playing. A host pause followed by a host play leaves it playing,
    without "go" and without any "animationbegin": [pause] records [true]
    in [pausedWasPlaying] whatever [animationIsPlaying] is, so [play]
    after [pause] resumes from every state. *)
Theorem C4_play_resumes_an_animation_that_was_not_playing :
  animationIsPlaying (this (run [Update move_on_go] world0)) = false
  /\ animationIsPlaying (this (run [Update move_on_go; Pause; Play] world0))
     = true
  /\ emitted (el (run [Update move_on_go; Pause; Play] world0)) = []
  /\ (forall w : World,
        pausedWasPlaying (this (after (Animation.pause w))) = true
        /\ animationIsPlaying
             (this (after (Animation.play (after (Animation.pause w)))))
           = true).
Proof. repeat split. Qed.
(** ** Instances *)

(** C1 at a run with a frame while playing, a host pause, a frame while
    paused, a host play and another frame. *)
Lemma C1_elapsed_time_witness :
  Forall frame_delta_ok [Tick 0 16; Pause; Tick 16 16; Play; Tick 32 16]
  /\ time (this (run [Update move] world0))
     <= time (this (run [Tick 0 16; Pause; Tick 16 16; Play; Tick 32 16]
                      (run [Update move] world0))).
Proof.
  assert (H : Forall frame_delta_ok
                [Tick 0 16; Pause; Tick 16 16; Play; Tick 32 16])
    by (repeat constructor; simpl; lia).
  split; [exact H|].
  exact (proj1 (C1_elapsed_time_monotone_and_frozen
                  (run [Update move] world0)
                  [Tick 0 16; Pause; Tick 16 16; Play; Tick 32 16]
                  [] 0 16 H)).
Defined.

(** C3 at a delayed configuration replaced after 400 ms by one waiting
    for "go". *)
Lemma C3_stale_timer_witness :
  (property move_delayed <> ""%string
   /\ 0 < delay move_delayed < 2 ^ 31
   /\ returned (updateProperties move_delayed world0) = true
   /\ 0 <= 400 < delay move_delayed)
  /\ (begins
        (emitted
           (el (after (updateProperties move_on_go
                  (after (elapse 400
                     (after (updateProperties move_delayed world0))))))))
      < begins
          (emitted
             (el (after (elapse (delay move_delayed - 400)
                    (after (updateProperties move_on_go
                       (after (elapse 400
                          (after (updateProperties move_delayed
                                    world0)))))))))))%nat.
Proof.
  assert (Hp : property move_delayed <> ""%string) by discriminate.
  assert (Hd : 0 < delay move_delayed < 2 ^ 31) by (simpl; lia).
  assert (Hr : returned (updateProperties move_delayed world0) = true)
    by reflexivity.
  assert (Hms : 0 <= 400 < delay move_delayed) by (simpl; lia).
  split; [auto|].
  exact (proj1 (proj2 (proj2
           (C3_stale_timer_begins_the_rebuilt_animation
              world0 move_delayed move_on_go 400 Hp Hd Hr Hms)))).
Defined.

(** C5 at the configuration [move]. *)
Lemma C5_immediate_start_witness :
  (property move <> ""%string /\ startEvents move = [] /\ delay move = 0
   /\ returned (updateProperties move world0) = true
   /\ hears "animationbegin" world0 = false
   /\ ~ In "animationbegin"%string (event_names move))
  /\ animationIsPlaying (this (after (updateProperties move world0))) = true.
Proof.
  assert (Hp : property move <> ""%string) by discriminate.
  assert (Hn : ~ In "animationbegin"%string (event_names move))
    by (intros []).
  split; [repeat split; assumption|].
  exact (proj1 (proj2 (proj1 (C5_immediate_start_without_delay_or_events
                                world0 move Hp eq_refl eq_refl) eq_refl)
                  eq_refl Hn)).
Defined.


(** C7 at a restart while the animation of [move] is playing. *)
Lemma C7_restart_witness :
  (returned (Animation.restartAnimation (run [Update move] world0)) = true
   /\ animationIsPlaying (this (run [Update move] world0)) = true
   /\ hears "animationbegin" (run [Update move] world0) = false
   /\ ~ In "animationbegin"%string
        (event_names (data (this (run [Update move] world0)))))
  /\ animationIsPlaying
       (this (after (Animation.restartAnimation (run [Update move] world0))))
     = true.
Proof.
  assert (Hn : ~ In "animationbegin"%string
                 (event_names (data (this (run [Update move] world0)))))
    by (intros []).
  split; [repeat split; exact Hn|].
  destruct (C7_restart_rebuilds_and_start_depends_on_playing
              (run [Update move] world0) eq_refl)
    as (_ & _ & _ & _ & H & _).
  exact (proj1 (proj2 (H eq_refl) (conj eq_refl Hn))).
Defined.

(** C8 at [rotation: to 0 90 0] on the reference host. *)
Lemma C8_rotation_witness :
  (property (data (this (reconfigured turn world0))) = "rotation"%string
   /\ is_vector_type
        (getPropertyType host entity "rotation") = true)
  /\ exists g : Config,
       In g (handed (after (Animation.createAndStartAnimation false
                              (reconfigured turn world0))))
       /\ config_y g = Some (PI / 2)%R.
Proof.
  split; [split; reflexivity|].
  destruct (C8_rotation_handed_over_in_radians
              (reconfigured turn world0) false eq_refl eq_refl)
    as (g & _ & Hh & _ & _ & _ & _ & _ & _ & Hy).
  destruct Hh as [n Hh]; [discriminate|].
  exists g. split.
  - rewrite Hh. apply in_or_app. right. left. reflexivity.
  - apply Hy. reflexivity.
Defined.

(** C9 at the schema defaults, whose [property] is empty. *)
Lemma C9_empty_property_witness :
  property schema = ""%string
  /\ updateProperties schema world0
     = Returned tt
         (with_this (set_animationIsPlaying false)
            (with_this (set_data schema) world0)).
Proof.
  split; [reflexivity|].
  exact (proj1 (C9_empty_property_is_silent_noop world0 schema eq_refl)).
Defined.

(** * Further properties of the component *)

(** ** Frames without an animation handle *)

(** X3. The way [tick] does throw: whatever the state, after a host pause
    and a host play the component is playing; if no animation handle
    exists (the property has been empty so far), the next frame adds its
    delta to [this.time] and then throws a TypeError on
    [this.animation.tick], and nothing is given to the engine. *)
Theorem tick_throws_after_pause_and_play_without_handle :
  forall (w : World) (t dt : Z),
    animation (this w) = None ->
    let w' := after (Animation.play (after (Animation.pause w))) in
    animationIsPlaying (this w') = true
    /\ animation (this w') = None
    /\ returned (Animation.tick t dt w') = false
    /\ time (this (after (Animation.tick t dt w'))) = time (this w) + dt
    /\ engine (after (Animation.tick t dt w')) = engine w.
Proof.
  intros w t dt Hnone w'.
  assert (Ha : animation (this w') = None) by exact Hnone.
  assert (Hp : animationIsPlaying (this w') = true) by reflexivity.
  split; [exact Hp|]. split; [exact Ha|].
  unfold Animation.tick, Methods.tick, bind, read, modify. rewrite Hp.
  cbn [negb this with_this animation set_time]. rewrite Ha.
  repeat split.
Qed.

(** ** Detaching *)

Lemma attaching_frame (w : World) :
  exists (l : list Listener) (n : nat),
    after (Methods.addEventListeners w) = with_el (set_listeners l n) w.
Proof.
  unfold Methods.addEventListeners, modify. cbn [after]. unfold with_el.
  cbn [el this AFRAME animejs timers clock engine handed stack]. cbv zeta.
  repeat match goal with
  | |- context [addEventListeners ?e ?names ?h] =>
      let l := fresh "l" in
      let n := fresh "n" in
      let H := fresh "H" in
      destruct (addEventListeners_frame names h e) as (l & n & H);
      rewrite H; clear H
  end.
  do 2 eexists. unfold set_listeners. cbn. reflexivity.
Qed.

Lemma detaching_frame (w : World) :
  exists (l : list Listener) (n : nat),
    after (Methods.removeEventListeners w) = with_el (set_listeners l n) w.
Proof.
  unfold Methods.removeEventListeners, modify. cbn [after]. unfold with_el.
  cbn [el this AFRAME animejs timers clock engine handed stack]. cbv zeta.
  repeat match goal with
  | |- context [removeEventListeners ?e ?names ?h] =>
      let l := fresh "l" in
      let n := fresh "n" in
      let H := fresh "H" in
      destruct (removeEventListeners_frame names h e) as (l & n & H);
      rewrite H; clear H
  end.
  do 2 eexists. unfold set_listeners. cbn. reflexivity.
Qed.

Lemma remove_eq (w : World) :
  Animation.remove w
  = Returned tt
      (after (Methods.removeEventListeners
                (with_this (set_animationIsPlaying false) w))).
Proof. reflexivity. Qed.

Lemma pause_eq (w : World) :
  Animation.pause w
  = Returned tt
      (after (Methods.removeEventListeners
                (with_this (set_animationIsPlaying false)
                   (with_this (set_pausedWasPlaying true)
                      (with_this (set_paused true) w))))).
Proof. reflexivity. Qed.

(** X6. [remove] and the host [pause] detach the component: every trigger
    of the current configuration is unregistered, the component is not
    playing, nothing is emitted, no timer is scheduled, and a frame that
    follows changes nothing. *)
Theorem remove_and_pause_detach_current_triggers :
  forall (w : World) (name : string) (h : Handler) (t dt : Z),
    In (name, h) (triggers (data (this w))) ->
    let wr := after (Animation.remove w) in
    let wp := after (Animation.pause w) in
    registered_for name h wr = false
    /\ registered_for name h wp = false
    /\ animationIsPlaying (this wr) = false
    /\ animationIsPlaying (this wp) = false
    /\ emitted (el wr) = emitted (el w)
    /\ emitted (el wp) = emitted (el w)
    /\ timers wr = timers w
    /\ timers wp = timers w
    /\ Animation.tick t dt wr = Returned tt wr
    /\ Animation.tick t dt wp = Returned tt wp.
Proof.
  intros w name h t dt H wr wp.
  split; [exact (detaching_unregisters
                   (with_this (set_animationIsPlaying false) w) name h H)|].
  split; [exact (detaching_unregisters
                   (with_this (set_animationIsPlaying false)
                      (with_this (set_pausedWasPlaying true)
                         (with_this (set_paused true) w))) name h H)|].
  split; [reflexivity|]. split; [reflexivity|].
  split.
  { unfold wr. rewrite remove_eq. cbn [after].
    rewrite detaching_keeps_emitted. reflexivity. }
  split.
  { unfold wp. rewrite pause_eq. cbn [after].
    rewrite detaching_keeps_emitted. reflexivity. }
  split; [reflexivity|]. split; [reflexivity|].
  split; apply tick_not_playing; reflexivity.
Qed.

(** ** The host [play] *)

Lemma play_not_paused (w : World) :
  paused (this w) = false -> Animation.play w = Returned tt w.
Proof.
  intro H. unfold Animation.play, Methods.play, bind, read.
  rewrite H. reflexivity.
Qed.

Lemma play_paused (w : World) :
  paused (this w) = true ->
  Animation.play w
  = Returned tt
      (let w1 := after (Methods.addEventListeners
                          (with_this (set_paused false) w)) in
       if pausedWasPlaying (this w)
       then with_this (set_pausedWasPlaying false)
              (with_this (set_animationIsPlaying true) w1)
       else w1).
Proof.
  intro H. unfold Animation.play, Methods.play, bind, read.
  rewrite H. cbn [negb]. unfold modify at 1.
  change (Methods.addEventListeners ?x)
    with (Returned tt (after (Methods.addEventListeners x))).
  cbv iota beta.
  change (pausedWasPlaying
            (this (after (Methods.addEventListeners
                            (with_this (set_paused false) w)))))
    with (pausedWasPlaying (this w)).
  destruct (pausedWasPlaying (this w)); reflexivity.
Qed.

Lemma play_unpauses (w : World) :
  paused (this (after (Animation.play w))) = false.
Proof.
  destruct (paused (this w)) eqn:E.
  - rewrite (play_paused w E). cbn [after]. cbv zeta.
    destruct (pausedWasPlaying (this w)); reflexivity.
  - rewrite (play_not_paused w E). exact E.
Qed.

(** [play] changes the listener list and the three flags only. *)
Lemma play_frame (w : World) :
  exists (l : list Listener) (n : nat) (b1 b2 b3 : bool),
    after (Animation.play w)
    = with_el (set_listeners l n)
        (with_this (fun c => set_pausedWasPlaying b3
                               (set_animationIsPlaying b2
                                  (set_paused b1 c))) w).
Proof.
  destruct (paused (this w)) eqn:E.
  - rewrite (play_paused w E). cbn [after]. cbv zeta.
    destruct (attaching_frame (with_this (set_paused false) w))
      as (l & n & Hf). rewrite Hf.
    destruct (pausedWasPlaying (this w)) eqn:Ew.
    + exists l, n, false, true, false. reflexivity.
    + exists l, n, false, (animationIsPlaying (this w)), false.
      destruct w as [c e G J ts ck en hd st]. destruct c.
      cbn in Ew. subst. reflexivity.
  - rewrite (play_not_paused w E). cbn [after].
    exists (listeners (el w)), (nextListener (el w)), (paused (this w)),
      (animationIsPlaying (this w)), (pausedWasPlaying (this w)).
    destruct w as [c e G J ts ck en hd st]. destruct c, e. reflexivity.
Qed.

(** X8. The host [play] does nothing unless the host has paused the
    component, so a second [play] in a row does nothing; and in every case
    it emits no notification, schedules no timer, and leaves the
    configuration, the animation handle, the data, the elapsed time and
    the engine as they were. *)
Theorem play_is_idempotent_and_silent :
  forall (w : World),
    (paused (this w) = false -> Animation.play w = Returned tt w)
    /\ Animation.play (after (Animation.play w))
       = Returned tt (after (Animation.play w))
    /\ returned (Animation.play w) = true
    /\ emitted (el (after (Animation.play w))) = emitted (el w)
    /\ timers (after (Animation.play w)) = timers w
    /\ config (this (after (Animation.play w))) = config (this w)
    /\ animation (this (after (Animation.play w))) = animation (this w)
    /\ data (this (after (Animation.play w))) = data (this w)
    /\ time (this (after (Animation.play w))) = time (this w)
    /\ engine (after (Animation.play w)) = engine w.
Proof.
  intro w.
  split; [apply play_not_paused|].
  split; [apply play_not_paused; apply play_unpauses|].
  split; [apply play_total|].
  destruct (play_frame w) as (l & n & b1 & b2 & b3 & E). rewrite E.
  repeat split.
Qed.

(** ** Pause and resume by triggers *)

Lemma resume_after_pause_playing (w : World) :
  animationIsPlaying (this w) = true ->
  with_this (set_animationIsPlaying true)
    (with_this (set_animationIsPlaying false) w) = w.
Proof.
  intro H. destruct w as [c e G J ts ck en hd st]. destruct c. cbn in *.
  subst. reflexivity.
Qed.

(** X9. A pause trigger, any number of frames, then a resume trigger put
    a playing component back exactly where it was: same elapsed time,
    nothing given to the engine, nothing emitted, same listeners. (The
    events are taken to have the pause and the resume handler as their
    only listener.) *)
Theorem pause_frames_resume_is_identity :
  forall (w : World) (p r : string) (lp lr : Listener) (l : list (Z * Z)),
    animationIsPlaying (this w) = true ->
    filter (fun l' => String.eqb (lname l') p) (listeners (el w)) = [lp] ->
    lhandler lp = HPause ->
    filter (fun l' => String.eqb (lname l') r) (listeners (el w)) = [lr] ->
    lhandler lr = HResume ->
    run (Event p :: frames l ++ [Event r]) w = w.
Proof.
  intros w p r lp lr l Hplay Hp Hhp Hr Hhr.
  rewrite run_cons. unfold step at 1. cbn [handle].
  rewrite (dispatchEvent_single p lp w Hp), Hhp.
  cbn [after].
  change (after (Animation.invoke HPause w))
    with (with_this (set_animationIsPlaying false) w).
  rewrite run_app.
  rewrite run_frames_not_playing by reflexivity.
  cbn [run fold_left]. unfold step. cbn [handle].
  rewrite (dispatchEvent_single r lr
             (with_this (set_animationIsPlaying false) w) Hr), Hhr.
  cbn [after].
  change (after (Animation.invoke HResume
                   (with_this (set_animationIsPlaying false) w)))
    with (with_this (set_animationIsPlaying true)
            (with_this (set_animationIsPlaying false) w)).
  apply resume_after_pause_playing. exact Hplay.
Qed.

(** ** Listeners of an earlier configuration *)

(** X10. A listener that the new parameters do not name is never taken
    off by a parameter change: whatever handler it is and whether or not
    the new [property] is empty, a registration that is not a trigger of
    the new data is still there when [update] returns or throws, and so
    is still called when its event is dispatched. *)
Theorem stale_trigger_survives_parameter_change :
  forall (w : World) (d : Data) (name : string) (k : Handler),
    ~ In (name, k) (triggers d) ->
    registered_for name k w = true ->
    registered_for name k (after (updateProperties d w)) = true.
Proof.
  intros w d name k _ H.
  exact (handle_keeps_registered name k (Update d) I w H).
Qed.

(** ** The configuration object is reused *)

(** X13. The configuration object is reused, and a rebuild only writes
    the keys of its own path. A vector rebuild leaves [aframeProperty]
    as an earlier default rebuild set it, and leaves [w] as it was when
    the new [to] has no fourth coordinate; a default rebuild leaves x, y,
    z and w as an earlier vector rebuild set them. Neither changes the
    base keys written by [update]. *)
Theorem rebuild_keeps_keys_of_the_other_path :
  forall (w : World) (r : bool),
    let d := data (this w) in
    let vector :=
      is_vector_type (getPropertyType (AFRAME w) (el w) (property d)) in
    let g0 := config (this w) in
    let g := config (this (after (Animation.createAndStartAnimation r w))) in
    (vector = true ->
     aframeProperty g = aframeProperty g0
     /\ (vw (coordinates_parse (AFRAME w) (to d)) = None ->
         config_w g = config_w g0))
    /\ (vector = false ->
        config_x g = config_x g0 /\ config_y g = config_y g0
        /\ config_z g = config_z g0 /\ config_w g = config_w g0)
    /\ autoplay g = autoplay g0
    /\ direction g = direction g0
    /\ duration g = duration g0
    /\ config_easing g = config_easing g0
    /\ config_elasticity g = config_elasticity g0
    /\ config_loop g = config_loop g0.
Proof.
  intros w r d vector g0 g.
  destruct (unresolvable w) eqn:Hu.
  - assert (E : g = g0).
    { unfold g, Animation.createAndStartAnimation.
      rewrite createAndStartAnimation_eq.
      destruct (configure_throws w Hu) as [e He]. rewrite He.
      reflexivity. }
    rewrite E. repeat split.
  - destruct (createAndStartAnimation_hands r w Hu) as (_ & Hc & _).
    cbv zeta in Hc. fold g in Hc. rewrite Hc.
    unfold resolved. cbv zeta. fold d. fold vector. fold g0.
    split; [|split].
    + intro Hv. rewrite Hv. cbn [aframeProperty config_w set_vector].
      split; [reflexivity|].
      intro Hw. destruct (String.eqb (property d) "rotation");
        cbn [toRadians vw]; rewrite Hw; reflexivity.
    + intro Hv. rewrite Hv. repeat split.
    + destruct vector; repeat split.
Qed.

(** ** Events the configuration does not name *)

(** X19. An event that the configuration does not name does nothing: on
    an entity that had no listener of the component before the parameter
    change, dispatching any event whose name is in none of the four lists
    returns with the world exactly as it was. *)
Theorem unnamed_event_changes_nothing :
  forall (w : World) (d : Data) (name : string),
    listeners (el w) = [] ->
    ~ In name (event_names d) ->
    dispatchEvent name (after (updateProperties d w))
    = Returned tt (after (updateProperties d w)).
Proof.
  intros w d name Hl Hn.
  apply dispatchEvent_unheard.
  pose proof (emit_keeps_unheard d name Hn) as HE.
  assert (K : preserves
                (fun u => data (this u) = d /\ hears name u = false)
                Animation.update).
  { by_handlers unheard_side. }
  unfold updateProperties. unfold bind at 1. unfold modify at 1.
  apply K. split; [reflexivity|].
  unfold hears. cbn [el with_this]. rewrite Hl. reflexivity.
Qed.
(** ** What can throw *)

Lemma tick_returns (t dt : Z) (w : World) :
  animation (this w) <> None -> returned (Animation.tick t dt w) = true.
Proof.
  intro Ha. unfold Animation.tick, Methods.tick.
  unfold bind at 1. unfold read at 1.
  destruct (animationIsPlaying (this w)); cbn [negb]; [|reflexivity].
  unfold bind at 1. unfold modify at 1.
  unfold bind at 1. unfold read at 1.
  cbn [animation this with_this set_time].
  destruct (animation (this w)) as [h|]; [|contradiction].
  match goal with
  | |- returned (?m ?u) = true => cut (total m); [intro K; apply K|]
  end.
  apply total_bind; [apply total_modify|intro].
  apply total_bind; [apply total_read|intro f].
  apply total_bind.
  - destruct (frame_value f); [|apply total_ret].
    unfold Methods.run_update. destruct (config_update h); totality.
  - intro. destruct (frame_complete f); [|apply total_ret].
    unfold Methods.run_complete. destruct (config_complete h);
      [apply total_ret|].
    apply total_bind; [apply total_read|intro]. apply emit_total.
Qed.

(** With no animation handle the state is inert: the component is not
    playing and has neither listener nor timer, so no host call but a
    parameter change does anything to the play state. *)
Lemma inert_step (s : Stimulus) (w : World) :
  handle_ready w ->
  animation (this w) = None ->
  not_pause s ->
  (match s with Update _ => True | _ => returned (handle s w) = true end)
  /\ handle_ready (after (handle s w)).
Proof.
  intros [Hpa Hin] Hnone Hs.
  destruct (Hin Hnone) as (Hpl & Hli & Hti).
  destruct s as [d|t dt| | | |name|ms|p]; try contradiction; cbn [handle].
  - split; [exact I|].
    destruct (String.eqb_spec (property d) "") as [E|E].
    + rewrite (updateProperties_empty d w E). cbn [after].
      split; [exact Hpa|]. intros _. repeat split; assumption.
    + rewrite (updateProperties_rebuilds d w E).
      destruct (returned (Animation.createAndStartAnimation false
                            (reconfigured d w))) eqn:Hr.
      * destruct (createAndStartAnimation_settles false _ Hr)
          as (_ & _ & Han & _).
        split.
        -- apply (handle_keeps_unpaused (Update d) I w) in Hpa.
           cbn [handle] in Hpa.
           rewrite (updateProperties_rebuilds d w E) in Hpa. exact Hpa.
        -- rewrite Han. discriminate.
      * destruct (createAndStartAnimation_thrown false _ Hr)
          as (g & l & Eq).
        rewrite Eq. split; [exact Hpa|]. intros _.
        repeat split; assumption.
  - rewrite (tick_not_playing t dt w Hpl). cbn [after].
    split; [reflexivity|]. split; [exact Hpa|]. intros _.
    repeat split; assumption.
  - rewrite (play_not_paused w Hpa). cbn [after].
    split; [reflexivity|]. split; [exact Hpa|]. intros _.
    repeat split; assumption.
  - rewrite remove_eq. cbn [after returned].
    split; [reflexivity|]. split; [exact Hpa|]. intros _.
    split; [reflexivity|]. split; [|exact Hti].
    apply (detaching_nil (with_this (set_animationIsPlaying false) w)).
    exact Hli.
  - rewrite dispatchEvent_unheard
      by (unfold hears; rewrite Hli; reflexivity).
    cbn [after]. split; [reflexivity|]. split; [exact Hpa|]. intros _.
    repeat split; assumption.
  - rewrite elapse_eq. rewrite Hti. cbn [filter for_each].
    cbn [after ret returned].
    split; [reflexivity|]. split; [exact Hpa|]. intros _.
    repeat split; try assumption.
    cbn [timers with_clock with_timers]. rewrite Hti. reflexivity.
  - cbn [after modify returned]. split; [reflexivity|].
    split; [exact Hpa|]. intros _. repeat split; assumption.
Qed.

Lemma ready_step (s : Stimulus) (w : World) :
  handle_ready w ->
  not_pause s ->
  (match s with Update _ => True | _ => returned (handle s w) = true end)
  /\ handle_ready (after (handle s w)).
Proof.
  intros Hw Hs.
  destruct (animation (this w)) as [a|] eqn:Ha.
  - assert (Hsome : animation (this w) <> None) by (rewrite Ha; discriminate).
    split.
    + destruct s as [d|t dt| | | |name|ms|p]; try contradiction;
        cbn [handle].
      * exact I.
      * apply tick_returns. exact Hsome.
      * apply play_total.
      * apply remove_total.
      * apply dispatchEvent_total.
      * apply elapse_total.
      * reflexivity.
    + split.
      * apply (handle_keeps_unpaused s Hs w). exact (proj1 Hw).
      * intro Hn. exfalso.
        exact (handle_keeps_handle s w Hsome Hn).
  - apply inert_step; assumption.
Qed.

(** X2. As long as the host has not paused the component, only a
    parameter change can throw: from a state in which a missing animation
    handle means not playing, no listener and no timer (the state [init]
    leaves), every frame, play, removal, event and timer returns
    normally, whether or not parameter changes in between threw, and the
    state stays of that kind. In particular [tick] never reaches
    [this.animation.tick] with [this.animation] still null. *)
Theorem only_parameter_changes_throw_before_a_host_pause :
  forall (ss : list Stimulus) (w : World),
    handle_ready w ->
    Forall not_pause ss ->
    only_updates_throw ss w = true /\ handle_ready (run ss w).
Proof.
  induction ss as [|s r IH]; intros w Hw Hss.
  - split; [reflexivity|exact Hw].
  - inversion Hss as [|? ? Hs Hr]; subst.
    destruct (ready_step s w Hw Hs) as [Hret Hready].
    destruct (IH (after (handle s w)) Hready Hr) as [IHr IHw].
    rewrite run_cons. cbn [only_updates_throw].
    split; [|exact IHw].
    rewrite IHr. destruct s; try rewrite Hret; reflexivity.
Qed.

(** X22. A parameter change with a non-empty [property] returns exactly
    when the configuration can be resolved and the engine accepts it.
    When it throws, nothing has been started: the animation handle, the
    listeners, the timers and the notifications are as they were, and
    the component is not playing. *)
Theorem parameter_change_throws_before_anything_starts :
  forall (w : World) (d : Data),
    property d <> ""%string ->
    let w' := reconfigured d w in
    returned (updateProperties d w)
    = negb (unresolvable w')
      && accepts (animejs w) (resolved w' (config (this w')))
    /\ (returned (updateProperties d w) = false ->
        animation (this (after (updateProperties d w))) = animation (this w)
        /\ el (after (updateProperties d w)) = el w
        /\ timers (after (updateProperties d w)) = timers w
        /\ animationIsPlaying (this (after (updateProperties d w))) = false).
Proof.
  intros w d Hp w'. rewrite (updateProperties_rebuilds d w Hp). fold w'.
  split; [exact (createAndStartAnimation_returned false w')|].
  intro Hr. destruct (createAndStartAnimation_thrown false w' Hr)
    as (g & l & E).
  rewrite E. repeat split.
Qed.

(** ** What the tween engine is fed *)

Lemma invoke_keeps_engine (x : list Z) :
  forall E : string -> string -> M unit,
    (forall n d, preserves (fun u => engine u = x) (E n d)) ->
    forall h, preserves (fun u => engine u = x) (Methods.invoke E h).
Proof. handlers_keep untouched. Qed.

Lemma emit_keeps_engine (x : list Z) (n d : string) :
  preserves (fun u => engine u = x) (emit n d).
Proof.
  apply emit_preserves; [apply invoke_keeps_engine|untouched].
Qed.

Lemma handle_keeps_engine (s : Stimulus) :
  (forall t dt, s <> Tick t dt) -> keeps engine (handle s).
Proof.
  intro H. apply keeps_of_preserves. intro x.
  pose proof (emit_keeps_engine x) as HE.
  destruct s; try (exfalso; eapply H; reflexivity);
    by_stimulus untouched.
Qed.

(** A frame of a playing component with a handle gives the engine the new
    elapsed time, whatever the engine's callbacks then do. *)
Lemma tick_feeds (t dt : Z) (w : World) :
  animationIsPlaying (this w) = true ->
  animation (this w) <> None ->
  returned (Animation.tick t dt w) = true
  /\ time (this (after (Animation.tick t dt w))) = time (this w) + dt
  /\ engine (after (Animation.tick t dt w))
     = engine w ++ [time (this w) + dt].
Proof.
  intros Hp Ha.
  split; [apply tick_returns; exact Ha|].
  split; [apply tick_playing; exact Hp|].
  unfold Animation.tick, Methods.tick.
  unfold bind at 1. unfold read at 1. rewrite Hp. cbn [negb].
  unfold bind at 1. unfold modify at 1.
  unfold bind at 1. unfold read at 1.
  cbn [animation this with_this set_time].
  destruct (animation (this w)) as [h|]; [|contradiction].
  unfold bind at 1. unfold modify at 1.
  cbn [time this with_this set_time].
  set (w1 := with_engine _ _).
  change (engine w ++ [time (this w) + dt]) with (engine w1).
  generalize w1. clear. intro w.
  pose proof (emit_keeps_engine (engine w)) as HE.
  match goal with
  | |- engine (after (?m w)) = _ =>
      cut (preserves (fun u => engine u = engine w) m)
  end.
  - intro K. apply K. reflexivity.
  - by_handlers untouched.
Qed.

(** A frame in closed form for a playing component with a handle, when
    nothing listens to "animationcomplete": the play state stays. *)
Lemma tick_stays_playing (t dt : Z) (w : World) :
  animationIsPlaying (this w) = true ->
  hears "animationcomplete" w = false ->
  animationIsPlaying (this (after (Animation.tick t dt w))) = true
  /\ animation (this (after (Animation.tick t dt w))) = animation (this w)
  /\ listeners (el (after (Animation.tick t dt w))) = listeners (el w).
Proof.
  intros Hp Hh.
  destruct (tick_unheard t dt w Hh) as (tm & eng & p & o3 & em & E & _).
  rewrite E. repeat split. exact Hp.
Qed.

(** X4. While the component is playing and has an animation handle, and
    nothing listens to "animationcomplete", each frame returns, adds its
    delta to [this.time] and gives the engine exactly the new total, so
    after a run of frames the engine has received the running totals in
    order and the component is still playing; while it is not playing,
    frames change nothing and the engine receives nothing. *)
Theorem frames_feed_running_totals :
  forall (l : list (Z * Z)) (w : World),
    (animationIsPlaying (this w) = true ->
     animation (this w) <> None ->
     hears "animationcomplete" w = false ->
     returns_throughout (frames l) w = true
     /\ time (this (run (frames l) w))
        = time (this w) + fold_right Z.add 0 (map snd l)
     /\ engine (run (frames l) w)
        = engine w ++ running_totals (time (this w)) (map snd l)
     /\ animationIsPlaying (this (run (frames l) w)) = true)
    /\ (animationIsPlaying (this w) = false ->
        run (frames l) w = w /\ returns_throughout (frames l) w = true).
Proof.
  intros l w. split.
  - revert w. induction l as [|f r IH]; intros w Hp Ha Hh.
    + cbn. rewrite Z.add_0_r, app_nil_r. repeat split. exact Hp.
    + change (frames (f :: r)) with (Tick (fst f) (snd f) :: frames r).
      rewrite run_cons. cbn [returns_throughout map fold_right
                              running_totals].
      unfold step. cbn [handle].
      destruct (tick_feeds (fst f) (snd f) w Hp Ha) as (Hr & Ht & He).
      destruct (tick_stays_playing (fst f) (snd f) w Hp Hh)
        as (Hp' & Ha' & Hl').
      assert (Ha2 : animation
                      (this (after (Animation.tick (fst f) (snd f) w)))
                    <> None) by (rewrite Ha'; exact Ha).
      assert (Hh2 : hears "animationcomplete"
                      (after (Animation.tick (fst f) (snd f) w)) = false).
      { rewrite (hears_listeners _ _ w Hl'). exact Hh. }
      destruct (IH _ Hp' Ha2 Hh2) as (IHr & IHt & IHe & IHp).
      rewrite Hr, IHr, IHt, IHe, IHp, Ht, He.
      rewrite <- app_assoc. repeat split. lia.
  - intro Hp. split; [apply run_frames_not_playing; exact Hp|].
    induction l as [|f r IH]; [reflexivity|].
    change (frames (f :: r)) with (Tick (fst f) (snd f) :: frames r).
    cbn [returns_throughout handle].
    rewrite (tick_not_playing _ _ w Hp). exact IH.
Qed.

(** X5. A rebuild does not reset [this.time]: after a parameter change
    that returns and starts at once (non-empty property, no delay, no
    start events, nothing listening to "animationbegin"), the first
    frame gives the new animation the time accumulated before the change
    plus the frame delta, not the frame delta. *)
Theorem rebuild_continues_from_accumulated_time :
  forall (w : World) (d : Data) (t dt : Z),
    property d <> ""%string ->
    delay d = 0 ->
    startEvents d = [] ->
    returned (updateProperties d w) = true ->
    hears "animationbegin" w = false ->
    ~ In "animationbegin"%string (event_names d) ->
    let w1 := after (updateProperties d w) in
    time (this w1) = time (this w)
    /\ returned (Animation.tick t dt w1) = true
    /\ engine (after (Animation.tick t dt w1))
       = engine w ++ [time (this w) + dt].
Proof.
  intros w d t dt Hp Hd Hs Hr Hh Hn w1.
  assert (Ht : time (this w1) = time (this w)).
  { apply (handle_keeps_time (Update d)). discriminate. }
  assert (He : engine w1 = engine w).
  { apply (handle_keeps_engine (Update d)). discriminate. }
  assert (Hw1 : animationIsPlaying (this w1) = true
                /\ animation (this w1) <> None).
  { unfold w1. revert Hr. rewrite (updateProperties_rebuilds d w Hp).
    intro Hr.
    rewrite (createAndStartAnimation_unheard false _ Hr)
      by (intros _; split; assumption).
    cbn [after]. rewrite rebuilt_playing.
    destruct (rebuilt_handle false (reconfigured d w)) as (Ha & _).
    rewrite Ha. split; [|discriminate].
    apply starts_now_plain; assumption. }
  destruct Hw1 as [Hplay Ha].
  destruct (tick_feeds t dt w1 Hplay Ha) as (Hret & _ & Heng).
  rewrite Heng, Ht, He. repeat split. exact Hret.
Qed.

(** ** Registration of the triggers *)

(** X7. Every rebuild that returns, and every host play after a host
    pause, leaves each trigger of the configuration registered with its
    handler: start events with [beginAnimation], pause events with
    [pauseAnimation], resume events with [resumeAnimation], restart events
    with [restartAnimation]. This holds also when listeners of
    "animationbegin" restart the animation during the rebuild. *)
Theorem rebuild_and_play_register_every_trigger :
  forall (w : World) (d : Data) (name : string) (h : Handler) (r : bool),
    In (name, h) (triggers d) ->
    (data (this w) = d ->
     returned (Animation.createAndStartAnimation r w) = true ->
     registered_for name h (after (Animation.createAndStartAnimation r w))
     = true)
    /\ (data (this w) = d ->
        registered_for name h
          (after (Animation.play (after (Animation.pause w)))) = true)
    /\ (property d <> ""%string ->
        returned (updateProperties d w) = true ->
        registered_for name h (after (updateProperties d w)) = true).
Proof.
  intros w d name h r Hin. split; [|split].
  - intros Hd Hr. apply createAndStartAnimation_registers; [exact Hr|].
    rewrite Hd. exact Hin.
  - intro Hd. rewrite pause_eq. cbn [after].
    rewrite play_paused
      by (destruct (detaching_frame
                      (with_this (set_animationIsPlaying false)
                         (with_this (set_pausedWasPlaying true)
                            (with_this (set_paused true) w))))
            as (l & n & E); rewrite E; reflexivity).
    cbn [after]. cbv zeta.
    match goal with
    | |- context [Methods.addEventListeners ?u] =>
        assert (K : registered_for name h
                      (after (Methods.addEventListeners u)) = true)
    end.
    { apply attaching_registers.
      destruct (detaching_frame
                  (with_this (set_animationIsPlaying false)
                     (with_this (set_pausedWasPlaying true)
                        (with_this (set_paused true) w))))
        as (l & n & E). rewrite E.
      cbn [data this with_el with_this set_paused set_pausedWasPlaying
           set_animationIsPlaying].
      rewrite Hd. exact Hin. }
    match goal with
    | |- context [if ?b then _ else _] => destruct b
    end; exact K.
  - intros Hp Hr. revert Hr. rewrite (updateProperties_rebuilds d w Hp).
    intro Hr. apply createAndStartAnimation_registers; [exact Hr|].
    exact Hin.
Qed.

(** X23. Only the host takes listeners off for good: whatever parameter
    changes, frames, plays, events and timers follow, and whatever the
    handlers do when the component's notifications reach them, a
    registered trigger stays registered until a host pause or a
    removal. *)
Theorem registrations_stay_until_pause_or_remove :
  forall (ss : list Stimulus) (w : World) (name : string) (k : Handler),
    Forall not_detaching ss ->
    registered_for name k w = true ->
    registered_for name k (run ss w) = true.
Proof.
  induction ss as [|s r IH]; intros w name k Hss H.
  - exact H.
  - inversion Hss as [|? ? Hs Hr]; subst. rewrite run_cons.
    apply IH; [exact Hr|].
    exact (handle_keeps_registered name k s Hs w H).
Qed.
(** ** The two paths of the configuration *)

(** X11. A property whose component is neither on the entity nor
    registered globally has no type, and the rebuild takes the default
    path: [targets] is the object holding the resolved [from] (the given
    string, or else the value read from the entity), the end value is the
    [to] string under the key [aframeProperty], the update writes through
    [setComponentProperty], and the keys x, y, z, w are left as they
    were. The engine is given this configuration, and it is the handle
    kept if the engine accepts it. (When [from] is not given, the
    property read is taken not to throw.) *)
Theorem unknown_component_takes_default_path :
  forall (w : World) (r : bool),
    let d := data (this w) in
    let name := nth 0 (split "." (property d)) EmptyString in
    components (el w) name = Missing ->
    registered (AFRAME w) name = Missing ->
    (from d = ""%string ->
     getComponentProperty_throws (el w) (property d) = false) ->
    let w' := after (Animation.createAndStartAnimation r w) in
    let g := config (this w') in
    getPropertyType (AFRAME w) (el w) (property d) = Some None
    /\ (exists n : nat, handed w' = handed w ++ repeat g (S n))
    /\ (accepts (animejs w) g = true -> animation (this w') = Some g)
    /\ targets g
       = TargetsObject (if truthy (from d) then VString (from d)
                        else getComponentProperty (el w) (property d))
    /\ aframeProperty g = Some (to d)
    /\ config_update g = UpdateDefault (property d)
    /\ config_x g = config_x (config (this w))
    /\ config_y g = config_y (config (this w))
    /\ config_z g = config_z (config (this w))
    /\ config_w g = config_w (config (this w)).
Proof.
  intros w r d name Hc Hg Hread w' g.
  assert (Ht : getPropertyType (AFRAME w) (el w) (property d) = Some None).
  { unfold getPropertyType. cbv zeta. fold name. rewrite Hc, Hg.
    reflexivity. }
  assert (Hu : unresolvable w = false).
  { unfold unresolvable. cbv zeta. fold d. rewrite Ht.
    cbn [is_vector_type andb orb].
    destruct (truthy (from d)) eqn:Hf; [reflexivity|].
    cbn [negb andb]. rewrite Hread; [reflexivity|].
    unfold truthy in Hf. apply negb_false_iff in Hf.
    apply String.eqb_eq. exact Hf. }
  destruct (createAndStartAnimation_hands r w Hu) as (Hh & Hcfg & Ha).
  cbv zeta in Hh, Hcfg, Ha. fold w' in Hh, Hcfg, Ha. fold g in Hcfg.
  split; [exact Ht|].
  split; [rewrite Hcfg; exact Hh|].
  split; [rewrite Hcfg; exact Ha|].
  rewrite Hcfg. unfold resolved. cbv zeta. fold d. rewrite Ht.
  cbn [is_vector_type]. repeat split.
Qed.

(** X14. A parameter change with a non-empty property writes the base
    keys of the configuration object from the new data before anything
    can throw: [autoplay] is false, and direction, duration, easing,
    elasticity and loop are [dir], [dur], [easing], [elasticity] and
    [loop]. When the change returns, this configuration is the handle
    kept and all the engine was given. *)
Theorem parameter_change_writes_base_keys :
  forall (w : World) (d : Data),
    property d <> ""%string ->
    let w' := after (updateProperties d w) in
    let g := config (this w') in
    autoplay g = Some false
    /\ direction g = Some (dir d)
    /\ duration g = Some (dur d)
    /\ config_easing g = Some (easing d)
    /\ config_elasticity g = Some (elasticity d)
    /\ config_loop g = Some (loop d)
    /\ (returned (updateProperties d w) = true ->
        animation (this w') = Some g
        /\ exists n : nat, handed w' = handed w ++ repeat g (S n)).
Proof.
  intros w d Hp w' g. subst g w'.
  rewrite (updateProperties_rebuilds d w Hp).
  set (u := reconfigured d w).
  assert (Hbase : forall g : Config,
             (g = config (this u) \/ g = resolved u (config (this u))) ->
             autoplay g = Some false
             /\ direction g = Some (dir d)
             /\ duration g = Some (dur d)
             /\ config_easing g = Some (easing d)
             /\ config_elasticity g = Some (elasticity d)
             /\ config_loop g = Some (loop d)).
  { intros g [E|E]; rewrite E.
    - repeat split.
    - unfold resolved. cbv zeta. destruct (is_vector_type _); repeat split. }
  destruct (unresolvable u) eqn:Hu.
  - assert (E : after (Animation.createAndStartAnimation false u) = u).
    { unfold Animation.createAndStartAnimation.
      rewrite createAndStartAnimation_eq.
      destruct (configure_throws u Hu) as [e He]. rewrite He. reflexivity. }
    rewrite E.
    destruct (Hbase (config (this u)) (or_introl eq_refl))
      as (H1 & H2 & H3 & H4 & H5 & H6).
    repeat split; try assumption;
      rewrite createAndStartAnimation_returned, Hu in *; discriminate.
  - destruct (createAndStartAnimation_hands false u Hu) as (Hh & Hc & Ha).
    cbv zeta in Hh, Hc, Ha. rewrite Hc.
    destruct (Hbase (resolved u (config (this u))) (or_intror eq_refl))
      as (H1 & H2 & H3 & H4 & H5 & H6).
    repeat split; try assumption.
    rewrite createAndStartAnimation_returned, Hu in H.
    apply Ha. exact H.
Qed.

(** ** Waiting for a start event *)

Lemma idle_step (s : Stimulus) (u : World) :
  passes_time s ->
  animationIsPlaying (this u) = false ->
  timers u = [] ->
  animationIsPlaying (this (after (handle s u))) = false
  /\ timers (after (handle s u)) = []
  /\ emitted (el (after (handle s u))) = emitted (el u)
  /\ listeners (el (after (handle s u))) = listeners (el u)
  /\ time (this (after (handle s u))) = time (this u)
  /\ engine (after (handle s u)) = engine u.
Proof.
  intros Hs Hp Ht. destruct s as [d|t dt| | | |name|ms|p];
    try contradiction; cbn [handle].
  - rewrite (tick_not_playing t dt u Hp). cbn [after].
    repeat split; assumption.
  - rewrite elapse_eq, Ht. cbn [filter for_each]. cbn [after ret].
    cbn [this el timers engine with_clock with_timers]. rewrite Ht.
    repeat split. exact Hp.
Qed.

(** X15. A configuration with start events and no delay waits: after the
    parameter change (no timer of an earlier build pending), however many
    frames pass and however far the clock advances, the component is not
    playing, has emitted nothing, has given the engine nothing and its
    elapsed time has not moved, whether the change returned or threw;
    and if it returned, [beginAnimation] is still registered for each
    start event. *)
Theorem armed_component_waits_for_a_start_event :
  forall (ss : list Stimulus) (w : World) (d : Data) (name : string),
    property d <> ""%string ->
    delay d = 0 ->
    In name (startEvents d) ->
    timers w = [] ->
    Forall passes_time ss ->
    let w' := run ss (after (updateProperties d w)) in
    animationIsPlaying (this w') = false
    /\ emitted (el w') = emitted (el w)
    /\ engine w' = engine w
    /\ time (this w') = time (this w)
    /\ (returned (updateProperties d w) = true ->
        registered_for name HBegin w' = true).
Proof.
  intros ss w d name Hp Hd Hin Ht Hss w'.
  set (w1 := after (updateProperties d w)) in *.
  assert (Hnow : starts_now false d = false).
  { apply starts_now_waiting. right. intro E. rewrite E in Hin.
    contradiction. }
  assert (H1 : animationIsPlaying (this w1) = false
               /\ timers w1 = []
               /\ emitted (el w1) = emitted (el w)).
  { unfold w1. rewrite (updateProperties_rebuilds d w Hp).
    destruct (returned (Animation.createAndStartAnimation false
                          (reconfigured d w))) eqn:Hr.
    - rewrite (createAndStartAnimation_unheard false _ Hr)
        by (cbn [reconfigured data this with_this set_data
                 set_animationIsPlaying set_config];
            rewrite Hnow; discriminate).
      cbn [after].
      rewrite rebuilt_playing, rebuilt_timers, rebuilt_emitted.
      cbn [reconfigured data this with_this set_data set_animationIsPlaying
           set_config timers el].
      rewrite Hnow, (starts_later_plain false d Hd), Ht, !app_nil_r.
      repeat split.
    - destruct (createAndStartAnimation_thrown false _ Hr) as (g & l & E).
      rewrite E. repeat split. exact Ht. }
  destruct H1 as (Hp1 & Ht1 & He1).
  assert (He : engine w1 = engine w).
  { apply (handle_keeps_engine (Update d)). discriminate. }
  assert (Htm : time (this w1) = time (this w)).
  { apply (handle_keeps_time (Update d)). discriminate. }
  assert (Run : forall u,
             animationIsPlaying (this u) = false ->
             timers u = [] ->
             animationIsPlaying (this (run ss u)) = false
             /\ emitted (el (run ss u)) = emitted (el u)
             /\ engine (run ss u) = engine u
             /\ time (this (run ss u)) = time (this u)
             /\ listeners (el (run ss u)) = listeners (el u)).
  { clear -Hss. induction Hss as [|s r Hs Hr IH]; intros u Hpu Htu.
    - repeat split. exact Hpu.
    - rewrite run_cons. unfold step.
      destruct (idle_step s u Hs Hpu Htu)
        as (Hp' & Ht' & He' & Hl' & Htm' & Hen').
      destruct (IH _ Hp' Ht') as (I1 & I2 & I3 & I4 & I5).
      rewrite I2, I3, I4, I5, He', Hl', Htm', Hen'. repeat split.
      exact I1. }
  destruct (Run w1 Hp1 Ht1) as (R1 & R2 & R3 & R4 & R5).
  fold w' in R1, R2, R3, R4, R5.
  rewrite R2, R3, R4, He1, He, Htm.
  split; [exact R1|]. repeat split.
  intro Hr. unfold registered_for. rewrite R5.
  revert Hr. unfold w1. rewrite (updateProperties_rebuilds d w Hp).
  intro Hr. apply createAndStartAnimation_registers; [exact Hr|].
  apply in_triggers. exact Hin.
Qed.

(** X12. For a vector property other than "rotation" nothing is
    converted: the engine is given [from] as it was parsed or read, the
    end values x and y as parsed from [to], a fourth coordinate w when
    [to] has one (and else w as it was), and an update that writes the
    object3D for "position" and "scale" and goes through
    [setComponentProperty] for any other vector. (A two-coordinate value
    has no z, and nothing is said of z here. When [from] is not given,
    the property read is taken not to throw.) *)
Theorem other_vectors_are_handed_over_unconverted :
  forall (w : World) (r : bool),
    let d := data (this w) in
    is_vector_type (getPropertyType (AFRAME w) (el w) (property d)) = true ->
    property d <> "rotation"%string ->
    (from d = ""%string ->
     getComponentProperty_throws (el w) (property d) = false) ->
    let w' := after (Animation.createAndStartAnimation r w) in
    let g := config (this w') in
    let t := coordinates_parse (AFRAME w) (to d) in
    (exists n : nat, handed w' = handed w ++ repeat g (S n))
    /\ (accepts (animejs w) g = true -> animation (this w') = Some g)
    /\ targets g
       = TargetsArray
           [if truthy (from d)
            then VVec (coordinates_parse (AFRAME w) (from d))
            else getComponentProperty (el w) (property d)]
    /\ config_x g = Some (vx t)
    /\ config_y g = Some (vy t)
    /\ config_w g = match vw t with
                    | Some c => Some c
                    | None => config_w (config (this w))
                    end
    /\ config_update g
       = if String.eqb (property d) "position"
            || String.eqb (property d) "scale"
         then UpdateObject3D (property d)
         else UpdateVector (property d).
Proof.
  intros w r d Hv Hrot Hread w' g t.
  assert (Hr : String.eqb (property d) "rotation" = false)
    by (apply String.eqb_neq; exact Hrot).
  assert (Hu : unresolvable w = false).
  { unfold unresolvable. cbv zeta. fold d.
    destruct (getPropertyType (AFRAME w) (el w) (property d)) as [ty|];
      [|discriminate].
    rewrite Hr, andb_false_r, orb_false_r.
    destruct (truthy (from d)) eqn:Hf; [reflexivity|].
    cbn [negb andb]. apply Hread.
    unfold truthy in Hf. apply negb_false_iff in Hf.
    apply String.eqb_eq. exact Hf. }
  destruct (createAndStartAnimation_hands r w Hu) as (Hh & Hcfg & Ha).
  cbv zeta in Hh, Hcfg, Ha. fold w' in Hh, Hcfg, Ha. fold g in Hcfg.
  split; [rewrite Hcfg; exact Hh|].
  split; [rewrite Hcfg; exact Ha|].
  rewrite Hcfg. unfold resolved. cbv zeta. fold d. rewrite Hv, Hr.
  cbn [orb]. repeat split.
  destruct (String.eqb (property d) "position"); reflexivity.
Qed.
(** ** [schema.loop.parse] *)

Lemma digit_range (c : ascii) (k : Z) : digit c = Some k -> 0 <= k <= 9.
Proof.
  unfold digit. intro H.
  destruct ((48 <=? Z.of_nat (nat_of_ascii c))
            && (Z.of_nat (nat_of_ascii c) <=? 57)) eqn:E; [|discriminate].
  apply andb_true_iff in E. destruct E as [E1 E2].
  apply Z.leb_le in E1, E2. inversion H. lia.
Qed.

Lemma parseInt10_digit_first (c : ascii) (r : string) (k : Z) :
  digit c = Some k ->
  parseInt10 (String c r) = leading_digits r (Some k)
  /\ String.eqb (String c r) "true" = false
  /\ String.eqb (String c r) "false" = false.
Proof.
  intro H.
  destruct c as [b0 b1 b2 b3 b4 b5 b6 b7];
    destruct b0, b1, b2, b3, b4, b5, b6, b7;
    cbv in H; try discriminate H; inversion H; subst k;
    repeat split.
Qed.

Lemma leading_digits_app (ds tail : string) :
  all_digits ds = true ->
  stops_digits tail ->
  forall acc,
    leading_digits (ds ++ tail) acc = leading_digits ds acc.
Proof.
  intros Hd Ht. induction ds as [|c r IH]; intro acc.
  - cbn [String.append leading_digits].
    destruct tail as [|c t]; [reflexivity|].
    cbn in Ht. cbn [leading_digits]. rewrite Ht. reflexivity.
  - cbn [String.append leading_digits all_digits] in *.
    destruct (digit c); [|discriminate]. apply IH. exact Hd.
Qed.

(** X16. [loop.parse] yields a boolean exactly for the strings "true" and
    "false"; every other value goes to [parseInt], and one that starts
    with a one-byte character that is neither white space, a digit nor a
    sign yields NaN. *)
Theorem loop_parse_booleans_and_garbage :
  forall (value : string) (b : bool),
    (loop_parse value = LoopBool b <->
     (value = "true"%string /\ b = true)
     \/ (value = "false"%string /\ b = false))
    /\ (forall (c : ascii) (r : string),
          value = String c r ->
          value <> "true"%string ->
          value <> "false"%string ->
          (nat_of_ascii c < 128)%nat ->
          digit c = None ->
          is_space c = false ->
          c <> "-"%char ->
          c <> "+"%char ->
          loop_parse value = LoopNaN).
Proof.
  intros value b. split.
  - unfold loop_parse.
    destruct (String.eqb_spec value "true") as [E1|E1].
    { split.
      - intro H. inversion H. left. auto.
      - intros [[_ Hb]|[Hv _]]; [subst; reflexivity|].
        subst. discriminate. }
    destruct (String.eqb_spec value "false") as [E2|E2].
    { split.
      - intro H. inversion H. right. auto.
      - intros [[Hv _]|[_ Hb]]; [subst; discriminate|].
        subst. reflexivity. }
    split.
    + intro H. destruct (parseInt10 value); discriminate.
    + intros [[Hv _]|[Hv _]]; contradiction.
  - intros c r Hv Ht Hf _ Hd Hs Hm Hp. unfold loop_parse.
    destruct (String.eqb_spec value "true"); [contradiction|].
    destruct (String.eqb_spec value "false"); [contradiction|].
    subst value.
    assert (E : parseInt10 (String c r) = None).
    { unfold parseInt10. cbn [skip_spaces]. rewrite Hs.
      assert (Hl : leading_digits (String c r) None = None)
        by (cbn [leading_digits]; rewrite Hd; reflexivity).
      destruct c as [b0 b1 b2 b3 b4 b5 b6 b7];
        destruct b0, b1, b2, b3, b4, b5, b6, b7;
        try exact Hl;
        first [exfalso; apply Hm; reflexivity
              | exfalso; apply Hp; reflexivity]. }
    rewrite E. reflexivity.
Qed.

Lemma denotes_nonneg (s : string) : 0 <= denotes s.
Proof.
  induction s as [|c r IH]; cbn [denotes]; [lia|].
  destruct (digit c) as [k|] eqn:E.
  - pose proof (digit_range c k E).
    assert (0 <= 10 ^ Z.of_nat (String.length r)) by (apply Z.pow_nonneg; lia).
    nia.
  - lia.
Qed.

(** Reading digits after [acc] shifts [acc] by their number and adds what
    they denote. *)
Lemma leading_digits_denotes (ds : string) :
  all_digits ds = true ->
  forall acc : Z,
    leading_digits ds (Some acc)
    = Some (acc * 10 ^ Z.of_nat (String.length ds) + denotes ds).
Proof.
  induction ds as [|c r IH]; intros Hd acc.
  - cbn. f_equal. lia.
  - cbn [all_digits] in Hd. cbn [leading_digits denotes String.length].
    destruct (digit c) as [k|]; [|discriminate].
    rewrite (IH Hd). f_equal.
    rewrite Nat2Z.inj_succ, Z.pow_succ_r by lia. ring.
Qed.

(** X17. [loop.parse] reads a count the way [parseInt] does: for a
    non-empty string of at most fifteen digits followed by nothing or by
    anything that does not start with a digit, the result is the
    non-negative integer the digits denote by their places, the tail is
    ignored, a leading space is skipped and a leading minus sign
    negates. *)
Theorem loop_parse_reads_leading_digits :
  forall (ds tail : string),
    ds <> ""%string ->
    (String.length ds <= 15)%nat ->
    all_digits ds = true ->
    stops_digits tail ->
    0 <= denotes ds
    /\ loop_parse ds = LoopInt (denotes ds)
    /\ loop_parse (ds ++ tail) = LoopInt (denotes ds)
    /\ loop_parse (String " " (ds ++ tail)) = LoopInt (denotes ds)
    /\ loop_parse (String "-" (ds ++ tail)) = LoopInt (- denotes ds).
Proof.
  intros ds tail Hne _ Hd Ht.
  split; [apply denotes_nonneg|].
  assert (Hl : leading_digits ds None = Some (denotes ds)).
  { destruct ds as [|c r]; [contradiction|].
    pose proof Hd as Hd'. cbn [all_digits] in Hd'.
    cbn [leading_digits denotes]. destruct (digit c) as [k|]; [|discriminate].
    rewrite (leading_digits_denotes r Hd'). f_equal. }
  assert (Hla : leading_digits (ds ++ tail) None = Some (denotes ds))
    by (rewrite (leading_digits_app _ tail Hd Ht); exact Hl).
  destruct ds as [|c r]; [contradiction|].
  pose proof Hd as Hd'. cbn [all_digits] in Hd'.
  destruct (digit c) as [k|] eqn:Ek; [|discriminate].
  destruct (parseInt10_digit_first c r k Ek) as (Hp & Ht1 & Hf1).
  destruct (parseInt10_digit_first c (r ++ tail) k Ek) as (Hp' & Ht2 & Hf2).
  assert (Hn : leading_digits r (Some k) = Some (denotes (String c r))).
  { rewrite <- Hl. cbn [leading_digits]. rewrite Ek.
    replace (10 * 0 + k) with k by lia. reflexivity. }
  assert (Hn' : leading_digits (r ++ tail) (Some k)
                = Some (denotes (String c r))).
  { rewrite <- Hla. cbn [String.append leading_digits]. rewrite Ek.
    replace (10 * 0 + k) with k by lia. reflexivity. }
  split; [|split; [|split]].
  - unfold loop_parse. rewrite Ht1, Hf1, Hp, Hn. reflexivity.
  - unfold loop_parse. cbn [String.append]. rewrite Ht2, Hf2, Hp', Hn'.
    reflexivity.
  - change (loop_parse (String " " (String c r ++ tail)))
      with (match parseInt10 (String c r ++ tail) with
            | Some m => LoopInt m
            | None => LoopNaN
            end).
    cbn [String.append]. rewrite Hp', Hn'. reflexivity.
  - change (loop_parse (String "-" (String c r ++ tail)))
      with (match option_map Z.opp
                    (leading_digits (String c r ++ tail) None) with
            | Some m => LoopInt m
            | None => LoopNaN
            end).
    rewrite Hla. reflexivity.
Qed.

(** ** [getPropertyType] *)

Lemma split_no_sep (sep : ascii) (s : string) :
  occurs sep s = false -> split sep s = [s].
Proof.
  induction s as [|c r IH]; intro H.
  - reflexivity.
  - cbn [occurs] in H. apply orb_false_iff in H. destruct H as [H1 H2].
    cbn [split]. rewrite H1, (IH H2). reflexivity.
Qed.

Lemma split_at_sep (sep : ascii) (a b : string) :
  occurs sep a = false ->
  split sep (a ++ String sep b) = a :: split sep b.
Proof.
  induction a as [|c r IH]; intro H.
  - cbn [String.append split]. rewrite Ascii.eqb_refl. reflexivity.
  - cbn [occurs] in H. apply orb_false_iff in H. destruct H as [H1 H2].
    cbn [String.append split]. rewrite H1, (IH H2). reflexivity.
Qed.

(** X18. How a property path is read, and when reading it throws. The
    entity's own component is looked up before the globally registered
    one. When nothing is found the path has no type. When what is found
    has no schema (an inherited key of the component table, such as
    "toString"), the lookup throws a TypeError, for the path alone and
    for any "component.name". Otherwise a path without a dot has the
    type of the schema; a path "component.name" has the type the schema
    declares for [name], and no type when the schema does not know
    [name]; a path "component." is read as the component alone. A
    parameter change whose [property] names a value without a schema
    therefore throws before the engine is given anything. *)
Theorem getPropertyType_reads_paths :
  forall (G : Globals) (e : Element) (comp name : string),
    occurs "." comp = false ->
    occurs "." name = false ->
    getPropertyType G e comp
    = match component_named G e comp with
      | Missing => Some None
      | Bare => None
      | Defined c => Some (schema_type c)
      end
    /\ getPropertyType G e (comp ++ String "." EmptyString)
       = getPropertyType G e comp
    /\ (name <> ""%string ->
        getPropertyType G e (comp ++ String "." name)
        = match component_named G e comp with
          | Missing => Some None
          | Bare => None
          | Defined c => match schema_prop c name with
                         | Some ty => Some ty
                         | None => Some None
                         end
          end)
    /\ (forall (w : World) (d : Data),
          AFRAME w = G -> el w = e ->
          property d = comp \/ property d = (comp ++ String "." name)%string ->
          property d <> ""%string ->
          component_named G e comp = Bare ->
          returned (updateProperties d w) = false
          /\ handed (after (updateProperties d w)) = handed w
          /\ animation (this (after (updateProperties d w)))
             = animation (this w)).
Proof.
  intros G e comp name Hc Hn.
  assert (P1 : getPropertyType G e comp
               = match component_named G e comp with
                 | Missing => Some None
                 | Bare => None
                 | Defined c => Some (schema_type c)
                 end).
  { unfold getPropertyType, component_named.
    rewrite (split_no_sep "." comp Hc).
    cbn [nth nth_error]. destruct (components e comp); [|reflexivity..].
    destruct (registered G comp); reflexivity. }
  assert (P2 : getPropertyType G e (comp ++ String "." EmptyString)
               = getPropertyType G e comp).
  { unfold getPropertyType.
    rewrite (split_no_sep "." comp Hc).
    rewrite (split_at_sep "." comp _ Hc).
    cbn [split nth nth_error truthy String.eqb negb]. reflexivity. }
  assert (P3 : getPropertyType G e (comp ++ String "." name)
               = match component_named G e comp with
                 | Missing => Some None
                 | Bare => None
                 | Defined c =>
                     if truthy name then
                       match schema_prop c name with
                       | Some ty => Some ty
                       | None => Some None
                       end
                     else Some (schema_type c)
                 end).
  { unfold getPropertyType, component_named.
    rewrite (split_at_sep "." comp _ Hc).
    rewrite (split_no_sep "." name Hn).
    cbn [nth nth_error]. destruct (components e comp); [|reflexivity|].
    - destruct (registered G comp); [reflexivity..|].
      destruct (truthy name); [|reflexivity].
      destruct (schema_prop s name); reflexivity.
    - destruct (truthy name); [|reflexivity].
      destruct (schema_prop s name); reflexivity. }
  split; [exact P1|]. split; [exact P2|]. split.
  - intro Hne. rewrite P3, (truthy_true name Hne). reflexivity.
  - intros w d HG He Hprop Hne Hbare.
    rewrite (updateProperties_rebuilds d w Hne).
    set (u := reconfigured d w).
    assert (Hu : unresolvable u = true).
    { unfold unresolvable. cbv zeta.
      change (AFRAME u) with (AFRAME w). change (el u) with (el w).
      change (property (data (this u))) with (property d).
      rewrite HG, He.
      destruct Hprop as [E|E]; rewrite E.
      - rewrite P1, Hbare. reflexivity.
      - rewrite P3, Hbare. reflexivity. }
    unfold Animation.createAndStartAnimation.
    rewrite createAndStartAnimation_eq.
    destruct (configure_throws u Hu) as [err He']. rewrite He'.
    repeat split.
Qed.
(** ** More on the start-delay timer *)

Lemma rebuilt_clock (r : bool) (w : World) : clock (rebuilt r w) = clock w.
Proof. apply rebuilt_rest. Qed.

Lemma delayed_rebuild (w : World) (d : Data) :
  property d <> ""%string ->
  delay d <> 0 ->
  returned (updateProperties d w) = true ->
  after (updateProperties d w) = rebuilt false (reconfigured d w).
Proof.
  intros Hp Hd Hr. revert Hr. rewrite (updateProperties_rebuilds d w Hp).
  intro Hr.
  rewrite (createAndStartAnimation_unheard false _ Hr); [reflexivity|].
  cbn [reconfigured data this with_this set_data set_animationIsPlaying
       set_config].
  rewrite (starts_now_waiting d (or_introl Hd)). discriminate.
Qed.

(** The timer a delayed parameter change schedules. *)
Lemma nonzero_delay_timer (w : World) (d : Data) :
  property d <> ""%string ->
  delay d <> 0 ->
  returned (updateProperties d w) = true ->
  timers (after (updateProperties d w))
  = timers w ++ [clock w + Z.max 0 (to_int32 (delay d))]
  /\ clock (after (updateProperties d w)) = clock w.
Proof.
  intros Hp Hd Hr.
  rewrite (delayed_rebuild w d Hp Hd Hr).
  split; [|exact (rebuilt_clock false (reconfigured d w))].
  rewrite rebuilt_timers.
  cbn [reconfigured data this with_this set_data set_animationIsPlaying
       set_config timers clock].
  unfold starts_later. cbn [negb andb].
  apply Z.eqb_neq in Hd. rewrite Hd. reflexivity.
Qed.

(** X20. A non-zero delay always defers the start, whatever the start
    events are: a parameter change that returns leaves the component not
    playing, with nothing emitted and exactly one timer added. The timer
    is due after the delay as the platform keeps it, a signed 32-bit
    integer with negative values counted as zero: after [delay] ms when
    the delay is below 2^31, and at once when the kept value is not
    positive; then the next run of the timers emits "animationbegin",
    and leaves the component playing if nothing listens to it. *)
Theorem nonzero_delay_defers_the_start :
  forall (w : World) (d : Data),
    property d <> ""%string ->
    delay d <> 0 ->
    returned (updateProperties d w) = true ->
    let w1 := after (updateProperties d w) in
    animationIsPlaying (this w1) = false
    /\ emitted (el w1) = emitted (el w)
    /\ timers w1 = timers w ++ [clock w + Z.max 0 (to_int32 (delay d))]
    /\ (0 < delay d < 2 ^ 31 -> timers w1 = timers w ++ [clock w + delay d])
    /\ (to_int32 (delay d) <= 0 ->
        (begins (emitted (el w1))
         < begins (emitted (el (after (elapse 0 w1)))))%nat
        /\ (hears "animationbegin" w1 = false ->
            animationIsPlaying (this (after (elapse 0 w1))) = true)).
Proof.
  intros w d Hp Hd Hr w1.
  assert (E : w1 = rebuilt false (reconfigured d w))
    by (apply delayed_rebuild; assumption).
  assert (Hnow : starts_now false d = false)
    by (apply starts_now_waiting; left; exact Hd).
  assert (Hlater : starts_later false d = true).
  { unfold starts_later. cbn [negb andb]. apply negb_true_iff.
    apply Z.eqb_neq. exact Hd. }
  assert (Ht : timers w1
               = timers w ++ [clock w + Z.max 0 (to_int32 (delay d))]).
  { rewrite E, rebuilt_timers.
    cbn [reconfigured data this with_this set_data set_animationIsPlaying
         set_config timers clock].
    rewrite Hlater. reflexivity. }
  assert (Hc : clock w1 = clock w).
  { rewrite E. exact (rebuilt_clock false (reconfigured d w)). }
  split.
  { rewrite E, rebuilt_playing. exact Hnow. }
  split.
  { rewrite E, rebuilt_emitted.
    cbn [reconfigured data this with_this set_data set_animationIsPlaying
         set_config el].
    rewrite Hnow. apply app_nil_r. }
  split; [exact Ht|].
  split.
  { intro Hrange. rewrite Ht, to_int32_small by lia.
    rewrite Z.max_r by lia. reflexivity. }
  intro Hle.
  assert (Hin : In (clock w) (timers w1)).
  { rewrite Ht. apply in_or_app. right. left.
    rewrite Z.max_l by lia. lia. }
  split.
  - apply (elapse_begins 0 (clock w)); [exact Hin|lia].
  - intro Hh.
    destruct (elapse_unheard 0 w1 Hh) as (_ & _ & Hp3 & _).
    cbv zeta in Hp3.
    assert (Hdue : In (clock w)
                     (filter (fun x => x <=? clock w1 + 0) (timers w1))).
    { apply filter_In. split; [exact Hin|]. apply Z.leb_le. lia. }
    destruct (filter (fun x => x <=? clock w1 + 0) (timers w1))
      as [|x r]; [contradiction|].
    exact Hp3.
Qed.

Lemma detach_keeps_timers (s : Stimulus) (w : World) :
  s = Remove \/ s = Pause ->
  timers (after (handle s w)) = timers w
  /\ clock (after (handle s w)) = clock w
  /\ animationIsPlaying (this (after (handle s w))) = false
  /\ emitted (el (after (handle s w))) = emitted (el w)
  /\ (forall name, hears name w = false ->
                   hears name (after (handle s w)) = false).
Proof.
  intros [E|E]; subst s; cbn [handle].
  - rewrite remove_eq. cbn [after].
    destruct (detaching_frame (with_this (set_animationIsPlaying false) w))
      as (l & n & Hf).
    split; [rewrite Hf; reflexivity|].
    split; [rewrite Hf; reflexivity|].
    split; [rewrite Hf; reflexivity|].
    split; [rewrite Hf; reflexivity|].
    intros name Hh.
    apply (hears_detached name (with_this (set_animationIsPlaying false) w)).
    exact Hh.
  - rewrite pause_eq. cbn [after].
    destruct (detaching_frame
                (with_this (set_animationIsPlaying false)
                   (with_this (set_pausedWasPlaying true)
                      (with_this (set_paused true) w))))
      as (l & n & Hf).
    split; [rewrite Hf; reflexivity|].
    split; [rewrite Hf; reflexivity|].
    split; [rewrite Hf; reflexivity|].
    split; [rewrite Hf; reflexivity|].
    intros name Hh.
    apply (hears_detached name
             (with_this (set_animationIsPlaying false)
                (with_this (set_pausedWasPlaying true)
                   (with_this (set_paused true) w)))).
    exact Hh.
Qed.

(** X21. Neither [remove] nor the host [pause] cancels a start-delay
    timer: when the delay of a parameter change that returned runs out
    after the component was removed or paused, [beginAnimation] still
    runs: "animationbegin" is emitted, and the component is playing
    unless a listener of "animationbegin" that is still registered stops
    it. *)
Theorem timer_outlives_remove_and_pause :
  forall (w : World) (d : Data) (s : Stimulus),
    property d <> ""%string ->
    0 < delay d < 2 ^ 31 ->
    returned (updateProperties d w) = true ->
    s = Remove \/ s = Pause ->
    let w1 := after (updateProperties d w) in
    let w2 := after (handle s w1) in
    let w3 := after (elapse (delay d) w2) in
    animationIsPlaying (this w2) = false
    /\ In (clock w + delay d) (timers w2)
    /\ (begins (emitted (el w2)) < begins (emitted (el w3)))%nat
    /\ (hears "animationbegin" w2 = false ->
        animationIsPlaying (this w3) = true).
Proof.
  intros w d s Hp Hd Hr Hs w1 w2 w3.
  assert (Hd0 : delay d <> 0) by lia.
  destruct (nonzero_delay_timer w d Hp Hd0 Hr) as (Ht1 & Hc1).
  fold w1 in Ht1, Hc1.
  destruct (detach_keeps_timers s w1 Hs) as (Ht2 & Hc2 & Hp2 & _).
  fold w2 in Ht2, Hc2, Hp2.
  assert (Hin : In (clock w + delay d) (timers w2)).
  { rewrite Ht2, Ht1. apply in_or_app. right. left.
    rewrite to_int32_small by lia. rewrite Z.max_r by lia. reflexivity. }
  split; [exact Hp2|]. split; [exact Hin|].
  split.
  - apply (elapse_begins (delay d) (clock w + delay d)); [exact Hin|lia].
  - intro Hh.
    destruct (elapse_unheard (delay d) w2 Hh) as (_ & _ & Hp3 & _).
    fold w3 in Hp3. cbv zeta in Hp3.
    assert (Hdue : In (clock w + delay d)
                     (filter (fun x => x <=? clock w2 + delay d)
                        (timers w2))).
    { apply filter_In. split; [exact Hin|]. apply Z.leb_le. lia. }
    destruct (filter (fun x => x <=? clock w2 + delay d) (timers w2))
      as [|x r]; [contradiction|].
    exact Hp3.
Qed.
(** ** The component's own notifications *)

(** X24. A notification nobody listens to is only recorded: when the
    entity has no listener under the name, [el.emit] appends the
    notification to what was emitted and changes nothing else, so
    [beginAnimation] then does no more than set the flag and record
    "animationbegin". *)
Theorem unheard_notification_is_only_recorded :
  forall (w : World) (name detail : string),
    hears name w = false ->
    emit name detail w = Returned tt (with_el (logged name detail) w)
    /\ (name = "animationbegin"%string ->
        Animation.beginAnimation w
        = Returned tt
            (with_el (logged "animationbegin" (attrName (this w)))
               (with_this (set_animationIsPlaying true) w))).
Proof.
  intros w name detail Hh. split.
  - apply emit_unheard. exact Hh.
  - intro E. subst name. apply beginAnimation_unheard. exact Hh.
Qed.

(** X25. A pause trigger named "animationbegin" stops the animation as
    it starts: when [pauseAnimation] is the listener of
    "animationbegin", [beginAnimation] sets the flag, emits the
    notification, and the listener clears the flag again before
    [beginAnimation] returns. *)
Theorem pause_trigger_on_begin_stops_the_start :
  forall (w : World) (l : Listener),
    filter (fun l' => String.eqb (lname l') "animationbegin")
      (listeners (el w)) = [l] ->
    lhandler l = HPause ->
    stack w <> 0%nat ->
    Animation.beginAnimation w
    = Returned tt
        (with_this (set_animationIsPlaying false)
           (with_el (logged "animationbegin" (attrName (this w)))
              (with_this (set_animationIsPlaying true) w))).
Proof.
  intros w l Hsnap Hh Hstack.
  rewrite beginAnimation_eq. unfold emit.
  cbn [stack with_this].
  destruct (stack w) as [|k]; [contradiction|].
  cbn [emit_at]. unfold bind at 1. unfold modify at 1.
  unfold dispatch_with. unfold bind at 1. unfold read at 1.
  cbn [el with_el with_this listeners logged set_emitted].
  rewrite Hsnap. cbn [for_each]. unfold bind at 1 2. unfold read at 1.
  cbn [el with_el with_this listeners logged set_emitted].
  assert (Hin : In l (listeners (el w))).
  { assert (Hl : In l [l]) by (left; reflexivity).
    rewrite <- Hsnap in Hl. apply filter_In in Hl. tauto. }
  assert (Hex : existsb (fun l' => Nat.eqb (lid l') (lid l))
                  (listeners (el w)) = true).
  { apply existsb_exists. exists l. split; [exact Hin|].
    apply Nat.eqb_refl. }
  rewrite Hex, Hh. reflexivity.
Qed.

(** X26. The end of the animation is notified from inside the frame:
    when the engine, given the new time, reports the handle complete,
    the callback installed by [init] emits "animationcomplete" with the
    attribute name before [tick] returns. The component itself does not
    stop: if nothing listens to the notification, it is still playing
    after the frame. *)
Theorem completion_is_notified_from_the_frame :
  forall (w : World) (t dt : Z) (h : Config),
    animationIsPlaying (this w) = true ->
    animation (this w) = Some h ->
    config_complete h = EmitComplete ->
    frame_complete (advance (animejs w) h (time (this w) + dt)) = true ->
    (exists rest,
        emitted (el (after (Animation.tick t dt w)))
        = emitted (el w)
          ++ ("animationcomplete"%string, attrName (this w)) :: rest)
    /\ (hears "animationcomplete" w = false ->
        emitted (el (after (Animation.tick t dt w)))
        = emitted (el w)
          ++ [("animationcomplete"%string, attrName (this w))]
        /\ animationIsPlaying (this (after (Animation.tick t dt w)))
           = true).
Proof.
  intros w t dt h Hp Ha Hk Hf.
  assert (E : exists p o3 : string -> Value,
             Animation.tick t dt w
             = emit "animationcomplete" (attrName (this w))
                 (with_el (fun e => set_object3D o3 (set_properties p e))
                    (with_engine (fun l => l ++ [time (this w) + dt])
                       (with_this (set_time (time (this w) + dt)) w)))).
  { unfold Animation.tick, Methods.tick.
    unfold bind at 1. unfold read at 1. rewrite Hp. cbn [negb].
    unfold bind at 1. unfold modify at 1.
    unfold bind at 1. unfold read at 1.
    cbn [animation this with_this set_time]. rewrite Ha.
    unfold bind at 1. unfold modify at 1.
    unfold bind at 1. unfold read at 1.
    cbn [animejs this with_this with_engine set_time time].
    rewrite Hf, Hk.
    set (w1 := with_engine _ _).
    assert (Hu : exists p o3 : string -> Value,
               (match frame_value
                        (advance (animejs w) h (time (this w) + dt)) with
                | Some v => Methods.run_update (config_update h) v
                | None => ret tt
                end) w1
               = Returned tt
                   (with_el
                      (fun e => set_object3D o3 (set_properties p e)) w1)).
    { destruct (frame_value _) as [v|].
      - apply run_update_frame.
      - apply (run_update_frame NoUpdate (VString "")). }
    destruct Hu as (p & o3 & Hu). exists p, o3.
    unfold bind at 1. rewrite Hu. reflexivity. }
  destruct E as (p & o3 & E). rewrite E.
  set (w2 := with_el _ _).
  split.
  - exact (emit_emits "animationcomplete" (attrName (this w)) w2).
  - intro Hh. rewrite (emit_unheard _ _ w2 Hh). cbn [after].
    split; [reflexivity|exact Hp].
Qed.
(** ** Instances of the further properties *)

Lemma registrations_never_duplicated_witness :
  NoDup (registrations world0)
  /\ NoDup (registrations
              (run [Update move_on_go; Pause; Update move_on_go; Play]
                 world0)).
Proof.
  assert (H : NoDup (registrations world0)) by constructor.
  split; [exact H|].
  exact (registrations_never_duplicated
           [Update move_on_go; Pause; Update move_on_go; Play] world0 H).
Defined.

Lemma only_parameter_changes_throw_witness :
  (handle_ready world0
   /\ Forall not_pause
        [Update stringly; Tick 0 16; Update move; Tick 16 16; Remove;
         Elapse 10; Event "go"; Play])
  /\ only_updates_throw
       [Update stringly; Tick 0 16; Update move; Tick 16 16; Remove;
        Elapse 10; Event "go"; Play] world0 = true.
Proof.
  assert (Hw : handle_ready world0).
  { split; [reflexivity|]. intros _. repeat split. }
  assert (Hs : Forall not_pause
                 [Update stringly; Tick 0 16; Update move; Tick 16 16;
                  Remove; Elapse 10; Event "go"; Play])
    by (repeat constructor).
  split; [split; assumption|].
  exact (proj1 (only_parameter_changes_throw_before_a_host_pause
                  [Update stringly; Tick 0 16; Update move; Tick 16 16;
                   Remove; Elapse 10; Event "go"; Play] world0 Hw Hs)).
Defined.

Lemma tick_throws_witness :
  animation (this world0) = None
  /\ returned
       (Animation.tick 0 16
          (after (Animation.play (after (Animation.pause world0)))))
     = false.
Proof.
  split; [reflexivity|].
  exact (proj1 (proj2 (proj2
    (tick_throws_after_pause_and_play_without_handle
       world0 0 16 eq_refl)))).
Defined.

Lemma frames_feed_witness :
  (animationIsPlaying (this (run [Update move] world0)) = true
   /\ animation (this (run [Update move] world0)) <> None
   /\ hears "animationcomplete" (run [Update move] world0) = false)
  /\ engine (run (frames [(0, 16); (16, 16); (32, 18)])
               (run [Update move] world0))
     = [16; 32; 50].
Proof.
  assert (Ha : animation (this (run [Update move] world0)) <> None)
    by discriminate.
  split; [repeat split; exact Ha|].
  exact (proj1 (proj2 (proj2
    (proj1 (frames_feed_running_totals [(0, 16); (16, 16); (32, 18)]
              (run [Update move] world0)) eq_refl Ha eq_refl)))).
Defined.

Lemma rebuild_continues_witness :
  (property move <> ""%string /\ delay move = 0 /\ startEvents move = []
   /\ returned (updateProperties move (run [Update move; Tick 0 16] world0))
      = true
   /\ hears "animationbegin" (run [Update move; Tick 0 16] world0) = false
   /\ ~ In "animationbegin"%string (event_names move))
  /\ engine (after (Animation.tick 16 16
       (after (updateProperties move
                 (run [Update move; Tick 0 16] world0)))))
     = [16; 32].
Proof.
  assert (Hp : property move <> ""%string) by discriminate.
  assert (Hn : ~ In "animationbegin"%string (event_names move))
    by (intros []).
  split; [repeat split; assumption|].
  exact (proj2 (proj2
    (rebuild_continues_from_accumulated_time
       (run [Update move; Tick 0 16] world0) move 16 16
       Hp eq_refl eq_refl eq_refl eq_refl Hn))).
Defined.

Lemma remove_and_pause_detach_witness :
  In ("go"%string, HBegin)
    (triggers (data (this (run [Update move_on_go] world0))))
  /\ registered_for "go" HBegin
       (after (Animation.remove (run [Update move_on_go] world0))) = false.
Proof.
  assert (H : In ("go"%string, HBegin)
                (triggers (data (this (run [Update move_on_go] world0)))))
    by (left; reflexivity).
  split; [exact H|].
  exact (proj1 (remove_and_pause_detach_current_triggers
                  (run [Update move_on_go] world0) "go" HBegin 0 16 H)).
Defined.

Lemma rebuild_and_play_register_witness :
  (In ("go"%string, HBegin) (triggers move_on_go)
   /\ property move_on_go <> ""%string
   /\ returned (updateProperties move_on_go world0) = true)
  /\ registered_for "go" HBegin
       (after (updateProperties move_on_go world0)) = true.
Proof.
  assert (H : In ("go"%string, HBegin) (triggers move_on_go))
    by (left; reflexivity).
  assert (Hp : property move_on_go <> ""%string) by discriminate.
  split; [repeat split; assumption|].
  exact (proj2 (proj2
    (rebuild_and_play_register_every_trigger
       world0 move_on_go "go" HBegin false H)) Hp eq_refl).
Defined.

Lemma play_is_idempotent_witness :
  paused (this world0) = false
  /\ Animation.play world0 = Returned tt world0.
Proof.
  split; [reflexivity|].
  exact (proj1 (play_is_idempotent_and_silent world0) eq_refl).
Defined.

Lemma pause_frames_resume_witness :
  (animationIsPlaying (this (run [Update move_stop_cont; Tick 0 16] world0))
   = true
   /\ filter (fun l' => String.eqb (lname l') "stop")
        (listeners (el (run [Update move_stop_cont; Tick 0 16] world0)))
      = [mkListener 0 "stop" HPause]
   /\ filter (fun l' => String.eqb (lname l') "cont")
        (listeners (el (run [Update move_stop_cont; Tick 0 16] world0)))
      = [mkListener 1 "cont" HResume])
  /\ run (Event "stop" :: frames [(16, 16); (32, 16)] ++ [Event "cont"])
       (run [Update move_stop_cont; Tick 0 16] world0)
     = run [Update move_stop_cont; Tick 0 16] world0.
Proof.
  split; [repeat split|].
  exact (pause_frames_resume_is_identity
           (run [Update move_stop_cont; Tick 0 16] world0)
           "stop" "cont" (mkListener 0 "stop" HPause)
           (mkListener 1 "cont" HResume) [(16, 16); (32, 16)]
           eq_refl eq_refl eq_refl eq_refl eq_refl).
Defined.

Lemma stale_trigger_witness :
  (~ In ("go"%string, HBegin) (triggers move_on_later)
   /\ registered_for "go" HBegin (run [Update move_on_go] world0) = true)
  /\ registered_for "go" HBegin
       (after (updateProperties move_on_later
                 (run [Update move_on_go] world0))) = true.
Proof.
  assert (Hn : ~ In ("go"%string, HBegin) (triggers move_on_later)).
  { intros [H|[]]. discriminate H. }
  split; [split; [exact Hn|reflexivity]|].
  exact (stale_trigger_survives_parameter_change
           (run [Update move_on_go] world0) move_on_later "go" HBegin
           Hn eq_refl).
Defined.

Lemma unknown_component_witness :
  (components (el (reconfigured fade_volume world0)) "volume" = Missing
   /\ registered (AFRAME (reconfigured fade_volume world0)) "volume"
      = Missing)
  /\ aframeProperty
       (config (this (after (Animation.createAndStartAnimation false
                               (reconfigured fade_volume world0)))))
     = Some "0"%string.
Proof.
  split; [split; reflexivity|].
  destruct (unknown_component_takes_default_path
              (reconfigured fade_volume world0) false eq_refl eq_refl
              (fun _ => eq_refl))
    as (_ & _ & _ & _ & H & _).
  exact H.
Defined.

Lemma other_vectors_witness :
  (is_vector_type (getPropertyType host entity "position") = true
   /\ property (data (this (reconfigured move world0)))
      <> "rotation"%string)
  /\ config_x
       (config (this (after (Animation.createAndStartAnimation false
                               (reconfigured move world0)))))
     = Some 1%R.
Proof.
  assert (Hr : property (data (this (reconfigured move world0)))
               <> "rotation"%string) by discriminate.
  split; [split; [reflexivity|exact Hr]|].
  destruct (other_vectors_are_handed_over_unconverted
              (reconfigured move world0) false eq_refl Hr
              (fun _ => eq_refl))
    as (_ & _ & _ & H & _).
  exact H.
Defined.

Lemma rebuild_keeps_keys_witness :
  is_vector_type (getPropertyType host entity "position") = true
  /\ aframeProperty
       (config (this (after (Animation.createAndStartAnimation false
          (reconfigured move (run [Update hide] world0))))))
     = Some "false"%string.
Proof.
  split; [reflexivity|].
  exact (proj1 (proj1 (rebuild_keeps_keys_of_the_other_path
                         (reconfigured move (run [Update hide] world0))
                         false) eq_refl)).
Defined.

Lemma parameter_change_base_keys_witness :
  property move <> ""%string
  /\ duration (config (this (after (updateProperties move world0))))
     = Some 1000.
Proof.
  assert (Hp : property move <> ""%string) by discriminate.
  split; [exact Hp|].
  exact (proj1 (proj2 (proj2
    (parameter_change_writes_base_keys world0 move Hp)))).
Defined.

Lemma armed_component_witness :
  (property move_on_go <> ""%string
   /\ delay move_on_go = 0
   /\ In "go"%string (startEvents move_on_go)
   /\ timers world0 = []
   /\ Forall passes_time [Tick 0 16; Elapse 1000; Tick 16 16])
  /\ animationIsPlaying
       (this (run [Tick 0 16; Elapse 1000; Tick 16 16]
                (after (updateProperties move_on_go world0))))
     = false.
Proof.
  assert (Hp : property move_on_go <> ""%string) by discriminate.
  assert (Hin : In "go"%string (startEvents move_on_go))
    by (left; reflexivity).
  assert (Hs : Forall passes_time [Tick 0 16; Elapse 1000; Tick 16 16])
    by (repeat constructor).
  split; [repeat split; assumption|].
  exact (proj1 (armed_component_waits_for_a_start_event
                  [Tick 0 16; Elapse 1000; Tick 16 16] world0 move_on_go
                  "go" Hp eq_refl Hin eq_refl Hs)).
Defined.

Lemma loop_parse_garbage_witness :
  ("once"%string <> "true"%string /\ "once"%string <> "false"%string)
  /\ loop_parse "once" = LoopNaN.
Proof.
  assert (Ht : "once"%string <> "true"%string) by discriminate.
  assert (Hf : "once"%string <> "false"%string) by discriminate.
  split; [auto|].
  assert (Ha : (nat_of_ascii "o" < 128)%nat)
    by (apply Nat.ltb_lt; reflexivity).
  refine (proj2 (loop_parse_booleans_and_garbage "once" true)
            "o"%char "nce"%string eq_refl Ht Hf Ha eq_refl eq_refl _ _);
    discriminate.
Defined.

Lemma loop_parse_digits_witness :
  ("12"%string <> ""%string /\ (String.length "12" <= 15)%nat
   /\ all_digits "12" = true /\ stops_digits "px")
  /\ loop_parse "12px" = LoopInt 12
  /\ loop_parse "-12px" = LoopInt (- 12).
Proof.
  assert (Hne : "12"%string <> ""%string) by discriminate.
  assert (Hs : stops_digits "px") by reflexivity.
  assert (Hlen : (String.length "12" <= 15)%nat)
    by (apply Nat.leb_le; reflexivity).
  split; [auto|].
  destruct (loop_parse_reads_leading_digits "12" "px" Hne Hlen eq_refl Hs)
    as (_ & _ & H1 & _ & H2).
  split; [exact H1|exact H2].
Defined.

Lemma getPropertyType_paths_witness :
  (occurs "." "toString" = false /\ occurs "." "opacity" = false
   /\ component_named host entity "toString" = Bare)
  /\ getPropertyType host entity "toString" = None
  /\ returned (updateProperties stringly world0) = false.
Proof.
  split; [repeat split|].
  destruct (getPropertyType_reads_paths host entity "toString" "opacity"
              eq_refl eq_refl) as (H1 & _ & _ & H4).
  split; [exact H1|].
  assert (Hp : property stringly <> ""%string) by discriminate.
  exact (proj1 (H4 world0 stringly eq_refl eq_refl (or_introl eq_refl)
                  Hp eq_refl)).
Defined.

Lemma unnamed_event_witness :
  (listeners (el world0) = []
   /\ ~ In "other"%string (event_names move_on_go))
  /\ dispatchEvent "other" (after (updateProperties move_on_go world0))
     = Returned tt (after (updateProperties move_on_go world0)).
Proof.
  assert (Hn : ~ In "other"%string (event_names move_on_go)).
  { intros [H|[]]. discriminate H. }
  split; [split; [reflexivity|exact Hn]|].
  exact (unnamed_event_changes_nothing world0 move_on_go "other"
           eq_refl Hn).
Defined.

Lemma nonzero_delay_witness :
  (property move_delayed <> ""%string /\ delay move_delayed <> 0
   /\ returned (updateProperties move_delayed world0) = true
   /\ 0 < delay move_delayed < 2 ^ 31)
  /\ timers (after (updateProperties move_delayed world0)) = [1000].
Proof.
  assert (Hp : property move_delayed <> ""%string) by discriminate.
  assert (Hd : delay move_delayed <> 0) by discriminate.
  assert (Hr : 0 < delay move_delayed < 2 ^ 31) by (simpl; lia).
  split; [repeat split; try assumption; simpl; lia|].
  exact (proj1 (proj2 (proj2 (proj2
    (nonzero_delay_defers_the_start world0 move_delayed Hp Hd eq_refl))))
    Hr).
Defined.

Lemma timer_outlives_witness :
  (property move_delayed <> ""%string
   /\ 0 < delay move_delayed < 2 ^ 31
   /\ returned (updateProperties move_delayed world0) = true
   /\ hears "animationbegin"
        (after (handle Remove (after (updateProperties move_delayed world0))))
      = false)
  /\ animationIsPlaying
       (this (after (elapse (delay move_delayed)
          (after (handle Remove
             (after (updateProperties move_delayed world0)))))))
     = true.
Proof.
  assert (Hp : property move_delayed <> ""%string) by discriminate.
  assert (Hd : 0 < delay move_delayed < 2 ^ 31) by (simpl; lia).
  split; [repeat split; try assumption; simpl; lia|].
  exact (proj2 (proj2 (proj2
    (timer_outlives_remove_and_pause world0 move_delayed Remove
       Hp Hd eq_refl (or_introl eq_refl)))) eq_refl).
Defined.

Lemma parameter_change_throws_witness :
  (property hide <> ""%string
   /\ returned (updateProperties hide world0) = false)
  /\ timers (after (updateProperties hide world0)) = timers world0
  /\ animationIsPlaying (this (after (updateProperties hide world0)))
     = false.
Proof.
  assert (Hp : property hide <> ""%string) by discriminate.
  split; [split; [exact Hp|reflexivity]|].
  destruct (parameter_change_throws_before_anything_starts world0 hide Hp)
    as [_ H].
  destruct (H eq_refl) as (_ & _ & Ht & Hpl).
  split; [exact Ht|exact Hpl].
Defined.

Lemma registrations_stay_witness :
  (Forall not_detaching
     [Update move_on_later; Tick 0 16; Event "later"; Elapse 5; Play]
   /\ registered_for "go" HBegin (run [Update move_on_go] world0) = true)
  /\ registered_for "go" HBegin
       (run [Update move_on_later; Tick 0 16; Event "later"; Elapse 5; Play]
          (run [Update move_on_go] world0)) = true.
Proof.
  assert (Hs : Forall not_detaching
                 [Update move_on_later; Tick 0 16; Event "later"; Elapse 5;
                  Play]) by (repeat constructor).
  split; [split; [exact Hs|reflexivity]|].
  exact (registrations_stay_until_pause_or_remove
           [Update move_on_later; Tick 0 16; Event "later"; Elapse 5; Play]
           (run [Update move_on_go] world0) "go" HBegin Hs eq_refl).
Defined.

Lemma unheard_notification_witness :
  hears "animationbegin" world0 = false
  /\ emit "animationbegin" "animation" world0
     = Returned tt (with_el (logged "animationbegin" "animation") world0).
Proof.
  split; [reflexivity|].
  exact (proj1 (unheard_notification_is_only_recorded
                  world0 "animationbegin" "animation" eq_refl)).
Defined.

Lemma pause_trigger_on_begin_witness :
  (filter (fun l' => String.eqb (lname l') "animationbegin")
     (listeners (el (run [Update move_self_paused] world0)))
   = [mkListener 0 "animationbegin" HPause]
   /\ stack (run [Update move_self_paused] world0) <> 0%nat)
  /\ animationIsPlaying
       (this (after (Animation.beginAnimation
                       (run [Update move_self_paused] world0))))
     = false.
Proof.
  assert (Hs : stack (run [Update move_self_paused] world0) <> 0%nat)
    by discriminate.
  split; [split; [reflexivity|exact Hs]|].
  rewrite (pause_trigger_on_begin_stops_the_start
             (run [Update move_self_paused] world0)
             (mkListener 0 "animationbegin" HPause) eq_refl eq_refl Hs).
  reflexivity.
Defined.

Lemma completion_witness :
  (animationIsPlaying (this (run [Update move] world0)) = true
   /\ hears "animationcomplete" (run [Update move] world0) = false)
  /\ animationIsPlaying
       (this (after (Animation.tick 0 1000 (run [Update move] world0))))
     = true.
Proof.
  split; [split; reflexivity|].
  destruct (animation (this (run [Update move] world0))) as [h|] eqn:Ha;
    [|discriminate Ha].
  assert (Hk : config_complete h = EmitComplete).
  { injection Ha as Ha. rewrite <- Ha. reflexivity. }
  assert (Hf : frame_complete
                 (advance (animejs (run [Update move] world0)) h
                    (time (this (run [Update move] world0)) + 1000))
               = true).
  { injection Ha as Ha. rewrite <- Ha. reflexivity. }
  exact (proj2 (proj2 (completion_is_notified_from_the_frame
                         (run [Update move] world0) 0 1000 h
                         eq_refl Ha Hk Hf) eq_refl)).
Defined.
